(** * Document classification, metadata extraction and Q&A: a shallow embedding

    The development follows the Python sources module by module:
    - [Str]: Python [str] values as sequences of Unicode code points, with the
      string methods the sources call ([lower], [strip], [split], [in],
      [replace], [zfill], slicing);
    - [Re]: the fragment of Python's [re] engine the sources' patterns use
      (ordered alternation, greedy bounded repetition of one-character atoms,
      capture groups, [re.IGNORECASE]), as a backtracking matcher;
    - [Classifier]: classifier.py;
    - [Metadata]: metadata_extractor.py;
    - [Analyzer]: analyzer.py (with the heap of Python list objects that
      [extract_keywords_and_tags] aliases);
    - [QA]: qa_system.py;
    - [Database]: the table of database.py, as a list of rows, with the
      numeric affinity of its [DATE] column;
    - [Config]: the choice of the API key of config.py.
    The theorems come after all the definitions. *)

From Stdlib Require Import NArith ZArith Ascii String Sorted Permutation Lia.
From stdpp Require Import base option list gmap.

Local Open Scope N_scope.

(** ** Python strings *)

Module Str.

(** A Python [str] is a sequence of code points. *)
Abbreviation char := N (only parsing).
Abbreviation str := (list N) (only parsing).

(** String constants are written as UTF-8 literals and decoded to code
    points ([u "..."]); the sources are NFC-normalised UTF-8. *)
Fixpoint utf8_decode (bs : list N) : str :=
  match bs with
  | [] => []
  | b0 :: r0 =>
    if b0 <? 128 then b0 :: utf8_decode r0
    else match r0 with
    | [] => []
    | b1 :: r1 =>
      if b0 <? 224 then ((b0 - 192) * 64 + (b1 - 128)) :: utf8_decode r1
      else match r1 with
      | [] => []
      | b2 :: r2 =>
        if b0 <? 240
        then ((b0 - 224) * 4096 + (b1 - 128) * 64 + (b2 - 128)) :: utf8_decode r2
        else match r2 with
        | [] => []
        | b3 :: r3 =>
          ((b0 - 240) * 262144 + (b1 - 128) * 4096 + (b2 - 128) * 64 + (b3 - 128))
            :: utf8_decode r3
        end
      end
    end
  end.

Definition u (s : string) : str :=
  utf8_decode (map N_of_ascii (list_ascii_of_string s)).
Arguments u s%_string.

Definition in_range (lo hi c : N) : bool := (lo <=? c) && (c <=? hi).

(** [str.isspace] on one code point: the set [str.strip()], [str.split()]
    and the regex class [\s] use. *)
Definition is_space (c : N) : bool :=
  in_range 9 13 c || in_range 28 32 c || (c =? 133) || (c =? 160)
  || (c =? 5760) || in_range 8192 8202 c || (c =? 8232) || (c =? 8233)
  || (c =? 8239) || (c =? 8287) || (c =? 12288).

(** Unicode decimal digits (category Nd), the class [\d] of a [str] pattern:
    the first code point of every block of ten. *)
Definition digit_blocks : list N :=
  [48; 1632; 1776; 1984; 2406; 2534; 2662; 2790; 2918; 3046; 3174; 3302;
   3430; 3558; 3664; 3792; 3872; 4160; 4240; 6112; 6160; 6470; 6608; 6784;
   6800; 6992; 7088; 7232; 7248; 42528; 43216; 43264; 43472; 43504; 43600;
   44016; 65296; 66720; 68912; 69734; 69872; 69942; 70096; 70384; 70736;
   70864; 71248; 71360; 71472; 71904; 72016; 72784; 73040; 73120; 92768;
   92864; 93008; 120782; 120792; 120802; 120812; 120822; 123200; 123632;
   125264; 130032].

Definition is_digit (c : N) : bool :=
  existsb (fun b => in_range b (b + 9) c) digit_blocks.

(** [str.lower] on one code point, for the Latin ranges that English and
    Vietnamese text use (Basic Latin, Latin-1, Latin Extended-A, the horned
    letters O and U, Latin Extended Additional).  Code points outside these
    ranges are left unchanged. *)
Definition char_lower (c : N) : N :=
  if in_range 65 90 c then c + 32
  else if in_range 192 222 c && negb (c =? 215) then c + 32
  else if in_range 256 303 c && N.even c then c + 1
  else if in_range 306 311 c && N.even c then c + 1
  else if in_range 313 328 c && N.odd c then c + 1
  else if in_range 330 375 c && N.even c then c + 1
  else if c =? 376 then 255
  else if in_range 377 382 c && N.odd c then c + 1
  else if (c =? 416) || (c =? 431) then c + 1
  else if in_range 7680 7829 c && N.even c then c + 1
  else if c =? 7838 then 223
  else if in_range 7840 7935 c && N.even c then c + 1
  else c.

Definition lower (s : str) : str := map char_lower s.

Fixpoint drop_while (p : N -> bool) (s : str) : str :=
  match s with
  | [] => []
  | c :: s' => if p c then drop_while p s' else s
  end.

(** [s.lstrip()], [s.rstrip()], [s.strip()] and [s.rstrip(chars)]. *)
Definition lstrip (s : str) : str := drop_while is_space s.
Definition rstrip_by (p : N -> bool) (s : str) : str :=
  rev (drop_while p (rev s)).
Definition rstrip (s : str) : str := rstrip_by is_space s.
Definition strip (s : str) : str := rstrip (lstrip s).
Definition mem_char (cs : str) (c : N) : bool := existsb (N.eqb c) cs.
Definition rstrip_chars (cs : str) (s : str) : str := rstrip_by (mem_char cs) s.

(** [s.split(sep)] for a one-character separator: never empty. *)
Fixpoint split_on (sep : N) (s : str) : list str :=
  match s with
  | [] => [[]]
  | c :: s' =>
    if c =? sep then [] :: split_on sep s'
    else match split_on sep s' with
         | [] => [[c]]
         | w :: ws => (c :: w) :: ws
         end
  end.

(** [s.split()]: maximal runs of non-whitespace characters. *)
Fixpoint split_ws_aux (cur : str) (s : str) : list str :=
  match s with
  | [] => if cur is [] then [] else [rev cur]
  | c :: s' =>
    if is_space c
    then (if cur is [] then split_ws_aux [] s' else rev cur :: split_ws_aux [] s')
    else split_ws_aux (c :: cur) s'
  end.
Definition split_ws (s : str) : list str := split_ws_aux [] s.

(** [s.startswith(w)]. *)
Fixpoint starts_with (w s : str) : bool :=
  match w, s with
  | [], _ => true
  | _ :: _, [] => false
  | a :: w', b :: s' => (a =? b) && starts_with w' s'
  end.

(** [w in s]. *)
Fixpoint contains (w s : str) : bool :=
  starts_with w s ||
  match s with
  | [] => false
  | _ :: s' => contains w s'
  end.

(** [s.replace(old, new)] for a non-empty [old]: occurrences are replaced
    left to right without overlap.  [skip] counts the characters of the
    occurrence being skipped. *)
Fixpoint replace_aux (old new : str) (skip : nat) (s : str) : str :=
  match s with
  | [] => []
  | c :: s' =>
    match skip with
    | S n => replace_aux old new n s'
    | O =>
      if starts_with old s
      then new ++ replace_aux old new (length old - 1) s'
      else c :: replace_aux old new 0 s'
    end
  end.
Definition replace (old new s : str) : str := replace_aux old new 0 s.

(** [s.zfill(width)]: zeros go after a leading sign. *)
Definition zfill (width : nat) (s : str) : str :=
  let pad := repeat 48 (width - length s) in
  match s with
  | c :: s' => if (c =? 43) || (c =? 45) then c :: pad ++ s' else pad ++ s
  | [] => pad
  end.

(** [sep.join(l)]. *)
Fixpoint join (sep : str) (l : list str) : str :=
  match l with
  | [] => []
  | [x] => x
  | x :: l' => x ++ sep ++ join sep l'
  end.

(** Order-preserving removal of duplicates, [list(dict.fromkeys(l))]. *)
Fixpoint dedup_aux (seen : list str) (l : list str) : list str :=
  match l with
  | [] => []
  | x :: l' =>
    if bool_decide (x ∈ seen) then dedup_aux seen l'
    else x :: dedup_aux (x :: seen) l'
  end.
Definition dedup (l : list str) : list str := dedup_aux [] l.

(** [d.get(key, default)] on a dict kept as an association list. *)
Fixpoint dict_get {V : Type} (d : list (str * V)) (key : str) (default : V) : V :=
  match d with
  | [] => default
  | (k, v) :: d' => if bool_decide (k = key) then v else dict_get d' key default
  end.

(** Truthiness of a Python string. *)
Definition nonempty (s : str) : bool := if s is [] then false else true.

End Str.
Import Str.

(** ** The regular-expression engine *)

Module Re.

(** Members of a bracket class: a literal, a range, [\s] or [\d]. *)
Inductive item :=
| ILit (c : N)
| IRange (lo hi : N)
| ISpace
| IDigit.

(** One-character atoms: a literal character or a (negated) class. *)
Inductive atom :=
| AChr (c : N)
| ASet (neg : bool) (items : list item).

(** The patterns of the sources only repeat one-character atoms. *)
Inductive regex :=
| Eps
| One (a : atom)
| Rep (a : atom) (lo : nat) (hi : option nat)
| Cat (r1 r2 : regex)
| Alt (r1 r2 : regex)
| Grp (r : regex).

Record rmatch := RMatch {
  m_start : nat;          (* match.start() *)
  m_whole : str;          (* match.group(0) *)
  m_groups : list str     (* match.groups() *)
}.

Definition range_chars (lo hi : N) : list N :=
  map N.of_nat (seq (N.to_nat lo) (N.to_nat hi + 1 - N.to_nat lo)).

(** With [re.IGNORECASE] a pattern character and a text character match
    when their lowercase forms agree; a range matches when one of its
    members does. *)
Definition chr_match (ic : bool) (p c : N) : bool :=
  if ic then char_lower p =? char_lower c else p =? c.

Definition item_match (ic : bool) (c : N) (it : item) : bool :=
  match it with
  | ILit p => chr_match ic p c
  | IRange lo hi =>
    if ic then existsb (fun p => chr_match ic p c) (range_chars lo hi)
    else in_range lo hi c
  | ISpace => is_space c
  | IDigit => is_digit c
  end.

Definition atom_match (ic : bool) (a : atom) (c : N) : bool :=
  match a with
  | AChr p => chr_match ic p c
  | ASet neg items => xorb neg (existsb (item_match ic c) items)
  end.

Definition more_allowed (hi : option nat) : bool :=
  match hi with Some O => false | _ => true end.
Definition dec_bound (hi : option nat) : option nat :=
  match hi with Some n => Some (pred n) | None => None end.

Section Matcher.
Context {A : Type} (ic : bool).

(** Greedy repetition [a{lo,hi}]: take as many characters as allowed,
    then give them back one at a time until the continuation succeeds. *)
Fixpoint rep (a : atom) (lo : nat) (hi : option nat) (s : str)
    (k : str -> option A) : option A :=
  match s with
  | c :: s' =>
    if more_allowed hi && atom_match ic a c then
      match rep a (pred lo) (dec_bound hi) s' k with
      | Some x => Some x
      | None => if lo is O then k s else None
      end
    else if lo is O then k s else None
  | [] => if lo is O then k [] else None
  end.

(** Backtracking matcher in continuation-passing style: [k] receives the
    remaining text and the groups captured so far. *)
Fixpoint run (r : regex) (s : str) (caps : list str)
    (k : str -> list str -> option A) : option A :=
  match r with
  | Eps => k s caps
  | One a =>
    match s with
    | c :: s' => if atom_match ic a c then k s' caps else None
    | [] => None
    end
  | Rep a lo hi => rep a lo hi s (fun s' => k s' caps)
  | Cat r1 r2 => run r1 s caps (fun s1 caps1 => run r2 s1 caps1 k)
  | Alt r1 r2 =>
    match run r1 s caps k with
    | Some x => Some x
    | None => run r2 s caps k
    end
  | Grp r1 =>
    run r1 s caps
      (fun s1 caps1 => k s1 (caps1 ++ [take (length s - length s1) s]))
  end.
End Matcher.

(** [pattern.match] at the start of [s]: the rest of the text and the groups. *)
Definition match_here (ic : bool) (r : regex) (s : str) : option (str * list str) :=
  run ic r s [] (fun rest caps => Some (rest, caps)).

Definition mk_match (pos : nat) (s : str) (res : str * list str) : rmatch :=
  RMatch pos (take (length s - length res.1) s) res.2.

(** [re.search]: the leftmost position with a match. *)
Fixpoint search_from (ic : bool) (r : regex) (pos : nat) (s : str) : option rmatch :=
  match match_here ic r s with
  | Some res => Some (mk_match pos s res)
  | None =>
    match s with
    | [] => None
    | _ :: s' => search_from ic r (S pos) s'
    end
  end.
Definition search (ic : bool) (r : regex) (s : str) : option rmatch :=
  search_from ic r 0 s.

(** [re.finditer]: leftmost matches without overlap; [skip] counts the
    characters of the previous match still to be passed (after an empty
    match the scan moves on by one character). *)
Fixpoint finditer_from (ic : bool) (r : regex) (pos skip : nat) (s : str) : list rmatch :=
  match skip with
  | S n =>
    match s with
    | [] => []
    | _ :: s' => finditer_from ic r (S pos) n s'
    end
  | O =>
    match match_here ic r s with
    | Some res =>
      mk_match pos s res ::
      match s with
      | [] => []
      | _ :: s' => finditer_from ic r (S pos) (length s - length res.1 - 1) s'
      end
    | None =>
      match s with
      | [] => []
      | _ :: s' => finditer_from ic r (S pos) 0 s'
      end
    end
  end.
Definition finditer (ic : bool) (r : regex) (s : str) : list rmatch :=
  finditer_from ic r 0 0 s.

(** Pattern constructors. *)
Definition lit (w : str) : regex := foldr (fun c r => Cat (One (AChr c)) r) Eps w.
Definition cat (rs : list regex) : regex := foldr Cat Eps rs.
Definition sp : atom := ASet false [ISpace].
Definition dg : atom := ASet false [IDigit].
Definition plus (a : atom) : regex := Rep a 1 None.
Definition star (a : atom) : regex := Rep a 0 None.
Definition times (a : atom) (lo hi : nat) : regex := Rep a lo (Some hi).
Definition none_of (cs : str) : atom := ASet true (map ILit cs).
Definition one_of (cs : str) : atom := ASet false (map ILit cs).

(** [re.escape(w)] compiles to the pattern that matches [w] literally. *)
Definition escape (w : str) : regex := lit w.

End Re.

Local Open Scope Z_scope.

(** ** classifier.py *)

Module Classifier.

(** [DocumentClassifier.KEYWORDS]: a dict, in insertion order. *)
Definition KEYWORDS : list (str * list str) :=
  [ (u "metro",
     [u "metro"; u "đường sắt đô thị"; u "tuyến metro"; u "tuyến đường sắt";
      u "depot"; u "nhà ga"; u "RAMS"; u "FEED"; u "Pre-FS"; u "FS"; u "khảo sát";
      u "thiết kế metro"; u "vận hành metro"; u "TOD"; u "transit-oriented";
      u "hạ tầng giao thông"; u "đường ray"; u "đoàn tàu"; u "tàu điện";
      u "MRT"; u "urban rail"; u "mass transit"]);
    (u "dau_thau",
     [u "đấu thầu"; u "mời thầu"; u "hồ sơ dự thầu"; u "đề xuất kỹ thuật";
      u "đề xuất tài chính"; u "nhà thầu"; u "đấu thầu rộng rãi";
      u "đàm phán cạnh tranh"; u "khu giáo dục"; u "đường Thống Nhất";
      u "Suối Cây Sao"; u "TOD4"; u "quy hoạch"; u "đầu tư"; u "dự án";
      u "thuyết minh dự án"; u "hồ sơ mời thầu"; u "PPP"; u "BT"; u "BOT"]);
    (u "chung_cu",
     [u "chung cư"; u "căn hộ"; u "apartment"; u "condominium"; u "nhà ở cao tầng";
      u "dự án chung cư"; u "bán nhà"; u "mua nhà"; u "sổ đỏ chung cư";
      u "pháp lý chung cư"; u "thiết kế chung cư"; u "xây dựng chung cư";
      u "kinh doanh bất động sản"; u "bán hàng chung cư"]);
    (u "nha_o_xa_hoi",
     [u "nhà ở xã hội"; u "NOXH"; u "nhà ở công nhân"; u "nhà ở cho người thu nhập thấp";
      u "chính sách nhà ở xã hội"; u "ưu đãi nhà ở"; u "an sinh xã hội";
      u "dự án an sinh"; u "nhà ở cho người nghèo"; u "social housing"]) ].

(** [DocumentClassifier.FOLDER_MAPPING]. *)
Definition FOLDER_MAPPING : list (str * str) :=
  [ (u "metro", u "Metro_DuongSatDoThi");
    (u "dau_thau", u "DauThau_KhuGiaoDuc_TOD");
    (u "chung_cu", u "ChungCu");
    (u "nha_o_xa_hoi", u "NhaO_XaHoi") ].

Record sub_group := SubGroup {
  sg_group : str;
  sg_folder : str;
  sg_score : Z
}.

Record classification := Classification {
  main_group : str;
  main_folder : str;
  sub_groups : list sub_group;
  confidence : str;
  scores : list (str * Z);
  matched_keywords : list str
}.

(** [len(re.findall(re.escape(keyword.lower()), content_lower))]. *)
Definition keyword_count (keyword content_lower : str) : Z :=
  Z.of_nat (length (Re.finditer false (Re.escape (lower keyword)) content_lower)).

(** The first inner loop: occurrences in the content. *)
Definition content_step (content_lower : str) (acc : Z * list str) (keyword : str)
    : Z * list str :=
  let count := keyword_count keyword content_lower in
  if 0 <? count then (acc.1 + count, acc.2 ++ [keyword]) else acc.

(** The second inner loop: the file-name bonus. *)
Definition filename_step (filename_lower : str) (acc : Z * list str) (keyword : str)
    : Z * list str :=
  if contains (lower keyword) filename_lower
  then (acc.1 + 2,
        if bool_decide (keyword ∈ acc.2) then acc.2 else acc.2 ++ [keyword])
  else acc.

(** The body of the loop over [KEYWORDS.items()]: score and matched
    keywords of one group. *)
Definition score_group (content_lower filename_lower : str) (keywords : list str)
    : Z * list str :=
  fold_left (filename_step filename_lower) keywords
    (fold_left (content_step content_lower) keywords (0, [])).

Definition all_scores (content filename : str) : list (str * (Z * list str)) :=
  map (fun gk => (gk.1, score_group (lower content) (lower filename) gk.2)) KEYWORDS.

(** [max(scores, key=scores.get)]: the first key with the largest value. *)
Fixpoint max_from (best : str * Z) (l : list (str * Z)) : str * Z :=
  match l with
  | [] => best
  | x :: l' => if best.2 <? x.2 then max_from x l' else max_from best l'
  end.
Definition max_key (scores : list (str * Z)) : option (str * Z) :=
  match scores with
  | [] => None
  | x :: l => Some (max_from x l)
  end.

(** [sorted(scores.items(), key=lambda x: x[1], reverse=True)]: Python's
    sort is stable, also under [reverse=True]; a stable sort has one
    possible result, computed here by stable insertion. *)
Fixpoint insert_desc (x : str * Z) (l : list (str * Z)) : list (str * Z) :=
  match l with
  | [] => [x]
  | y :: l' => if x.2 <? y.2 then y :: insert_desc x l' else x :: l
  end.
Definition sorted_desc (l : list (str * Z)) : list (str * Z) :=
  foldr insert_desc [] l.

Definition sum_scores (scores : list (str * Z)) : Z :=
  foldr (fun x acc => x.2 + acc) 0 scores.

(** [any(scores.values())]. *)
Definition any_score (scores : list (str * Z)) : bool :=
  existsb (fun x => negb (x.2 =? 0)) scores.

Definition khac : str := u "khac".
Definition cao : str := u "cao".
Definition trung_binh : str := u "trung_binh".
Definition thap : str := u "thap".

(** The confidence tier.  The source compares the float quotient
    [max_score / max(total_score, 1)] with the literal [0.6]; the quotient
    is correctly rounded and the literal is the double nearest to 3/5, so
    for totals below 10^15 the comparison is the exact one on rationals,
    written here without division. *)
Definition confidence_of (max_score total_score : Z) : str :=
  if (5 <=? max_score) && (3 * Z.max total_score 1 <? 5 * max_score) then cao
  else if 2 <=? max_score then trung_binh
  else thap.

(** [sorted_groups[1:3]] filtered by the loop body. *)
Definition sub_groups_of (main_group : str) (sorted_groups : list (str * Z))
    : list sub_group :=
  omap (fun gs =>
          if (0 <? gs.2) && negb (bool_decide (gs.1 = main_group))
          then Some (SubGroup gs.1 (dict_get FOLDER_MAPPING gs.1 []) gs.2)
          else None)
       (take 2 (drop 1 sorted_groups)).

(** [DocumentClassifier.classify]. *)
Definition classify (content filename : str) : classification :=
  let per_group := all_scores content filename in
  let scores := map (fun g => (g.1, g.2.1)) per_group in
  let matches := map (fun g => (g.1, g.2.2)) per_group in
  let '(main_group, main_folder, confidence) :=
    if negb (any_score scores) then (khac, u "Khac", thap)
    else
      match max_key scores with
      | Some (g, max_score) =>
        (g, dict_get FOLDER_MAPPING g (u "Khac"),
         confidence_of max_score (sum_scores scores))
      | None => (khac, u "Khac", thap)
      end in
  Classification main_group main_folder
    (sub_groups_of main_group (sorted_desc scores))
    confidence scores
    (if bool_decide (main_group = khac) then []
     else dict_get matches main_group []).

End Classifier.

(** ** metadata_extractor.py *)

Module Metadata.
Import Re.

(** [MetadataExtractor.DOCUMENT_TYPES]. *)
Definition DOCUMENT_TYPES : list str :=
  [u "Nghị định"; u "Nghị quyết"; u "Thông tư"; u "Luật"; u "Quyết định";
   u "Chỉ thị"; u "Thông báo"; u "Công văn"; u "Quy chế"; u "Quy định"].

Definition newline : N := 10%N.
(** The class [[^,\n]]. *)
Definition not_comma_nl : atom := ASet true [ILit 44%N; ILit newline].

(** [MetadataExtractor.AGENCY_PATTERNS]. *)
Definition AGENCY_PATTERNS : list regex :=
  [ cat [lit (u "Chính"); plus sp; lit (u "phủ")];
    cat [lit (u "Quốc"); plus sp; lit (u "hội")];
    cat [lit (u "Bộ"); plus sp; plus not_comma_nl];
    cat [lit (u "Ủy"); plus sp; lit (u "ban"); plus sp; plus not_comma_nl];
    cat [lit (u "Ban"); plus sp; plus not_comma_nl];
    cat [lit (u "Sở"); plus sp; plus not_comma_nl];
    cat [lit (u "UBND"); plus sp; plus not_comma_nl];
    cat [lit (u "HĐND"); plus sp; plus not_comma_nl];
    cat [lit (u "Thủ"); plus sp; lit (u "tướng")];
    cat [lit (u "Chủ"); plus sp; lit (u "tịch")] ].

Record metadata := MetadataResult {
  document_type : option str;
  issuing_agency : option str;
  issue_date : option str
}.

(** The three patterns tried for one document type. *)
Definition type_patterns (doc_type : str) : list regex :=
  [ cat [lit doc_type; plus sp; lit (u "số"); plus sp; plus dg];
    cat [lit doc_type; plus sp; plus dg];
    cat [lit doc_type; plus sp; plus (ASet true [ISpace])] ].

(** [MetadataExtractor._extract_document_type]. *)
Definition _extract_document_type (content content_lower filename : str) : option str :=
  let preview := take 1000 content in
  match list_find (fun doc_type =>
                     existsb (fun p => bool_decide (is_Some (search true p preview)))
                             (type_patterns doc_type) = true)
                  DOCUMENT_TYPES with
  | Some (_, doc_type) => Some doc_type
  | None =>
    let filename_lower := lower filename in
    match list_find (fun doc_type => contains (lower doc_type) filename_lower = true)
                    DOCUMENT_TYPES with
    | Some (_, doc_type) => Some doc_type
    | None => None
    end
  end.

Definition CUA_upper : str := u "CỦA".
Definition cua_lower : str := u "của".
Definition punctuation : str := u ".,;:".

(** The length window of an agency name. *)
Definition agency_ok (agency : str) : bool :=
  (length agency <=? 200)%nat && (3 <? length agency)%nat.

(** The clean-up applied to [match.group(0)] of a fixed pattern. *)
Definition clean_agency (whole : str) : str :=
  let agency := strip whole in
  let agency := rstrip_chars punctuation agency in
  strip (replace cua_lower [] (replace CUA_upper [] agency)).

(** The loop over [AGENCY_PATTERNS]: a match that fails the length window
    does not end the loop. *)
Fixpoint agency_loop (patterns : list regex) (preview : str) : option str :=
  match patterns with
  | [] => None
  | pattern :: rest =>
    match search true pattern preview with
    | Some mt =>
      let agency := clean_agency (m_whole mt) in
      if agency_ok agency then Some agency else agency_loop rest preview
    | None => agency_loop rest preview
    end
  end.

(** The capital letters of the class in [pattern_cua], after [A-Z]. *)
Definition cua_capitals : str :=
  u "ÀÁẠẢÃÂẦẤẬẨẪĂẰẮẶẲẴÈÉẸẺẼÊỀẾỆỂỄÌÍỊỈĨÒÓỌỎÕÔỒỐỘỔỖƠỜỚỢỞỠÙÚỤỦŨƯỪỨỰỬỮỲÝỴỶỸĐ".

Definition pattern_cua : regex :=
  cat [ Alt (lit CUA_upper) (lit cua_lower); plus sp;
        Grp (cat [ One (ASet false (IRange 65 90 :: map ILit cua_capitals));
                   plus (ASet true [ILit 44%N; ILit newline; ILit 46%N]) ]) ].

(** [MetadataExtractor._extract_issuing_agency]. *)
Definition _extract_issuing_agency (content content_lower : str) : option str :=
  let preview := take 1000 content in
  match agency_loop AGENCY_PATTERNS preview with
  | Some agency => Some agency
  | None =>
    match search true pattern_cua preview with
    | Some mt =>
      let agency := rstrip_chars punctuation (strip (nth 0 (m_groups mt) [])) in
      if agency_ok agency then Some agency else None
    | None => None
    end
  end.

Definition date_sep : atom := ASet false [ILit 47%N; ILit 45%N].
Definition ban_hanh_or_ngay : regex :=
  Alt (cat [lit (u "ban"); plus sp; lit (u "hành")]) (lit (u "ngày")).
Definition numeric_dmy : list regex :=
  [Grp (times dg 1 2); One date_sep; Grp (times dg 1 2); One date_sep; Grp (times dg 4 4)].
Definition verbose_dmy : list regex :=
  [Grp (times dg 1 2); plus sp; lit (u "tháng"); plus sp; Grp (times dg 1 2);
   plus sp; lit (u "năm"); plus sp; Grp (times dg 4 4)].

Definition priority_patterns : list regex :=
  [ cat (ban_hanh_or_ngay :: plus sp :: numeric_dmy);
    cat (ban_hanh_or_ngay :: plus sp :: verbose_dmy) ].

Definition date_patterns : list regex :=
  [ cat numeric_dmy;
    cat [Grp (times dg 4 4); One date_sep; Grp (times dg 1 2); One date_sep;
         Grp (times dg 1 2)];
    cat verbose_dmy;
    cat (lit (u "ngày") :: plus sp :: verbose_dmy) ].

(** [re.findall] for a pattern with several groups: the tuples of groups. *)
Definition findall_groups (ic : bool) (r : regex) (s : str) : list (list str) :=
  map m_groups (finditer ic r s).

(** [f"{day.zfill(2)}/{month.zfill(2)}/{year}"]. *)
Definition format_date (day month year : str) : str :=
  zfill 2 day ++ u "/" ++ zfill 2 month ++ u "/" ++ year.

(** The loop over [priority_patterns]: only a match whose third group has
    four characters returns. *)
Fixpoint priority_loop (patterns : list regex) (preview : str) : option str :=
  match patterns with
  | [] => None
  | pattern :: rest =>
    match findall_groups true pattern preview with
    | [g0; g1; g2] :: _ =>
      if (length g2 =? 4)%nat then Some (format_date g0 g1 g2)
      else priority_loop rest preview
    | _ => priority_loop rest preview
    end
  end.

(** The loop over [date_patterns]: the year is the third group when it has
    four characters and the first group otherwise. *)
Fixpoint date_loop (patterns : list regex) (preview : str) : option str :=
  match patterns with
  | [] => None
  | pattern :: rest =>
    match findall_groups true pattern preview with
    | [g0; g1; g2] :: _ =>
      if (length g2 =? 4)%nat then Some (format_date g0 g1 g2)
      else Some (format_date g2 g1 g0)
    | _ => date_loop rest preview
    end
  end.

(** [MetadataExtractor._extract_issue_date]. *)
Definition _extract_issue_date (content content_lower : str) : option str :=
  let preview := take 1500 content in
  match priority_loop priority_patterns preview with
  | Some d => Some d
  | None => date_loop date_patterns preview
  end.

(** [MetadataExtractor.extract_metadata]. *)
Definition extract_metadata (content filename : str) : metadata :=
  let content_lower := lower content in
  MetadataResult
    (_extract_document_type content content_lower filename)
    (_extract_issuing_agency content content_lower)
    (_extract_issue_date content content_lower).

End Metadata.

(** ** analyzer.py *)

Module Analyzer.
Import Re.

(** [DocumentAnalyzer.COMMON_TAGS]. *)
Definition COMMON_TAGS : list str :=
  [u "phap_ly"; u "dau_thau"; u "FS"; u "Pre-FS"; u "FEED"; u "PPP"; u "TOD";
   u "quy_hoach"; u "von_dau_tu"; u "thiet_ke"; u "xay_dung"; u "vận_hành";
   u "hop_dong"; u "nghị_định"; u "nghị_quyết"; u "thông_tư"; u "quyết_định";
   u "báo_cáo"; u "thuyết_minh"; u "kế_hoạch"; u "dự_án"].

(** Python list objects live in a heap; a dict entry holding a list holds
    its address, so two names for one list see each other's appends. *)
Abbreviation loc := nat (only parsing).
Abbreviation heap := (list (list str)) (only parsing).

Definition heap_get (h : heap) (l : loc) : list str := default [] (h !! l).
(** [lst.append(x)] on the list object at [l]. *)
Definition heap_append (l : loc) (x : str) (h : heap) : heap :=
  alter (fun v => v ++ [x]) l h.
(** A new list object. *)
Definition heap_alloc (v : list str) (h : heap) : loc * heap :=
  (length h, h ++ [v]).

(** The [classification] dict as [analyze] reads it: the keys it looks up
    may be absent, and ['matched_keywords'] refers to a list object. *)
Record cls_dict := ClsDict {
  d_main_group : option str;
  d_matched_keywords : option loc
}.

(** The dict built by [classify], whose ['matched_keywords'] entry is a list
    object of its own. *)
Definition store_classification (c : Classifier.classification) (h : heap)
    : cls_dict * heap :=
  let '(l, h') := heap_alloc (Classifier.matched_keywords c) h in
  (ClsDict (Some (Classifier.main_group c)) (Some l), h').

Record analysis := Analysis {
  executive_summary : str;
  keywords : list str;
  tags : list str;
  projects : list str;
  locations : list str;
  security_level : str;
  action_suggestions : list str
}.

(** The hosted completion call: system message and user message to the
    returned content, [None] when the call raises. *)
Definition completion : Type := str -> str -> option str.

Definition nl : str := [10%N].

Definition group_names : list (str * str) :=
  [ (u "metro", u "Metro/Đường sắt đô thị");
    (u "dau_thau", u "Đấu thầu/Khu giáo dục/TOD");
    (u "chung_cu", u "Chung cư");
    (u "nha_o_xa_hoi", u "Nhà ở xã hội");
    (u "khac", u "Khác") ].

(** [group_names.get(classification.get('main_group', 'khac'), 'Khác')]. *)
Definition group_name_of (classification : cls_dict) : str :=
  dict_get group_names (default Classifier.khac (d_main_group classification)) (u "Khác").

(** [f"Tài liệu thuộc nhóm: {group_name}. "]. *)
Definition summary_prefix (classification : cls_dict) : str :=
  u "Tài liệu thuộc nhóm: " ++ group_name_of classification ++ u ". ".

Definition summary_system_prompt : str :=
  u "Bạn là trợ lý AI chuyên tóm tắt tài liệu pháp lý, kỹ thuật, đầu tư của Việt Nam. "
  ++ u "Hãy đọc toàn bộ văn bản và tạo tóm tắt điều hành ngắn gọn 5-7 dòng, "
  ++ u "tập trung vào thông tin quan trọng nhất như: nội dung chính, mục đích, "
  ++ u "phạm vi áp dụng, quy định quan trọng. "
  ++ u "Trả lời bằng tiếng Việt, ngắn gọn và chính xác.".

Definition summary_user_prompt (group_name content : str) : str :=
  u "Tài liệu này được phân loại vào nhóm: " ++ group_name ++ u "." ++ nl ++ nl
  ++ u "Hãy đọc TOÀN BỘ văn bản sau và tạo tóm tắt điều hành (5-7 dòng):" ++ nl ++ nl
  ++ repeat 61%N 50 ++ nl ++ content ++ nl ++ repeat 61%N 50.

(** [create_executive_summary_with_openai]; [openai] is [None] when the
    library is missing, no API key is configured or the client cannot be
    built. *)
Definition create_executive_summary_with_openai (openai : option completion)
    (content : str) (classification : cls_dict) : option str :=
  match openai with
  | None => None
  | Some complete =>
    match complete summary_system_prompt
            (summary_user_prompt (group_name_of classification) content) with
    | Some response => Some (summary_prefix classification ++ strip response)
    | None => None
    end
  end.

(** The text of the deterministic summary, before the group prefix. *)
Definition summary_body (content : str) : str :=
  let paragraphs :=
    omap (fun p => if (50 <? length (strip p))%nat then Some (strip p) else None)
         (split_on 10%N content) in
  let paragraphs :=
    if paragraphs is [] then
      [if (500 <? length content)%nat then take 500 content else content]
    else paragraphs in
  let summary_text := join (u " ") (take 2 paragraphs) in
  if (400 <? length summary_text)%nat then take 400 summary_text ++ u "..."
  else summary_text.

(** [DocumentAnalyzer.create_executive_summary]. *)
Definition create_executive_summary (openai : option completion) (content : str)
    (classification : cls_dict) (use_openai : bool) : str :=
  let fallback := summary_prefix classification ++ summary_body content in
  if use_openai then
    match create_executive_summary_with_openai openai content classification with
    | Some openai_summary => if nonempty openai_summary then openai_summary else fallback
    | None => fallback
    end
  else fallback.

Definition not_space : atom := ASet true [ISpace].
(** The pattern [<w1>\s*<w2>\s*số\s*] followed by the group of [\d+] and
    any run of non-space characters, for the two words of a document kind. *)
Definition number_pattern (w1 w2 : str) : regex :=
  cat [lit w1; star sp; lit w2; star sp; lit (u "số"); star sp;
       Grp (cat [plus dg; star not_space])].
Definition pattern_nd : regex := number_pattern (u "nghị") (u "định").
Definition pattern_qd : regex := number_pattern (u "quyết") (u "định").
Definition pattern_tt : regex := number_pattern (u "thông") (u "tư").

(** [re.findall] for a pattern with one group: the group of every match. *)
Definition findall_group (ic : bool) (r : regex) (s : str) : list str :=
  map (fun mt => nth 0 (m_groups mt) []) (finditer ic r s).

(** [tag.replace('_', ' ') in content_lower or tag.replace('_', '') in content_lower]. *)
Definition tag_hit (content_lower tag : str) : bool :=
  contains (replace (u "_") (u " ") tag) content_lower
  || contains (replace (u "_") [] tag) content_lower.

(** The loop that appends the reference numbers to the list object
    [keywords]. *)
Definition append_numbers (content_lower : str) (keywords : loc) (h : heap) : heap :=
  fold_left
    (fun h pp =>
       fold_left (fun h mt => heap_append keywords (pp.2 ++ u " " ++ mt) h)
                 (take 2 (findall_group true pp.1 content_lower)) h)
    [(pattern_nd, u "ND"); (pattern_qd, u "QD"); (pattern_tt, u "TT")] h.

(** [DocumentAnalyzer.extract_keywords_and_tags]: [keywords] is the list
    object found in the dict, or a new one when the key is absent; the
    returned keyword list is a new list. *)
Definition extract_keywords_and_tags (content : str) (classification : cls_dict)
    (h : heap) : (list str * list str) * heap :=
  let content_lower := lower content in
  let '(keywords, h) :=
    match d_matched_keywords classification with
    | Some l => (l, h)
    | None => heap_alloc [] h
    end in
  let tags := filter (fun tag => tag_hit content_lower tag = true) COMMON_TAGS in
  let main_group := default [] (d_main_group classification) in
  let tags := if nonempty main_group then tags ++ [main_group] else tags in
  let h := append_numbers content_lower keywords h in
  ((take 10 (dedup (heap_get h keywords)), dedup tags), h).

Definition common_locations : list str :=
  [u "Hà Nội"; u "TP.HCM"; u "TP Hồ Chí Minh"; u "Bình Dương"; u "Đồng Nai";
   u "Long An"; u "Cần Thơ"; u "Đà Nẵng"; u "Hải Phòng"].
Definition common_projects : list str :=
  [u "Tuyến 1"; u "Tuyến 2"; u "Tuyến 3"; u "Metro Line"; u "TOD";
   u "Suối Cây Sao"; u "Đường Thống Nhất"; u "TOD4"].

Definition pattern_project : regex :=
  cat [ Grp (Alt (cat [lit (u "dự"); star sp; lit (u "án")])
                 (Alt (lit (u "tuyến")) (cat [lit (u "metro"); star sp; lit (u "line")])));
        plus sp;
        plus (ASet false [IRange 65 90; IRange 48 57; ISpace]) ].

(** [DocumentAnalyzer.identify_projects_locations]. *)
Definition identify_projects_locations (content : str) : list str * list str :=
  let locations := filter (fun loc => contains loc content = true) common_locations in
  let projects := filter (fun proj => contains proj content = true) common_projects in
  let project_matches := findall_group true pattern_project content in
  let projects := projects ++ map strip (take 3 project_matches) in
  (dedup projects, dedup locations).

Definition sensitive_keywords : list str :=
  [u "mật"; u "bảo mật"; u "bí mật"; u "nội bộ"; u "không công bố";
   u "confidential"; u "internal"; u "secret"].
Definition public_keywords : list str :=
  [u "công khai"; u "phổ biến"; u "thông báo"; u "công bố"].

Definition nhay_cam : str := u "nhay_cam".
Definition noi_bo : str := u "noi_bo".
Definition cong_khai : str := u "cong_khai".

(** [for x in l: if cond(x): return v] followed by [rest]. *)
Fixpoint for_return {A B : Type} (l : list A) (cond : A -> bool) (v rest : B) : B :=
  match l with
  | [] => rest
  | x :: l' => if cond x then v else for_return l' cond v rest
  end.

(** [DocumentAnalyzer.assess_security_level]. *)
Definition assess_security_level (content filename : str) : str :=
  let content_lower := lower content in
  let filename_lower := lower filename in
  for_return sensitive_keywords
    (fun keyword => contains keyword content_lower || contains keyword filename_lower)
    nhay_cam
    (if contains (u "nội bộ") content_lower || contains (u "dự thảo") content_lower
     then noi_bo
     else for_return public_keywords (fun keyword => contains keyword content_lower)
            cong_khai noi_bo).

Definition group_actions : list (str * list str) :=
  [ (u "metro",
     [u "Chuyển cho phòng kỹ thuật Metro";
      u "Kiểm tra tính đồng bộ với các tuyến khác";
      u "Xem xét yêu cầu FS/Pre-FS/FEED"]);
    (u "dau_thau",
     [u "Chuyển cho phòng đấu thầu";
      u "Kiểm tra hồ sơ pháp lý dự án";
      u "Xem xét tiến độ đấu thầu"]);
    (u "chung_cu",
     [u "Chuyển cho phòng kinh doanh";
      u "Kiểm tra pháp lý dự án";
      u "Xem xét hồ sơ bán hàng"]);
    (u "nha_o_xa_hoi",
     [u "Chuyển cho phòng an sinh xã hội";
      u "Kiểm tra chính sách ưu đãi";
      u "Xem xét quy trình phê duyệt"]) ].

(** [DocumentAnalyzer.suggest_actions]. *)
Definition suggest_actions (classification : cls_dict) (keywords : list str) : list str :=
  let main_group := default [] (d_main_group classification) in
  let suggestions := dict_get group_actions main_group [] in
  let keyword_lower := map lower keywords in
  let any_has (w1 w2 : str) :=
    existsb (fun k => contains w1 k || contains w2 k) keyword_lower in
  let suggestions :=
    if any_has (u "fs") (u "feed")
    then suggestions ++ [u "Kiểm tra đầy đủ hồ sơ FS/FEED"] else suggestions in
  let suggestions :=
    if any_has (u "phap_ly") (u "pháp lý")
    then suggestions ++ [u "Rà soát tính pháp lý của tài liệu"] else suggestions in
  let suggestions :=
    if any_has (u "dau_thau") (u "đấu thầu")
    then suggestions ++ [u "Cập nhật tiến độ đấu thầu"] else suggestions in
  take 5 (dedup suggestions).

(** [DocumentAnalyzer.analyze]: the result and the heap after the call. *)
Definition analyze (openai : option completion) (content filename : str)
    (classification : cls_dict) (use_openai : bool) (h : heap) : analysis * heap :=
  let summary := create_executive_summary openai content classification use_openai in
  let '((keywords, tags), h) := extract_keywords_and_tags content classification h in
  let '(projects, locations) := identify_projects_locations content in
  let security_level := assess_security_level content filename in
  let action_suggestions := suggest_actions classification keywords in
  (Analysis summary keywords tags projects locations security_level action_suggestions, h).

End Analyzer.

(** ** qa_system.py *)

Module QA.
Import Analyzer (completion).

(** A row of [get_documents_by_category] / [get_all_documents]. *)
Record db_row := DbRow {
  row_id : Z;
  row_filename : str;
  row_category : str;
  row_document_type : option str;
  row_issuing_agency : option str;
  row_issue_date : option str
}.

(** The document store as [QASystem] uses it.  A call that raises returns
    [None]; [get_document] returns the ['content_text'] of the row, [Some None]
    when there is no row or no text. *)
Record DocumentDB := {
  get_documents_by_category : str -> option (list db_row);
  get_all_documents : option (list db_row);
  get_document : Z -> option (option str)
}.

Record document := Document {
  doc_id : Z;
  doc_filename : str;
  doc_content : str;
  doc_category : str;
  doc_document_type : option str;
  doc_issuing_agency : option str;
  doc_issue_date : option str
}.

(** Truthiness of an optional string ([None] and [''] are false). *)
Definition truthy (o : option str) : option str :=
  match o with
  | Some s => if nonempty s then Some s else None
  | None => None
  end.

(** The loop over the rows: an exception leaves the loop and keeps the
    documents collected so far. *)
Fixpoint collect_documents (db : DocumentDB) (docs : list db_row) : list document :=
  match docs with
  | [] => []
  | doc :: rest =>
    match get_document db (row_id doc) with
    | None => []
    | Some full_doc =>
      match truthy full_doc with
      | Some content_text =>
        Document (row_id doc) (row_filename doc) content_text (row_category doc)
          (row_document_type doc) (row_issuing_agency doc) (row_issue_date doc)
          :: collect_documents db rest
      | None => collect_documents db rest
      end
    end
  end.

(** [QASystem.get_documents_by_group]. *)
Definition get_documents_by_group (db : option DocumentDB) (category : option str)
    : list document :=
  match db with
  | None => []
  | Some d =>
    let listing :=
      match truthy category with
      | Some c => get_documents_by_category d c
      | None => get_all_documents d
      end in
    match listing with
    | Some docs => collect_documents d docs
    | None => []
    end
  end.

Record result_item := ResultItem {
  r_filename : str;
  r_id : Z;
  r_category : str;
  relevant_text : list str;
  match_score : Z;
  full_content : str;
  r_document_type : option str;
  r_issuing_agency : option str;
  r_issue_date : option str
}.

(** [l[:n]] for a Python int [n]: a negative bound counts from the end. *)
Definition slice_to {A : Type} (n : Z) (l : list A) : list A :=
  if 0 <=? n then take (Z.to_nat n) l
  else take (length l - Z.to_nat (- n)) l.

(** [sum(1 for keyword in question_keywords if keyword in content_lower)]. *)
Definition count_matches (question_keywords : list str) (content_lower : str) : Z :=
  Z.of_nat (length (filter (fun keyword => contains keyword content_lower = true)
                           question_keywords)).

(** The paragraphs of one document kept by the inner loop. *)
Definition relevant_paragraphs (question_keywords : list str) (content : str) : list str :=
  omap (fun para =>
          if existsb (fun keyword => contains keyword (lower para)) question_keywords
             && (20 <? length (strip para))%nat
          then Some (strip para) else None)
       (split_on 10%N content).

(** The body of the loop over [documents[:max_docs]]. *)
Definition search_one (question_keywords : list str) (doc : document) : option result_item :=
  let content_lower := lower (doc_content doc) in
  let matches := count_matches question_keywords content_lower in
  if 0 <? matches then
    match relevant_paragraphs question_keywords (doc_content doc) with
    | [] => None
    | paras =>
      Some (ResultItem (doc_filename doc) (doc_id doc) (doc_category doc)
              (take 3 paras) matches (doc_content doc)
              (truthy (doc_document_type doc)) (truthy (doc_issuing_agency doc))
              (truthy (doc_issue_date doc)))
    end
  else None.

(** [results.sort(key=lambda x: x['match_score'], reverse=True)]: stable. *)
Fixpoint insert_by_score (x : result_item) (l : list result_item) : list result_item :=
  match l with
  | [] => [x]
  | y :: l' => if match_score x <? match_score y then y :: insert_by_score x l' else x :: l
  end.
Definition sort_by_score (l : list result_item) : list result_item :=
  foldr insert_by_score [] l.

(** The search over a listing already fetched. *)
Definition search_in (documents : list document) (question : str) (max_docs : Z)
    : list result_item :=
  if documents is [] then []
  else
    let question_lower := lower question in
    let question_keywords := split_ws question_lower in
    sort_by_score (omap (search_one question_keywords) (slice_to max_docs documents)).

(** [QASystem.search_documents]. *)
Definition search_documents (db : option DocumentDB) (question : str)
    (category : option str) (max_docs : Z) : list result_item :=
  search_in (get_documents_by_group db category) question max_docs.

Definition max_context_length : nat := Z.to_nat 10000.

Definition nl : str := [10%N].

(** [f"\n\n=== {doc['filename']} ===\n{content}"]. *)
Definition context_part (filename content : str) : str :=
  nl ++ nl ++ u "=== " ++ filename ++ u " ===" ++ nl ++ content.

(** The loop that fills [context_parts], with its [break]. *)
Fixpoint context_parts (docs : list result_item) (total_length : nat) : list str :=
  match docs with
  | [] => []
  | doc :: rest =>
    let content := full_content doc in
    if (max_context_length <? total_length + length content)%nat then
      let remaining := (max_context_length - total_length)%nat in
      [context_part (r_filename doc) (take remaining content)]
    else
      context_part (r_filename doc) content
        :: context_parts rest (total_length + length content)
  end.

Definition answer_system_prompt : str :=
  u "Bạn là trợ lý AI chuyên về tài liệu pháp lý, kỹ thuật, đầu tư của Việt Nam. "
  ++ u "Hãy trả lời câu hỏi dựa trên nội dung tài liệu được cung cấp. "
  ++ u "Nếu thông tin không có trong tài liệu, hãy nêu rõ 'Tài liệu hiện có chưa cung cấp thông tin này'. "
  ++ u "Trả lời bằng tiếng Việt, ngắn gọn, chính xác.".

Definition answer_user_prompt (question context : str) : str :=
  u "Dựa trên các tài liệu sau, hãy trả lời câu hỏi:" ++ nl ++ nl
  ++ u "TÀI LIỆU:" ++ nl ++ context ++ nl ++ nl
  ++ u "CÂU HỎI: " ++ question ++ nl ++ nl
  ++ u "Hãy trả lời dựa trên nội dung tài liệu trên.".

(** [QASystem._answer_with_openai]; [client] is [None] when no client was
    initialised. *)
Definition _answer_with_openai (client : option completion) (question : str)
    (context_docs : list result_item) : option str :=
  match client with
  | None => None
  | Some complete =>
    if context_docs is [] then None
    else
      let context := join nl (context_parts (take 3 context_docs) 0) in
      match complete answer_system_prompt (answer_user_prompt question context) with
      | Some response => Some (strip response)
      | None => None
      end
  end.

Record source_info := SourceInfo {
  s_filename : str;
  s_id : option Z;
  s_document_type : option str;
  s_issuing_agency : option str
}.

Record qa_result := QAResult {
  answer : str;
  sources : list source_info;
  confidence : str;
  method : str
}.

(** [if r.get('id')]: the id [0] is false. *)
Definition truthy_id (id : Z) : option Z := if id =? 0 then None else Some id.

(** The source entry of the model-assisted answer. *)
Definition source_openai (r : result_item) : source_info :=
  SourceInfo (r_filename r) (truthy_id (r_id r)) (truthy (r_document_type r))
    (truthy (r_issuing_agency r)).
(** The source entry of the fallback answer. *)
Definition source_simple (r : result_item) : source_info :=
  SourceInfo (r_filename r) (truthy_id (r_id r)) (truthy (r_document_type r)) None.

(** The nested loops that fill [answer_parts]. *)
Definition answer_parts (results : list result_item) : list str :=
  fold_left
    (fun parts result =>
       fold_left (fun parts text =>
                    if bool_decide (text ∈ parts) then parts else parts ++ [text])
                 (relevant_text result) parts)
    results [].

Definition no_information : str := u "Tài liệu hiện có chưa cung cấp thông tin này.".
Definition low : str := u "low".
Definition medium : str := u "medium".
Definition high : str := u "high".
Definition simple : str := u "simple".
Definition openai : str := u "openai".

(** The fallback answer built from the relevant paragraphs. *)
Definition fallback_answer (results : list result_item) : qa_result :=
  QAResult (join (nl ++ nl) (take 3 (answer_parts (take 3 results))))
    (map source_simple (take 3 results))
    (if (2 <=? length results)%nat then high else medium)
    simple.

(** [QASystem.answer_question]. *)
Definition answer_question (db : option DocumentDB) (client : option completion)
    (question : str) (category : option str) (use_openai : bool) : qa_result :=
  let results := search_documents db question category 5 in
  if results is [] then QAResult no_information [] low simple
  else
    if use_openai && bool_decide (is_Some client) then
      match _answer_with_openai client question results with
      | Some openai_answer =>
        if nonempty openai_answer
        then QAResult openai_answer (map source_openai (take 3 results)) high openai
        else fallback_answer results
      | None => fallback_answer results
      end
    else fallback_answer results.

End QA.

(** ** database.py *)

Module Database.

(** What the column [issue_date] holds.  The column is declared [DATE],
    which gives it numeric affinity: a text that SQLite reads as an integer
    or real literal is stored, and read back, as that number, and any other
    text is stored as it is.  [DateNumber literal] is the number that
    [literal] denotes. *)
Inductive date_value :=
| DateText (text : str)
| DateNumber (literal : str).

(** A row of the table [documents]; the columns that may be NULL are
    options.  [file_data] is a byte string, timestamps are numbers. *)
Record row := Row {
  id : Z;
  filename : str;
  file_type : str;
  file_size : Z;
  file_data : list N;
  category : str;
  document_type : option str;
  issuing_agency : option str;
  issue_date : option date_value;
  content_text : option str;
  classification_result : option str;
  analysis_result : option str;
  created_at : Z;
  updated_at : Z
}.

(** The table, in insertion order, with the counter SQLite keeps for an
    [INTEGER PRIMARY KEY AUTOINCREMENT] column: the largest id given so
    far.  The SQL statements are taken to succeed. *)
Record table := Table {
  rows : list row;
  sequence : Z
}.

(** [init_database]: the table is created empty when it does not exist. *)
Definition empty : table := Table [] 0.
Definition init_database (file : option table) : table := default empty file.

(** The id of the next inserted row: one more than the largest id that
    has ever been in the table. *)
Definition next_id (t : table) : Z :=
  Z.max (sequence t) (foldr Z.max 0 (map id (rows t))) + 1.

(** The conversion of [issue_date] in [save_document]. *)
Definition formatted_date (issue_date : option str) : option str :=
  match QA.truthy issue_date with
  | Some d =>
    if contains (u "/") d then
      let parts := split_on 47%N d in
      if (length parts =? 3)%nat
      then Some (nth 2 parts [] ++ u "-" ++ nth 1 parts [] ++ u "-" ++ nth 0 parts [])
      else Some (replace (u "/") (u "-") d)
    else Some d
  | None => None
  end.

Section SaveDocument.
(** The dicts given for the two results, with [json.dumps] and the
    truth value of a dict; and the test of SQLite for a text that is a
    well-formed integer or real literal. *)
Context {Dict : Type} (dumps : Dict -> str) (not_empty : Dict -> bool)
        (numeric : str -> bool).

(** The value that a text bound to the column [issue_date] is stored as. *)
Definition store_date (d : str) : date_value :=
  if numeric d then DateNumber d else DateText d.

(** [json.dumps(x, ensure_ascii=False) if x else None]. *)
Definition to_json (x : option Dict) : option str :=
  match x with
  | Some d => if not_empty d then Some (dumps d) else None
  | None => None
  end.

(** [DocumentDB.save_document]: the id of the new row and the table after
    the insertion; [now1] and [now2] are the two readings of the clock. *)
Definition save_document (t : table) (filename : str) (file_data : list N)
    (file_type category : str)
    (document_type issuing_agency issue_date content_text : option str)
    (classification_result analysis_result : option Dict) (now1 now2 : Z)
    : Z * table :=
  let doc_id := next_id t in
  (doc_id,
   Table (rows t ++
            [Row doc_id filename file_type (Z.of_nat (length file_data)) file_data
               category document_type issuing_agency
               (store_date <$> formatted_date issue_date)
               content_text (to_json classification_result)
               (to_json analysis_result) now1 now2])
         doc_id).
End SaveDocument.

(** [DocumentDB.get_document]: the row with this id, if any. *)
Definition get_document (t : table) (doc_id : Z) : option row :=
  head (filter (fun r => id r = doc_id) (rows t)).

(** [DocumentDB.delete_document]: whether a row was deleted, and the table
    after the deletion. *)
Definition delete_document (t : table) (doc_id : Z) : bool * table :=
  let deleted := filter (fun r => id r = doc_id) (rows t) in
  ((0 <? length deleted)%nat,
   Table (filter (fun r => id r <> doc_id) (rows t)) (sequence t)).

Record statistics := Statistics {
  total_documents : Z;
  by_category : gmap (list N) Z;
  total_size : Z
}.

(** [SELECT category, COUNT( * ) ... GROUP BY category] as a dict. *)
Definition count_by_category (l : list row) : gmap (list N) Z :=
  foldr (fun r m => <[category r := default 0 (m !! category r) + 1]> m) ∅ l.

(** [DocumentDB.get_statistics]; the sum over no row is NULL, read as 0. *)
Definition get_statistics (t : table) : statistics :=
  Statistics (Z.of_nat (length (rows t)))
             (count_by_category (rows t))
             (foldr (fun r n => file_size r + n) 0 (rows t)).

End Database.

(** ** config.py *)

Module Config.

(** What [get_api_key] can read: the key of the Streamlit session (absent
    without Streamlit or without the entry), the environment variable, and
    the key of the configuration file (absent when the file is missing or
    cannot be read, or holds no string under the key). *)
Record sources := Sources {
  session_key : option str;
  env_key : option str;
  file_key : option str
}.

(** [Config.get_api_key]. *)
Definition get_api_key (s : sources) : option str :=
  let from_session :=
    match session_key s with
    | Some api_key =>
      if nonempty api_key && nonempty (strip api_key) then Some (strip api_key)
      else None
    | None => None
    end in
  match from_session with
  | Some k => Some k
  | None =>
    match QA.truthy (env_key s) with
    | Some api_key => Some (strip api_key)
    | None =>
      match QA.truthy (file_key s) with
      | Some api_key => Some (strip api_key)
      | None => None
      end
    end
  end.

End Config.

(** * Properties *)

(** ** Strings *)

Section StrFacts.

Lemma starts_with_app (w t : list N) : starts_with w (w ++ t) = true.
Proof. induction w as [|a w IH]; simpl; [done|]. by rewrite N.eqb_refl. Qed.

Lemma starts_with_true (w s : list N) :
  starts_with w s = true <-> exists t, s = w ++ t.
Proof.
  split.
  - revert s. induction w as [|a w IH]; intros s H; simpl in *; [by exists s|].
    destruct s as [|b s]; [done|].
    apply andb_true_iff in H as [Hab Hw]. apply N.eqb_eq in Hab as ->.
    destruct (IH _ Hw) as [t ->]. by exists t.
  - intros [t ->]. apply starts_with_app.
Qed.

Lemma contains_true (w s : list N) :
  contains w s = true <-> exists a b, s = a ++ w ++ b.
Proof.
  split.
  - induction s as [|c s IH]; simpl; intros H.
    + rewrite orb_false_r in H. apply starts_with_true in H as [t Ht].
      by exists [], t.
    + apply orb_true_iff in H as [H|H].
      * apply starts_with_true in H as [t Ht]. by exists [], t.
      * destruct (IH H) as (a & b & ->). by exists (c :: a), b.
  - intros (a & b & ->). induction a as [|c a IH]; simpl.
    + pose proof (starts_with_app w b) as Hw.
      destruct (w ++ b); simpl; by rewrite Hw.
    + rewrite IH. apply orb_true_r.
Qed.

Lemma lower_app (a b : list N) : lower (a ++ b) = lower a ++ lower b.
Proof. apply map_app. Qed.

Lemma length_lower (s : list N) : length (lower s) = length s.
Proof. apply length_map. Qed.

End StrFacts.

(** ** Security level and executive summary (analyzer.py) *)

Section AnalyzerFacts.
Import Analyzer.

(** [w] occurs in [s] when case is ignored. *)
Definition occurs_ci (w s : list N) : Prop := contains (lower w) (lower s) = true.

Lemma for_return_existsb {A B : Type} (l : list A) (cond : A -> bool) (v rest : B) :
  for_return l cond v rest = if existsb cond l then v else rest.
Proof.
  induction l as [|x l IH]; simpl; [done|].
  destruct (cond x); simpl; [done|apply IH].
Qed.

Lemma existsb_elem_of {A : Type} (f : A -> bool) (l : list A) :
  existsb f l = true <-> exists x, x ∈ l /\ f x = true.
Proof.
  rewrite existsb_exists. setoid_rewrite list_elem_of_In. done.
Qed.

Lemma sensitive_keywords_lower : Forall (fun kw => lower kw = kw) sensitive_keywords.
Proof. repeat constructor. Qed.

Lemma public_keywords_lower : Forall (fun kw => lower kw = kw) public_keywords.
Proof. repeat constructor. Qed.

(** C7: the order of the checks of [assess_security_level].  A sensitive
    keyword in the text or in the file name gives 'nhay_cam' whatever else
    the text holds; without one, the words 'nội bộ' or 'dự thảo' in the text
    give 'noi_bo'; without these, a public keyword in the text gives
    'cong_khai'; and 'noi_bo' is the default. *)
Theorem security_level_order (content filename : list N) :
  let level := assess_security_level content filename in
  let sensitive := exists kw, kw ∈ sensitive_keywords /\
                     (occurs_ci kw content \/ occurs_ci kw filename) in
  let marked := occurs_ci (u "nội bộ") content \/ occurs_ci (u "dự thảo") content in
  let public := exists kw, kw ∈ public_keywords /\ occurs_ci kw content in
  (sensitive -> level = nhay_cam) /\
  (~ sensitive -> marked -> level = noi_bo) /\
  (~ sensitive -> ~ marked -> public -> level = cong_khai) /\
  (~ sensitive -> ~ marked -> ~ public -> level = noi_bo).
Proof.
  intros level sensitive marked public.
  assert (Hs : existsb (fun keyword => contains keyword (lower content)
                          || contains keyword (lower filename)) sensitive_keywords = true
               <-> sensitive).
  { rewrite existsb_elem_of. unfold sensitive, occurs_ci. split.
    - intros (kw & Hin & H). exists kw. split; [done|].
      pose proof sensitive_keywords_lower as Hl.
      rewrite Forall_forall in Hl. rewrite (Hl kw Hin).
      by apply orb_true_iff in H.
    - intros (kw & Hin & H). exists kw. split; [done|].
      pose proof sensitive_keywords_lower as Hl.
      rewrite Forall_forall in Hl. rewrite (Hl kw Hin) in H.
      by apply orb_true_iff. }
  assert (Hm : contains (u "nội bộ") (lower content)
               || contains (u "dự thảo") (lower content) = true <-> marked).
  { unfold marked, occurs_ci. by rewrite orb_true_iff. }
  assert (Hp : existsb (fun keyword => contains keyword (lower content))
                 public_keywords = true <-> public).
  { rewrite existsb_elem_of. unfold public, occurs_ci.
    pose proof public_keywords_lower as Hl. rewrite Forall_forall in Hl.
    split; intros (kw & Hin & H); exists kw; (split; [done|]).
    - by rewrite (Hl kw Hin).
    - by rewrite (Hl kw Hin) in H. }
  unfold level, assess_security_level. rewrite !for_return_existsb.
  destruct (existsb _ sensitive_keywords) eqn:Es.
  { repeat split; try done; intros Hn; exfalso; apply Hn, Hs; done. }
  assert (Hns : ~ sensitive) by (rewrite <- Hs; done).
  destruct (contains (u "nội bộ") (lower content)
            || contains (u "dự thảo") (lower content)) eqn:Em.
  { repeat split; try done; intros; exfalso; tauto. }
  assert (Hnm : ~ marked) by (rewrite <- Hm; done).
  destruct (existsb _ public_keywords) eqn:Ep.
  { repeat split; try done; intros; exfalso; tauto. }
  assert (Hnp : ~ public) by (rewrite <- Hp; done).
  repeat split; try done; intros; exfalso; tauto.
Qed.

(** A file name alone can make a document sensitive, and the sensitive
    check wins over a public keyword in the text. *)
Lemma security_level_order_witness :
  assess_security_level (u "Thông báo công khai") (u "BAO_CAO_SECRET.pdf") = nhay_cam.
Proof.
  apply (proj1 (security_level_order (u "Thông báo công khai") (u "BAO_CAO_SECRET.pdf"))).
  exists (u "secret"). split; [|right; vm_compute; reflexivity].
  apply list_elem_of_In. vm_compute. tauto.
Defined.

Lemma dict_get_in {V : Type} (d : list (list N * V)) (key : list N) (dflt : V) :
  dict_get d key dflt = dflt \/ dict_get d key dflt ∈ d.*2.
Proof.
  induction d as [|[k v] d IH]; simpl; [by left|].
  case_bool_decide.
  - right. left.
  - destruct IH as [->|IH]; [by left|]. right. by right.
Qed.

Lemma group_name_known (classification : cls_dict) :
  group_name_of classification ∈ group_names.*2.
Proof.
  unfold group_name_of.
  destruct (dict_get_in group_names
              (default Classifier.khac (d_main_group classification)) (u "Khác"))
    as [->|H]; [|done].
  apply list_elem_of_In. vm_compute. tauto.
Qed.

(** A summary text cut to 400 characters. *)
Definition cut400 (t : list N) : list N :=
  if (400 <? length t)%nat then take 400 t ++ u "..." else t.

Lemma summary_body_cut (content : list N) :
  exists t, summary_body content = cut400 t.
Proof. unfold summary_body. eexists. reflexivity. Qed.

Lemma omap_nil_forall {A B : Type} (f : A -> option B) (l : list A) :
  (forall x, x ∈ l -> f x = None) -> omap f l = [].
Proof.
  induction l as [|x l IH]; intros H; simpl; [done|].
  rewrite (H x) by left. apply IH. intros y Hy. apply H. by right.
Qed.

Lemma summary_body_short_lines (content : list N) :
  (forall p, p ∈ split_on 10%N content -> (length (strip p) <= 50)%nat) ->
  summary_body content = cut400 (take 500 content).
Proof.
  intros H. unfold summary_body. rewrite omap_nil_forall.
  - simpl. destruct (500 <? length content)%nat eqn:E; [done|].
    apply Nat.ltb_ge in E. by rewrite (take_ge content 500) by lia.
  - intros p Hp. specialize (H p Hp).
    destruct (50 <? length (strip p))%nat eqn:E; [|done].
    apply Nat.ltb_lt in E. lia.
Qed.

(** C10: the deterministic executive summary is the group prefix (with one
    of the five fixed group names) followed by a body that is either at most
    400 characters long or 400 characters followed by "..."; when no line of
    the content has more than 50 characters once stripped (in particular for
    the empty content), the body is cut from the first 500 characters of the
    content. *)
Theorem executive_summary_deterministic (openai : option completion)
    (content : list N) (classification : cls_dict) (use_openai : bool) :
  use_openai = false \/
    create_executive_summary_with_openai openai content classification = None ->
  let body := summary_body content in
  create_executive_summary openai content classification use_openai
    = u "Tài liệu thuộc nhóm: " ++ group_name_of classification ++ u ". " ++ body /\
  group_name_of classification ∈ group_names.*2 /\
  ((length body <= 400)%nat \/
   exists t, (400 < length t)%nat /\ body = take 400 t ++ u "...") /\
  ((forall p, p ∈ split_on 10%N content -> (length (strip p) <= 50)%nat) ->
   body = cut400 (take 500 content)).
Proof.
  intros Hdet body. repeat split.
  - unfold create_executive_summary.
    assert (Hp : summary_prefix classification ++ summary_body content
                 = u "Tài liệu thuộc nhóm: " ++ group_name_of classification
                     ++ u ". " ++ body).
    { unfold summary_prefix. by rewrite <- !app_assoc. }
    destruct Hdet as [->| ->]; [done|]. by destruct use_openai.
  - apply group_name_known.
  - destruct (summary_body_cut content) as [t Ht]. unfold body. rewrite Ht.
    unfold cut400. destruct (400 <? length t)%nat eqn:E.
    + right. exists t. apply Nat.ltb_lt in E. done.
    + left. apply Nat.ltb_ge in E. done.
  - apply summary_body_short_lines.
Qed.

(** The empty content: the summary is the bare prefix of the group. *)
Lemma executive_summary_deterministic_witness :
  create_executive_summary None [] (ClsDict (Some (u "metro")) None) true
    = u "Tài liệu thuộc nhóm: Metro/Đường sắt đô thị. " /\
  summary_body [] = cut400 (take 500 []).
Proof.
  pose proof (executive_summary_deterministic None []
                (ClsDict (Some (u "metro")) None) true (or_intror eq_refl)) as H.
  cbv zeta in H. destruct H as (H1 & _ & _ & H4). split.
  - rewrite H1. vm_compute. reflexivity.
  - apply H4. intros p Hp. apply list_elem_of_In in Hp. simpl in Hp.
    destruct Hp as [<-|[]]. vm_compute. lia.
Defined.

End AnalyzerFacts.

(** ** Answer composition (qa_system.py) *)

Section AnswerFacts.
Import QA.

(** The hosted call was made for these results and returned the non-empty
    (stripped) answer [a]. *)
Definition model_answered (client : option Analyzer.completion) (question : list N)
    (results : list result_item) (a : list N) : Prop :=
  exists complete response,
    client = Some complete /\ results <> [] /\
    complete answer_system_prompt
      (answer_user_prompt question (join nl (context_parts (take 3 results) 0)))
      = Some response /\
    a = strip response /\ a <> [].

Lemma answer_with_openai_some (client : option Analyzer.completion)
    (question : list N) (results : list result_item) (a : list N) :
  _answer_with_openai client question results = Some a /\ a <> []
  <-> model_answered client question results a.
Proof.
  unfold _answer_with_openai, model_answered. split.
  - intros [H Ha]. destruct client as [complete|]; [|done].
    destruct results as [|r results]; [done|].
    destruct (complete _ _) as [response|] eqn:E; [|done].
    exists complete, response. repeat split; try done. congruence.
  - intros (complete & response & -> & Hr & Hc & -> & Ha).
    destruct results as [|r results]; [done|]. by rewrite Hc.
Qed.

Lemma nonempty_true (s : list N) : nonempty s = true <-> s <> [].
Proof. by destruct s. Qed.

Lemma method_names_differ : openai <> simple.
Proof. by vm_compute. Qed.

(** A field of a result that is kept in a source: present and not empty. *)
Definition kept (field : option (list N)) : option (list N) :=
  match field with
  | Some (c :: t) => Some (c :: t)
  | _ => None
  end.

Lemma truthy_kept (field : option (list N)) : truthy field = kept field.
Proof. by destruct field as [[|c t]|]. Qed.

(** The sources built by one function from the first three results. *)
Lemma sources_of_results (f : result_item -> source_info) (results : list result_item) :
  length (map f (take 3 results)) = (3 `min` length results)%nat /\
  forall (i : nat) s, map f (take 3 results) !! i = Some s ->
    (i < 3)%nat /\ exists r, results !! i = Some r /\ s = f r.
Proof.
  split; [by rewrite length_map, length_take|].
  intros i s Hs. rewrite list_lookup_fmap in Hs.
  destruct (take 3 results !! i) as [r|] eqn:Er; [|done]. injection Hs as <-.
  pose proof (lookup_lt_Some _ _ _ Er) as Hi. rewrite length_take in Hi.
  split; [lia|]. exists r. split; [|done]. by rewrite lookup_take_lt in Er by lia.
Qed.

(** C4: [answer_question] answers with method 'openai' exactly when the
    model was requested, a client is configured and its call returned a
    non-empty answer; otherwise the method is 'simple': with no search result
    the fixed answer with confidence 'low' and no sources (whatever
    [use_openai] and the client are), and with results the fallback answer,
    whose confidence is 'high' for two results or more and 'medium' for one,
    and whose sources are those of the first three results.  In both
    methods there is one source for each of the first three results, in
    their order, with the file name of the result, its id unless it is 0,
    and its document type when it has one; the issuing agency is given only
    with the method 'openai'. *)
Theorem answer_question_method (db : option DocumentDB)
    (client : option Analyzer.completion) (question : list N)
    (category : option (list N)) (use_openai : bool) :
  let results := search_documents db question category 5 in
  let res := answer_question db client question category use_openai in
  let assisted := use_openai = true /\
                  exists a, model_answered client question results a in
  (method res = openai <-> assisted) /\
  (forall a, use_openai = true -> model_answered client question results a ->
     res = QAResult a (map source_openai (take 3 results)) high openai) /\
  (~ assisted -> method res = simple) /\
  (results = [] -> res = QAResult no_information [] low simple) /\
  (~ assisted -> results <> [] ->
     confidence res = (if (2 <=? length results)%nat then high else medium) /\
     sources res = map source_simple (take 3 results)) /\
  (results <> [] ->
     length (sources res) = (3 `min` length results)%nat /\
     forall (i : nat) s, sources res !! i = Some s ->
       (i < 3)%nat /\
       exists r, results !! i = Some r /\
         s_filename s = r_filename r /\
         s_id s = (if bool_decide (r_id r = 0) then None else Some (r_id r)) /\
         s_document_type s = kept (r_document_type r) /\
         (method res = openai -> s_issuing_agency s = kept (r_issuing_agency r)) /\
         (method res = simple -> s_issuing_agency s = None)).
Proof.
  intros results res assisted.
  set (A := assisted). unfold assisted in A.
  assert (Hcase :
    ((use_openai = true /\ exists a, model_answered client question results a) /\
     exists a, model_answered client question results a /\
       res = QAResult a (map source_openai (take 3 results)) high openai) \/
    (~ (use_openai = true /\ exists a, model_answered client question results a) /\
       res = if results is [] then QAResult no_information [] low simple
             else fallback_answer results)).
  { unfold res, answer_question. fold results.
    destruct results as [|r0 rs] eqn:Er.
    { right. split; [|done]. intros [_ (a & c & rp & _ & Hne & _)]. done. }
    rewrite <- Er.
    destruct use_openai; simpl.
    2:{ right. split; [intros [Hf _]; discriminate Hf|]. first [done | rewrite Er; done]. }
    destruct client as [complete|] eqn:Ec.
    2:{ rewrite bool_decide_false by (intros [? ?]; done).
        right. split; [|first [done | rewrite Er; done]].
        intros [_ (a & c & rp & ? & _)]. done. }
    rewrite bool_decide_true by (by eexists).
    rewrite <- Ec.
    destruct (_answer_with_openai client question results) as [a|] eqn:Ea.
    2:{ right. split; [|first [done | rewrite Er; done]].
        intros [_ (a & Ha)]. apply answer_with_openai_some in Ha as [Ha _].
        congruence. }
    destruct (nonempty a) eqn:En.
    - left. assert (Hm : model_answered client question results a).
      { apply answer_with_openai_some. split; [done|]. by apply nonempty_true. }
      split; [split; [done|by exists a]|]. exists a. split; done.
    - right. split.
      + intros [_ (a' & Ha')]. apply answer_with_openai_some in Ha' as [Ha' Hne].
        assert (a' = a) as -> by congruence.
        apply nonempty_true in Hne. congruence.
      + first [done | rewrite Er; done]. }
  assert (Hdet : forall a a', model_answered client question results a ->
                   model_answered client question results a' -> a = a').
  { intros a a' Ha Ha'. apply answer_with_openai_some in Ha as [Ha _].
    apply answer_with_openai_some in Ha' as [Ha' _]. congruence. }
  assert (Hid : forall z, truthy_id z = if bool_decide (z = 0) then None else Some z).
  { intros z. unfold truthy_id. destruct (z =? 0) eqn:E.
    - apply Z.eqb_eq in E. by rewrite bool_decide_true.
    - apply Z.eqb_neq in E. by rewrite bool_decide_false. }
  clearbody res results.
  destruct Hcase as [[Has (a & Ha & Hres)]|[Hnot Hres]]; subst res.
  - split; [split; [done|intros _; reflexivity]|].
    split; [intros a' _ Ha'; by rewrite (Hdet a' a Ha' Ha)|].
    split; [intros Hn; exfalso; exact (Hn Has)|].
    split; [intros Hr; destruct Ha as (c & rp & _ & Hne & _); done|].
    split; [intros Hn; exfalso; exact (Hn Has)|].
    intros _. cbn [sources method].
    destruct (sources_of_results source_openai results) as [Hlen Hsrc].
    split; [exact Hlen|]. intros i s Hs. destruct (Hsrc i s Hs) as (Hi & r & Hr & ->).
    split; [exact Hi|]. exists r. split; [exact Hr|].
    unfold source_openai. cbn [s_filename s_id s_document_type s_issuing_agency].
    rewrite !truthy_kept, Hid. repeat split.
    intros Hm. exfalso. by apply method_names_differ.
  - split.
    { split; [|intros Has; exfalso; exact (Hnot Has)].
      intros Hm. exfalso. apply method_names_differ.
      destruct results; symmetry; exact Hm. }
    split; [intros a Hu Ha; exfalso; apply Hnot; split; [done|by exists a]|].
    split; [intros _; by destruct results|].
    split; [intros Hr; by destruct results|].
    split; [intros _ Hr; destruct results; [done|]; split; done|].
    intros Hr. destruct results as [|r0 rs]; [done|].
    unfold fallback_answer. cbn [sources method].
    destruct (sources_of_results source_simple (r0 :: rs)) as [Hlen Hsrc].
    split; [exact Hlen|]. intros i s Hs. destruct (Hsrc i s Hs) as (Hi & r & Hr' & ->).
    split; [exact Hi|]. exists r. split; [exact Hr'|].
    unfold source_simple. cbn [s_filename s_id s_document_type s_issuing_agency].
    rewrite !truthy_kept, Hid. repeat split.
    intros Hm. exfalso. apply method_names_differ. by symmetry.
Qed.

(** A store with two documents and a client whose call raises. *)
Definition two_documents : DocumentDB :=
  {| get_documents_by_category := fun _ => Some [];
     get_all_documents :=
       Some [DbRow 1 (u "a.txt") (u "Khac") None None None;
             DbRow 2 (u "b.txt") (u "Khac") None None None];
     get_document := fun _ => Some (Some (u "Tuyến metro số 1 Bến Thành - Suối Tiên")) |}.

Lemma answer_question_method_witness :
  answer_question None (Some (fun _ _ => Some (u "ok"))) (u "metro") None true
    = QAResult no_information [] low simple /\
  confidence (answer_question (Some two_documents) (Some (fun _ _ => None))
                (u "tuyến metro") None true) = high /\
  forall s,
    sources (answer_question (Some two_documents) (Some (fun _ _ => None))
               (u "tuyến metro") None true) !! 1%nat = Some s ->
    s_filename s = u "b.txt" /\ s_id s = Some 2.
Proof.
  split.
  - apply (answer_question_method None (Some (fun _ _ => Some (u "ok")))
             (u "metro") None true). reflexivity.
  - pose proof (answer_question_method (Some two_documents) (Some (fun _ _ => None))
                  (u "tuyến metro") None true) as H.
    cbv zeta in H. destruct H as (_ & _ & _ & _ & H & Hsrc). split.
    + destruct H as [H _].
      * intros [_ (a & c & rp & Hc & _ & Hcall & _)].
        injection Hc as <-. discriminate Hcall.
      * vm_compute. discriminate.
      * rewrite H. vm_compute. reflexivity.
    + intros s Hs. destruct Hsrc as [_ Hsrc]; [vm_compute; discriminate|].
      destruct (Hsrc 1%nat s Hs) as (_ & r & Hr & Hf & Hi & _).
      vm_compute in Hr. injection Hr as <-. by rewrite Hf, Hi.
Defined.

End AnswerFacts.

(** ** The classification argument of [analyze] (analyzer.py) *)

Section AnalyzeFrame.
Import Analyzer.

Lemma heap_get_append_eq (h : list (list (list N))) (l : nat) (x : list N) :
  (l < length h)%nat ->
  heap_get (heap_append l x h) l = heap_get h l ++ [x].
Proof.
  intros Hl. unfold heap_get, heap_append.
  destruct (lookup_lt_is_Some_2 h l Hl) as [v Hv].
  rewrite list_lookup_alter_eq, Hv. done.
Qed.

Lemma length_heap_append (h : list (list (list N))) (l : nat) (x : list N) :
  length (heap_append l x h) = length h.
Proof. apply length_alter. Qed.

(** The reference numbers that [append_numbers] appends, in order. *)
Definition reference_numbers (content_lower : list N) : list (list N) :=
  flat_map (fun pp => map (fun mt => pp.2 ++ u " " ++ mt)
                          (take 2 (findall_group true pp.1 content_lower)))
    [(pattern_nd, u "ND"); (pattern_qd, u "QD"); (pattern_tt, u "TT")].

Lemma fold_heap_append (l : nat) (xs : list (list N)) (h : list (list (list N))) :
  (l < length h)%nat ->
  let h' := fold_left (fun h x => heap_append l x h) xs h in
  length h' = length h /\ heap_get h' l = heap_get h l ++ xs.
Proof.
  revert h. induction xs as [|x xs IH]; intros h Hl; simpl.
  - by rewrite app_nil_r.
  - destruct (IH (heap_append l x h)) as [IH1 IH2].
    { by rewrite length_heap_append. }
    rewrite IH1, IH2, length_heap_append, heap_get_append_eq by done.
    by rewrite <- app_assoc.
Qed.

Lemma fold_left_map {A B C : Type} (f : C -> B -> C) (g : A -> B) (l : list A) (c : C) :
  fold_left (fun c a => f c (g a)) l c = fold_left f (map g l) c.
Proof. revert c. induction l as [|a l IH]; intros c; simpl; [done|apply IH]. Qed.

Lemma append_numbers_gen (content_lower : list N) (l : nat)
    (pps : list (Re.regex * list N)) (h : list (list (list N))) :
  (l < length h)%nat ->
  let h' :=
    fold_left
      (fun h pp =>
         fold_left (fun h mt => heap_append l (pp.2 ++ u " " ++ mt) h)
                   (take 2 (findall_group true pp.1 content_lower)) h)
      pps h in
  length h' = length h /\
  heap_get h' l
  = heap_get h l
    ++ flat_map (fun pp => map (fun mt => pp.2 ++ u " " ++ mt)
                               (take 2 (findall_group true pp.1 content_lower))) pps.
Proof.
  revert h. induction pps as [|pp pps IH]; intros h Hl.
  - simpl. by rewrite app_nil_r.
  - cbn [fold_left flat_map].
    rewrite (fold_left_map (fun h x => heap_append l x h)
               (fun mt => pp.2 ++ u " " ++ mt)).
    destruct (fold_heap_append l
                (map (fun mt => pp.2 ++ u " " ++ mt)
                     (take 2 (findall_group true pp.1 content_lower))) h Hl)
      as [L1 G1].
    cbv zeta in L1, G1.
    destruct (IH _ (eq_ind_r (fun n => (l < n)%nat) Hl L1)) as [L2 G2].
    cbv zeta in L2, G2. cbv zeta. split.
    + by rewrite L2, L1.
    + by rewrite G2, G1, <- app_assoc.
Qed.

(** What the call does to the list object of ['matched_keywords']: the
    reference numbers found in the content are appended to it. *)
Lemma append_numbers_effect (content_lower : list N) (l : nat)
    (h : list (list (list N))) :
  (l < length h)%nat ->
  heap_get (append_numbers content_lower l h) l
    = heap_get h l ++ reference_numbers content_lower.
Proof.
  intros Hl. unfold append_numbers, reference_numbers.
  by destruct (append_numbers_gen content_lower l
                 [(pattern_nd, u "ND"); (pattern_qd, u "QD"); (pattern_tt, u "TT")]
                 h Hl) as [_ ->].
Qed.

Lemma analyze_heap (openai : option completion) (content filename : list N)
    (classification : cls_dict) (use_openai : bool) (h : list (list (list N))) (l : nat) :
  d_matched_keywords classification = Some l ->
  (analyze openai content filename classification use_openai h).2
    = append_numbers (lower content) l h.
Proof.
  intros Hl. unfold analyze, extract_keywords_and_tags. rewrite Hl.
  destruct (identify_projects_locations content). done.
Qed.

(** C9 (the code departs from the claim): on the content
    "Nghị định số 15/2025" the classifier answers group 'khac' with no matched
    keyword, and the call of [analyze] on that classification appends
    "ND 15/2025" to the list object held by the classification: its
    ['matched_keywords'] is [[]] before the call and [["ND 15/2025"]] after. *)
Theorem analyze_mutates_matched_keywords :
  let content := u "Nghị định số 15/2025" in
  let c := Classifier.classify content [] in
  let st := store_classification c [] in
  let after := (analyze None content [] st.1 false st.2).2 in
  Classifier.main_group c = Classifier.khac /\
  d_matched_keywords st.1 = Some 0%nat /\
  heap_get st.2 0 = [] /\
  heap_get after 0 = [u "ND 15/2025"].
Proof. vm_compute. repeat split. Qed.

(** In general the list object of the classification grows by the reference
    numbers of the content, so the argument is left unchanged only when the
    content holds none. *)
Lemma analyze_matched_keywords_after (openai : option completion)
    (content filename : list N) (classification : cls_dict) (use_openai : bool)
    (h : list (list (list N))) (l : nat) :
  d_matched_keywords classification = Some l -> (l < length h)%nat ->
  heap_get (analyze openai content filename classification use_openai h).2 l
    = heap_get h l ++ reference_numbers (lower content).
Proof.
  intros Hd Hl. rewrite (analyze_heap _ _ _ _ _ _ l Hd).
  by apply append_numbers_effect.
Qed.

End AnalyzeFrame.

(** ** Keyword scores (classifier.py) *)

Section LiteralPatterns.
Import Re.

(** Python's [s.count(w)] for a non-empty [w]: the occurrences of [w] found
    from left to right, each one starting after the end of the one before.
    [skip] counts the characters of the last occurrence still to be passed. *)
Fixpoint occurrences_from (w : list N) (skip : nat) (s : list N) : nat :=
  match s with
  | [] => 0
  | _ :: s' =>
    match skip with
    | S n => occurrences_from w n s'
    | O =>
      if starts_with w s then S (occurrences_from w (length w - 1) s')
      else occurrences_from w 0 s'
    end
  end.
Definition occurrences (w s : list N) : nat := occurrences_from w 0 s.

Lemma starts_with_length (w s : list N) :
  starts_with w s = true -> (length w <= length s)%nat.
Proof. intros [t ->]%starts_with_true. rewrite length_app. lia. Qed.

(** An escaped literal matches exactly at the positions where the text
    starts with it. *)
Lemma run_lit {A : Type} (w s : list N) (caps : list (list N))
    (k : list N -> list (list N) -> option A) :
  run false (lit w) s caps k
  = if starts_with w s then k (drop (length w) s) caps else None.
Proof.
  revert s. induction w as [|a w IH]; intros s; simpl; [done|].
  destruct s as [|b s]; [done|]. simpl.
  destruct (a =? b)%N; simpl; [apply IH|done].
Qed.

Lemma match_here_lit (w s : list N) :
  match_here false (escape w) s
  = if starts_with w s then Some (drop (length w) s, []) else None.
Proof. apply run_lit. Qed.

Lemma finditer_lit_length (w : list N) (pos skip : nat) (s : list N) :
  w <> [] ->
  length (finditer_from false (escape w) pos skip s) = occurrences_from w skip s.
Proof.
  intros Hw. revert pos skip. induction s as [|c s IH]; intros pos skip.
  - destruct skip; simpl; [|done]. rewrite match_here_lit.
    destruct w; [done|]. done.
  - destruct skip as [|n]; simpl finditer_from; simpl occurrences_from; [|apply IH].
    rewrite match_here_lit.
    destruct (starts_with w (c :: s)) eqn:E.
    + simpl length. rewrite IH. f_equal. f_equal.
      apply starts_with_length in E. simpl in *.
      rewrite length_drop. simpl. lia.
    + apply IH.
Qed.

(** The count the classifier takes with [re.findall] is the number of
    occurrences of the lowercased keyword in the lowercased content. *)
Lemma keyword_count_occurrences (keyword content_lower : list N) :
  lower keyword <> [] ->
  Classifier.keyword_count keyword content_lower
  = Z.of_nat (occurrences (lower keyword) content_lower).
Proof.
  intros Hw. unfold Classifier.keyword_count, finditer, occurrences.
  by rewrite finditer_lit_length.
Qed.

End LiteralPatterns.

Section ScoreFacts.
Import Classifier.

(** The sum of a list of integers. *)
Definition sumZ (l : list Z) : Z := foldr Z.add 0 l.

Lemma keyword_count_nonneg (kw cl : list N) : 0 <= keyword_count kw cl.
Proof. unfold keyword_count. lia. Qed.

Lemma sumZ_nonneg (l : list Z) : Forall (fun z => 0 <= z) l -> 0 <= sumZ l.
Proof. induction 1; simpl; lia. Qed.

Lemma sumZ_elem_le (l : list Z) (z : Z) :
  Forall (fun z => 0 <= z) l -> z ∈ l -> z <= sumZ l.
Proof.
  induction 1 as [|y l Hy Hl IH]; intros Hin; [by apply elem_of_nil in Hin|].
  pose proof (sumZ_nonneg l Hl). apply elem_of_cons in Hin as [->|Hin]; simpl.
  - lia.
  - specialize (IH Hin). lia.
Qed.

Lemma list_filter_iff_in {A : Type} (P1 P2 : A -> Prop)
    `{!forall x, Decision (P1 x), !forall x, Decision (P2 x)} (l : list A) :
  (forall x, x ∈ l -> (P1 x <-> P2 x)) -> filter P1 l = filter P2 l.
Proof.
  induction l as [|x l IH]; intros Hiff; [done|].
  rewrite !filter_cons.
  rewrite IH by (intros y Hy; apply Hiff; by right).
  destruct (decide (P1 x)) as [H1|H1], (decide (P2 x)) as [H2|H2]; try done.
  - exfalso. apply H2, Hiff; [left|done].
  - exfalso. apply H1, Hiff; [left|done].
Qed.

(** The loop over the keywords that reads the content. *)
Lemma content_loop (cl : list N) (kws : list (list N)) (acc : Z * list (list N)) :
  fold_left (content_step cl) kws acc
  = (acc.1 + sumZ (map (fun kw => keyword_count kw cl) kws),
     acc.2 ++ filter (fun kw => 0 < keyword_count kw cl) kws).
Proof.
  revert acc. induction kws as [|kw kws IH]; intros [z m]; simpl.
  - by rewrite Z.add_0_r, app_nil_r.
  - rewrite IH. unfold content_step at 1 2. simpl. rewrite filter_cons.
    destruct (0 <? keyword_count kw cl) eqn:E; simpl.
    + apply Z.ltb_lt in E. rewrite decide_True by done.
      rewrite <- app_assoc. simpl. f_equal. lia.
    + apply Z.ltb_ge in E. rewrite decide_False by lia.
      pose proof (keyword_count_nonneg kw cl). f_equal. lia.
Qed.

(** The loop over the keywords that reads the file name. *)
Lemma filename_loop (fl : list N) (kws : list (list N)) (acc : Z * list (list N)) :
  NoDup kws ->
  fold_left (filename_step fl) kws acc
  = (acc.1 + 2 * Z.of_nat (length (filter (fun kw => contains (lower kw) fl = true) kws)),
     acc.2 ++ filter (fun kw => contains (lower kw) fl = true /\ kw ∉ acc.2) kws).
Proof.
  intros Hnd. revert acc.
  induction Hnd as [|kw kws Hkw Hnd IH]; intros [z m]; simpl.
  - by rewrite Z.add_0_r, app_nil_r.
  - cbn [fold_left]. rewrite IH. unfold filename_step. cbn [fst snd].
    rewrite !filter_cons.
    destruct (contains (lower kw) fl) eqn:E; cbn [fst snd].
    + rewrite decide_True by done. case_bool_decide as Hm.
      * rewrite decide_False by tauto. f_equal. cbn [length]. lia.
      * rewrite decide_True by done. rewrite <- app_assoc. cbn [length app].
        f_equal; [lia|]. f_equal. f_equal.
        apply list_filter_iff_in. intros x Hx.
        rewrite elem_of_app, list_elem_of_singleton.
        assert (x <> kw) by (intros ->; done). tauto.
    + rewrite decide_False by done. rewrite decide_False by (intros [? _]; done).
      done.
Qed.

(** The closed form of one group's score and matched keywords. *)
Lemma score_group_closed (cl fl : list N) (kws : list (list N)) :
  NoDup kws ->
  score_group cl fl kws
  = (sumZ (map (fun kw => keyword_count kw cl) kws)
       + 2 * Z.of_nat (length (filter (fun kw => contains (lower kw) fl = true) kws)),
     filter (fun kw => 0 < keyword_count kw cl) kws
       ++ filter (fun kw => contains (lower kw) fl = true /\ ~ 0 < keyword_count kw cl) kws).
Proof.
  intros Hnd. unfold score_group. rewrite content_loop, filename_loop by done.
  simpl. f_equal. f_equal.
  apply list_filter_iff_in. intros x Hx.
  rewrite list_elem_of_filter. tauto.
Qed.

Lemma KEYWORDS_NoDup : Forall (fun gk => NoDup gk.2) KEYWORDS.
Proof.
  apply (bool_decide_unpack _). by vm_compute.
Qed.

Lemma KEYWORDS_nonempty :
  Forall (fun gk => Forall (fun kw => lower kw <> []) gk.2) KEYWORDS.
Proof.
  apply (bool_decide_unpack _). by vm_compute.
Qed.

Lemma KEYWORDS_groups_NoDup : NoDup KEYWORDS.*1.
Proof.
  apply (bool_decide_unpack _). by vm_compute.
Qed.

End ScoreFacts.

#[global] Instance occurs_ci_dec (w s : list N) : Decision (occurs_ci w s).
Proof. unfold occurs_ci. apply _. Defined.

Section ClassifyScores.
Import Classifier.

(** The choice of main group, folder and confidence made from the scores. *)
Definition main_choice (scores : list (list N * Z)) : list N * list N * list N :=
  if negb (any_score scores) then (khac, u "Khac", thap)
  else
    match max_key scores with
    | Some (g, max_score) =>
      (g, dict_get FOLDER_MAPPING g (u "Khac"),
       confidence_of max_score (sum_scores scores))
    | None => (khac, u "Khac", thap)
    end.

Lemma classify_eq (content filename : list N) :
  let per_group := all_scores content filename in
  let scores := map (fun g => (g.1, g.2.1)) per_group in
  let matches := map (fun g => (g.1, g.2.2)) per_group in
  let choice := main_choice scores in
  classify content filename
  = Classification choice.1.1 choice.1.2
      (sub_groups_of choice.1.1 (sorted_desc scores)) choice.2 scores
      (if bool_decide (choice.1.1 = khac) then [] else dict_get matches choice.1.1 []).
Proof.
  intros per_group scores matches choice. subst choice.
  unfold classify, main_choice. subst matches scores per_group. cbv zeta.
  by destruct (if negb _ then _ else _) as [[mg mf] cf].
Qed.

(** The occurrences of a keyword in the text, case ignored. *)
Definition text_occurrences (kw content : list N) : Z :=
  Z.of_nat (occurrences (lower kw) (lower content)).

(** The score the claim gives a group: the occurrences of its keywords in
    the text, plus 2 for every keyword found in the file name. *)
Definition group_score (kws : list (list N)) (content filename : list N) : Z :=
  sumZ (map (fun kw => text_occurrences kw content) kws)
  + 2 * Z.of_nat (length (filter (fun kw => occurs_ci kw filename) kws)).

(** The keywords of a group that contributed, in the order of their first
    contribution: those found in the text, then those found in the file
    name only. *)
Definition contributors (kws : list (list N)) (content filename : list N)
    : list (list N) :=
  filter (fun kw => 0 < text_occurrences kw content) kws
  ++ filter (fun kw => occurs_ci kw filename /\ ~ 0 < text_occurrences kw content) kws.

Lemma score_group_spec (g : list N) (kws : list (list N)) (content filename : list N) :
  (g, kws) ∈ KEYWORDS ->
  score_group (lower content) (lower filename) kws
  = (group_score kws content filename, contributors kws content filename).
Proof.
  intros Hin.
  assert (Hnd : NoDup kws).
  { pose proof KEYWORDS_NoDup as H. rewrite Forall_forall in H. apply (H _ Hin). }
  assert (Hne : forall kw, kw ∈ kws -> lower kw <> []).
  { pose proof KEYWORDS_nonempty as H. rewrite Forall_forall in H.
    specialize (H _ Hin). simpl in H. by rewrite Forall_forall in H. }
  rewrite score_group_closed by done.
  unfold group_score, contributors, text_occurrences, occurs_ci.
  f_equal; [f_equal|f_equal].
  - f_equal. apply map_ext_in. intros kw Hkw%list_elem_of_In.
    by apply keyword_count_occurrences, Hne.
  - apply list_filter_iff_in. intros kw Hkw.
    by rewrite keyword_count_occurrences by by apply Hne.
  - apply list_filter_iff_in. intros kw Hkw.
    by rewrite keyword_count_occurrences by by apply Hne.
Qed.

Lemma all_scores_spec (content filename : list N) :
  all_scores content filename
  = map (fun gk => (gk.1, (group_score gk.2 content filename,
                           contributors gk.2 content filename))) KEYWORDS.
Proof.
  unfold all_scores. apply map_ext_in. intros [g kws] Hin%list_elem_of_In.
  simpl. by rewrite (score_group_spec g).
Qed.

Lemma scores_spec (content filename : list N) :
  scores (classify content filename)
  = map (fun gk => (gk.1, group_score gk.2 content filename)) KEYWORDS.
Proof.
  rewrite classify_eq. cbv zeta. cbn [scores].
  rewrite all_scores_spec, map_map. done.
Qed.

Lemma contributors_NoDup (g : list N) (kws : list (list N)) (content filename : list N) :
  (g, kws) ∈ KEYWORDS -> NoDup (contributors kws content filename).
Proof.
  intros Hin.
  assert (Hnd : NoDup kws).
  { pose proof KEYWORDS_NoDup as H. rewrite Forall_forall in H. apply (H _ Hin). }
  unfold contributors. apply NoDup_app. repeat split.
  - by apply NoDup_filter.
  - intros kw H1%list_elem_of_filter H2%list_elem_of_filter. tauto.
  - by apply NoDup_filter.
Qed.

Lemma elem_of_contributors (kws : list (list N)) (content filename kw : list N) :
  kw ∈ contributors kws content filename
  <-> kw ∈ kws /\ (0 < text_occurrences kw content \/ occurs_ci kw filename).
Proof.
  unfold contributors. rewrite elem_of_app, !list_elem_of_filter.
  destruct (decide (0 < text_occurrences kw content)); tauto.
Qed.

Lemma dict_get_lookup {V : Type} (d : list (list N * V)) (k : list N) (v dflt : V) :
  NoDup d.*1 -> (k, v) ∈ d -> dict_get d k dflt = v.
Proof.
  induction d as [|[k' v'] d IH]; intros Hnd Hin; [by apply elem_of_nil in Hin|].
  simpl. apply NoDup_cons in Hnd as [Hk' Hnd].
  apply elem_of_cons in Hin as [Heq|Hin].
  - injection Heq as <- <-. by rewrite bool_decide_true.
  - rewrite bool_decide_false; [by apply IH|].
    intros ->. apply Hk'. apply list_elem_of_fmap. by exists (k, v).
Qed.

Lemma khac_not_a_group : khac ∉ KEYWORDS.*1.
Proof. apply (bool_decide_unpack _). by vm_compute. Qed.

Lemma matched_keywords_spec (g : list N) (kws : list (list N))
    (content filename : list N) :
  (g, kws) ∈ KEYWORDS ->
  main_group (classify content filename) = g ->
  matched_keywords (classify content filename) = contributors kws content filename.
Proof.
  intros Hin. rewrite classify_eq. cbv zeta. cbn [main_group matched_keywords].
  intros ->. rewrite bool_decide_false.
  2:{ intros Hk. apply khac_not_a_group. rewrite <- Hk.
      apply list_elem_of_fmap. by exists (g, kws). }
  rewrite all_scores_spec, map_map. cbn [fst snd].
  apply dict_get_lookup.
  - rewrite <- list_fmap_compose. apply KEYWORDS_groups_NoDup.
  - apply list_elem_of_fmap. by exists (g, kws).
Qed.

(** C3: the score of every group is the number of occurrences of its
    keywords in the text (case ignored, counted as [str.count] does) plus 2
    for every keyword whose lowercase form is in the lowercase file name;
    the matched keywords of the group are the contributing keywords, each
    once, those found in the text first and then those found only in the
    file name, both in keyword order; and they are the [matched_keywords]
    of the result when the group is the main group. *)
Theorem classify_scores (content filename : list N) :
  scores (classify content filename)
    = map (fun gk => (gk.1, group_score gk.2 content filename)) KEYWORDS /\
  forall g kws, (g, kws) ∈ KEYWORDS ->
    score_group (lower content) (lower filename) kws
      = (group_score kws content filename, contributors kws content filename) /\
    NoDup (contributors kws content filename) /\
    (forall kw, kw ∈ contributors kws content filename
       <-> kw ∈ kws /\ (0 < text_occurrences kw content \/ occurs_ci kw filename)) /\
    (main_group (classify content filename) = g ->
     matched_keywords (classify content filename) = contributors kws content filename).
Proof.
  split; [apply scores_spec|]. intros g kws Hin.
  split; [by apply (score_group_spec g)|].
  split; [by apply (contributors_NoDup g)|].
  split; [intros kw; apply elem_of_contributors|].
  by apply matched_keywords_spec.
Qed.

(** The group 'metro' with a text hit (twice the word, once inside
    "tuyến metro") and two file-name hits. *)
Lemma classify_scores_witness :
  matched_keywords (classify (u "METRO Bến Thành, tuyến metro") (u "Depot_FS.pdf"))
  = [u "metro"; u "tuyến metro"; u "depot"; u "FS"].
Proof.
  assert (Hin : (u "metro", hd [] KEYWORDS.*2) ∈ KEYWORDS).
  { apply list_elem_of_In. vm_compute. left. reflexivity. }
  destruct (proj2 (classify_scores (u "METRO Bến Thành, tuyến metro") (u "Depot_FS.pdf"))
              _ _ Hin) as (_ & _ & _ & H).
  rewrite H by (vm_compute; reflexivity). vm_compute. reflexivity.
Defined.

End ClassifyScores.

(** ** Main group, sub-groups and confidence (classifier.py) *)

Section Ranking.
Import Classifier.
Implicit Types (l : list (list N * Z)) (x y : list N * Z).

(** [x], at index [i], has the largest score of [l] and is the first entry
    with that score. *)
Definition first_max l (i : nat) x : Prop :=
  l !! i = Some x /\
  forall j y, l !! j = Some y -> y.2 <= x.2 /\ ((j < i)%nat -> y.2 < x.2).

(** [x] comes before [y] in the descending order of scores that keeps the
    order of [l] between equal scores. *)
Definition ranks_before l x y : Prop :=
  y.2 < x.2 \/
  (x.2 = y.2 /\ exists i j, l !! i = Some x /\ l !! j = Some y /\ (i < j)%nat).

Lemma any_score_false l : any_score l = false <-> forall x, x ∈ l -> x.2 = 0.
Proof.
  unfold any_score. split.
  - intros H x Hx. destruct (decide (x.2 = 0)) as [|Hne]; [done|].
    assert (existsb (fun x => negb (x.2 =? 0)) l = true); [|congruence].
    apply existsb_elem_of. exists x. split; [done|].
    apply negb_true_iff, Z.eqb_neq. done.
  - intros H. apply not_true_iff_false. intros (x & Hx & Hb)%existsb_elem_of.
    apply negb_true_iff, Z.eqb_neq in Hb. by apply Hb, H.
Qed.

Lemma max_from_first_max l x : exists i, first_max (x :: l) i (max_from x l).
Proof.
  revert x. induction l as [|a l IH]; intros x.
  - exists 0%nat. split; [done|]. intros [|j] y Hy; [|done].
    injection Hy as <-. simpl. split; lia.
  - simpl. destruct (x.2 <? a.2) eqn:E.
    + apply Z.ltb_lt in E. destruct (IH a) as (i & Hi & Hmax).
      exists (S i). split; [done|]. intros [|j] y Hy.
      * injection Hy as <-. destruct (Hmax 0%nat a eq_refl) as [Ha _].
        split; [lia|]. intros _. lia.
      * destruct (Hmax j y Hy) as [H1 H2]. split; [done|]. intros ?. apply H2. lia.
    + apply Z.ltb_ge in E. destruct (IH x) as (i & Hi & Hmax).
      destruct i as [|i].
      * injection Hi as Hi. rewrite <- Hi in *. exists 0%nat. split; [done|].
        intros [|[|j]] y Hy.
        -- injection Hy as <-. split; [lia|lia].
        -- injection Hy as <-. split; [lia|lia].
        -- destruct (Hmax (S j) y Hy) as [H1 _]. split; [done|lia].
      * exists (S (S i)). split; [done|]. intros [|[|j]] y Hy.
        -- injection Hy as <-. destruct (Hmax 0%nat x eq_refl) as [H1 H2].
           split; [done|]. intros _. apply H2. lia.
        -- injection Hy as <-. destruct (Hmax 0%nat x eq_refl) as [H1 H2].
           assert (x.2 < (max_from x l).2) by (apply H2; lia).
           split; [lia|]. intros _. lia.
        -- destruct (Hmax (S j) y Hy) as [H1 H2]. split; [done|].
           intros ?. apply H2. lia.
Qed.

Lemma max_key_first_max l x :
  max_key l = Some x -> exists i, first_max l i x.
Proof.
  destruct l as [|a l]; [done|]. simpl. intros [= <-]. apply max_from_first_max.
Qed.

Lemma first_max_unique l i j x y : first_max l i x -> first_max l j y -> i = j /\ x = y.
Proof.
  intros [Hi Hx] [Hj Hy].
  destruct (Hx j y Hj) as [H1 H2]. destruct (Hy i x Hi) as [H3 H4].
  assert (i = j) as -> by lia. split; [done|]. congruence.
Qed.

Lemma insert_desc_perm x l : insert_desc x l ≡ₚ x :: l.
Proof.
  induction l as [|y l IH]; simpl; [done|].
  destruct (x.2 <? y.2); [|done]. rewrite IH. apply Permutation_swap.
Qed.

Lemma sorted_desc_perm l : sorted_desc l ≡ₚ l.
Proof.
  induction l as [|x l IH]; simpl; [done|].
  rewrite insert_desc_perm. by constructor.
Qed.

Lemma insert_desc_sorted (R : relation (list N * Z)) x s :
  (forall a b, R a b -> b.2 <= a.2) ->
  StronglySorted R s ->
  (forall y, y ∈ s -> x.2 < y.2 -> R y x) ->
  (forall y, y ∈ s -> y.2 <= x.2 -> R x y) ->
  StronglySorted R (insert_desc x s).
Proof.
  intros HR Hs. induction Hs as [|y s Hs IH Hy]; intros Hlt Hge; simpl.
  - repeat constructor.
  - destruct (x.2 <? y.2) eqn:E.
    + apply Z.ltb_lt in E. constructor.
      * apply IH; intros z Hz; [apply Hlt|apply Hge]; by right.
      * rewrite insert_desc_perm. constructor; [apply Hlt; [left|done]|done].
    + apply Z.ltb_ge in E. constructor; [by constructor|].
      constructor; [apply Hge; [left|done]|].
      rewrite Forall_forall in Hy |- *. intros z Hz.
      apply Hge; [by right|]. specialize (HR _ _ (Hy z Hz)). lia.
Qed.

Lemma StronglySorted_mono {A : Type} (R1 R2 : relation A) (s : list A) :
  (forall a b, R1 a b -> R2 a b) -> StronglySorted R1 s -> StronglySorted R2 s.
Proof.
  intros HR. induction 1 as [|a s Hs IH Ha]; constructor; [done|].
  eapply Forall_impl; [exact Ha|]. intros b. apply HR.
Qed.

Lemma ranks_before_cons l a x y : ranks_before l x y -> ranks_before (a :: l) x y.
Proof.
  intros [H|[H (i & j & Hi & Hj & Hij)]]; [by left|right].
  split; [done|]. exists (S i), (S j). repeat split; try done. lia.
Qed.

Lemma ranks_before_score l x y : ranks_before l x y -> y.2 <= x.2.
Proof. intros [H|[H _]]; lia. Qed.

(** The sort of [classify] puts the entries in the order [ranks_before]. *)
Lemma sorted_desc_sorted l : StronglySorted (ranks_before l) (sorted_desc l).
Proof.
  induction l as [|x l IH]; simpl; [constructor|].
  apply insert_desc_sorted.
  - apply ranks_before_score.
  - eapply StronglySorted_mono; [|exact IH].
    intros a b. apply ranks_before_cons.
  - intros y _ Hy. by left.
  - intros y Hy Hle. rewrite sorted_desc_perm in Hy.
    apply list_elem_of_lookup in Hy as [j Hj].
    destruct (decide (y.2 < x.2)); [by left|right]. split; [lia|].
    exists 0%nat, (S j). repeat split; try done. lia.
Qed.

(** The head of the sorted list is the entry [max] picks. *)
Lemma insert_desc_head x s :
  head (insert_desc x s)
  = match head s with
    | Some y => if x.2 <? y.2 then Some y else Some x
    | None => Some x
    end.
Proof. destruct s as [|y s]; simpl; [done|]. by destruct (x.2 <? y.2). Qed.

Lemma max_from_cons_eq x l :
  max_from x l
  = match max_key l with
    | Some y => if x.2 <? y.2 then y else x
    | None => x
    end.
Proof.
  revert x. induction l as [|a l IH]; intros x; [done|].
  cbn [max_from max_key]. rewrite (IH a), (IH x).
  destruct (max_key l) as [y|]; [|done].
  destruct (a.2 <? y.2) eqn:E2; destruct (x.2 <? a.2) eqn:E1;
    destruct (x.2 <? y.2) eqn:E3; try done;
    exfalso; rewrite ?Z.ltb_lt, ?Z.ltb_ge in *; lia.
Qed.

Lemma sorted_desc_head l : head (sorted_desc l) = max_key l.
Proof.
  induction l as [|x l IH]; [done|].
  cbn [sorted_desc foldr]. fold (sorted_desc l).
  rewrite insert_desc_head, IH. cbn [max_key]. rewrite max_from_cons_eq.
  destruct (max_key l) as [y|]; [|done]. by destruct (x.2 <? y.2).
Qed.

End Ranking.

Section ClassifyInvariant.
Import Classifier.
Implicit Types (sc : list (list N * Z)).

Lemma main_choice_zero sc :
  any_score sc = false -> main_choice sc = (khac, u "Khac", thap).
Proof. intros H. unfold main_choice. by rewrite H. Qed.

Lemma main_choice_nonzero sc :
  any_score sc = true ->
  exists g m, max_key sc = Some (g, m) /\
    main_choice sc
    = (g, dict_get FOLDER_MAPPING g (u "Khac"), confidence_of m (sum_scores sc)).
Proof.
  intros H. unfold main_choice. rewrite H. simpl.
  destruct sc as [|x sc]; [done|]. simpl.
  destruct (max_from x sc) as [g m]. by exists g, m.
Qed.

Lemma any_score_cases sc :
  (any_score sc = false /\ forall x, x ∈ sc -> x.2 = 0) \/
  (any_score sc = true /\ exists x, x ∈ sc /\ x.2 <> 0).
Proof.
  destruct (any_score sc) eqn:E.
  - right. split; [done|]. apply existsb_elem_of in E as (x & Hx & Hb).
    exists x. split; [done|]. by apply negb_true_iff, Z.eqb_neq in Hb.
  - left. split; [done|]. by apply any_score_false.
Qed.

(** The entry of a sub-group as the loop builds it. *)
Definition to_sub_group (gs : list N * Z) : option sub_group :=
  if 0 <? gs.2 then Some (SubGroup gs.1 (dict_get FOLDER_MAPPING gs.1 []) gs.2)
  else None.

Lemma omap_ext_in {A B : Type} (f g : A -> option B) (l : list A) :
  (forall x, x ∈ l -> f x = g x) -> omap f l = omap g l.
Proof.
  induction l as [|x l IH]; intros H; csimpl; [done|].
  rewrite (H x) by left. rewrite IH; [done|]. intros y Hy. apply H. by right.
Qed.

Lemma elem_of_take_drop {A : Type} (l : list A) (n k : nat) (x : A) :
  x ∈ take n (drop k l) -> x ∈ drop k l.
Proof.
  intros H. rewrite <- (take_drop n (drop k l)). apply elem_of_app. by left.
Qed.

Lemma sub_groups_of_spec (mg : list N) (sorted : list (list N * Z)) :
  (forall gs, gs ∈ drop 1 sorted -> 0 < gs.2 -> gs.1 <> mg) ->
  sub_groups_of mg sorted = omap to_sub_group (take 2 (drop 1 sorted)).
Proof.
  intros H. unfold sub_groups_of. apply omap_ext_in. intros gs Hgs.
  apply elem_of_take_drop in Hgs. unfold to_sub_group.
  destruct (0 <? gs.2) eqn:E; [|done]. apply Z.ltb_lt in E.
  rewrite bool_decide_false; [done|]. by apply H.
Qed.

Lemma length_omap_le {A B : Type} (f : A -> option B) (l : list A) :
  (length (omap f l) <= length l)%nat.
Proof. induction l as [|x l IH]; csimpl; [done|]. destruct (f x); simpl; lia. Qed.

(** The scores of a classification: one entry per group, in the order of
    [KEYWORDS]. *)
Lemma scores_groups (content filename : list N) :
  (scores (classify content filename)).*1 = KEYWORDS.*1.
Proof.
  rewrite scores_spec, <- list_fmap_compose. done.
Qed.

Lemma scores_nonneg (content filename : list N) (x : list N * Z) :
  x ∈ scores (classify content filename) -> 0 <= x.2.
Proof.
  rewrite scores_spec. intros ([g kws] & -> & _)%list_elem_of_fmap. simpl.
  unfold group_score. apply Z.add_nonneg_nonneg; [|lia].
  apply sumZ_nonneg, Forall_forall. intros z (kw & -> & _)%list_elem_of_fmap.
  unfold text_occurrences. lia.
Qed.

Lemma classify_choice (content filename : list N) :
  let r := classify content filename in
  main_choice (scores r) = (main_group r, main_folder r, confidence r) /\
  sub_groups r = sub_groups_of (main_group r) (sorted_desc (scores r)).
Proof.
  rewrite classify_eq. cbv zeta.
  cbn [scores main_group main_folder confidence sub_groups].
  by destruct (main_choice _) as [[mg mf] cf].
Qed.

Lemma matched_keywords_khac (content filename : list N) :
  main_group (classify content filename) = khac ->
  matched_keywords (classify content filename) = [].
Proof.
  rewrite classify_eq. cbv zeta. cbn [main_group matched_keywords].
  intros ->. by rewrite bool_decide_true.
Qed.

(** C1: the structure of every classification.  [scores] has one entry per
    group of [KEYWORDS]; when all scores are 0 the main group is 'khac' with
    confidence 'thap', no matched keyword and no sub-group; otherwise the
    main group is the first entry with the largest score.  The sub-groups
    are the entries at positions 2 and 3 of the ranking of the scores
    (descending, declaration order between equal scores) that have a
    positive score: at most two, never the main group, never a group with
    score 0. *)
Theorem classify_invariant (content filename : list N) :
  let r := classify content filename in
  let sc := scores r in
  sc.*1 = KEYWORDS.*1 /\
  ((forall x, x ∈ sc -> x.2 = 0) ->
     main_group r = khac /\ confidence r = thap /\
     matched_keywords r = [] /\ sub_groups r = []) /\
  ((exists x, x ∈ sc /\ x.2 <> 0) ->
     exists i m, first_max sc i (main_group r, m)) /\
  (exists ranked,
     ranked ≡ₚ sc /\ StronglySorted (ranks_before sc) ranked /\
     sub_groups r = omap to_sub_group (take 2 (drop 1 ranked))) /\
  (length (sub_groups r) <= 2)%nat /\
  (forall sg, sg ∈ sub_groups r ->
     sg_group sg <> main_group r /\ 0 < sg_score sg /\
     (sg_group sg, sg_score sg) ∈ sc).
Proof.
  intros r sc.
  destruct (classify_choice content filename) as [Hch Hsub]. fold r sc in Hch, Hsub.
  assert (Hkeys : sc.*1 = KEYWORDS.*1) by apply scores_groups.
  assert (Hnd : NoDup sc.*1) by (rewrite Hkeys; apply KEYWORDS_groups_NoDup).
  assert (Hranked : sub_groups r = omap to_sub_group (take 2 (drop 1 (sorted_desc sc)))
                    /\ forall gs, gs ∈ drop 1 (sorted_desc sc) -> 0 < gs.2 ->
                         gs.1 <> main_group r).
  { assert (H : forall gs, gs ∈ drop 1 (sorted_desc sc) -> 0 < gs.2 ->
                  gs.1 <> main_group r).
    { intros gs Hgs Hpos.
      destruct (any_score_cases sc) as [[_ Hz]|[Hany _]].
      - assert (gs ∈ sc).
        { rewrite <- (sorted_desc_perm sc), <- (take_drop 1 (sorted_desc sc)).
          apply elem_of_app. by right. }
        specialize (Hz gs H). lia.
      - destruct (main_choice_nonzero sc Hany) as (g & m & Hmax & Hmc).
        rewrite Hmc in Hch. injection Hch as Hg _ _. rewrite <- Hg.
        rewrite <- sorted_desc_head in Hmax.
        assert (Hnd' : NoDup (sorted_desc sc).*1) by by rewrite sorted_desc_perm.
        destruct (sorted_desc sc) as [|y s]; [done|].
        injection Hmax as ->. simpl in Hgs, Hnd'. rewrite drop_0 in Hgs.
        apply NoDup_cons in Hnd' as [Hg' _]. intros Heq. apply Hg'.
        rewrite <- Heq. apply list_elem_of_fmap. by exists gs. }
    split; [|done]. rewrite Hsub. by apply sub_groups_of_spec. }
  destruct Hranked as [Hsg Hne].
  split; [done|]. split; [|split; [|split; [|split]]].
  - intros Hz. pose proof (proj2 (any_score_false sc) Hz) as Hz0.
    rewrite (main_choice_zero sc Hz0) in Hch. injection Hch as Hg _ Hc.
    split; [done|]. split; [done|]. split; [by apply matched_keywords_khac|].
    rewrite Hsg. apply omap_nil_forall. intros gs Hgs.
    apply elem_of_take_drop in Hgs.
    assert (Hin : gs ∈ sc).
    { rewrite <- (sorted_desc_perm sc), <- (take_drop 1 (sorted_desc sc)).
      apply elem_of_app. by right. }
    unfold to_sub_group. by rewrite (Hz gs Hin).
  - intros (x & Hx & Hnz).
    destruct (any_score_cases sc) as [[_ Hz]|[Hany _]]; [by specialize (Hz x Hx)|].
    destruct (main_choice_nonzero sc Hany) as (g & m & Hmax & Hmc).
    rewrite Hmc in Hch. injection Hch as Hg _ _. rewrite <- Hg.
    destruct (max_key_first_max sc _ Hmax) as [i Hi]. by exists i, m.
  - exists (sorted_desc sc). split; [apply sorted_desc_perm|].
    split; [apply sorted_desc_sorted|done].
  - rewrite Hsg. etrans; [apply length_omap_le|]. rewrite length_take. lia.
  - intros sg. rewrite Hsg. intros (gs & Hgs & Hsome)%list_elem_of_omap.
    apply elem_of_take_drop in Hgs. unfold to_sub_group in Hsome.
    destruct (0 <? gs.2) eqn:E; [|done]. apply Z.ltb_lt in E.
    injection Hsome as <-. simpl. split; [by apply Hne|]. split; [done|].
    rewrite <- (sorted_desc_perm sc), <- (take_drop 1 (sorted_desc sc)).
    apply elem_of_app. right. by destruct gs.
Qed.

(** The empty document. *)
Lemma classify_invariant_witness :
  main_group (classify [] []) = khac /\ sub_groups (classify [] []) = [].
Proof.
  destruct (classify_invariant [] []) as (_ & H & _).
  destruct H as (H1 & _ & _ & H4); [|by split].
  intros x Hx. apply list_elem_of_In in Hx. vm_compute in Hx.
  destruct Hx as [<-|[<-|[<-|[<-|[]]]]]; reflexivity.
Defined.

End ClassifyInvariant.

Section Confidence.
Import Classifier.
Implicit Types (sc : list (list N * Z)).

(** The largest score and the sum of the scores. *)
Definition max_score sc : Z := foldr Z.max 0 sc.*2.
Definition total_score sc : Z := sumZ sc.*2.

(** The winning score is at least 5 and more than 0.6 of the total. *)
Definition dominant (m t : Z) : Prop := 5 <= m /\ 3 * t < 5 * m.

Lemma sum_scores_total sc : sum_scores sc = total_score sc.
Proof.
  unfold sum_scores, total_score. induction sc as [|x sc IH]; simpl; [done|].
  by rewrite IH.
Qed.

Lemma max_score_ge sc x : x ∈ sc -> x.2 <= max_score sc.
Proof.
  unfold max_score. induction sc as [|y sc IH]; intros Hx; [by apply elem_of_nil in Hx|].
  rewrite fmap_cons. cbn [foldr].
  apply elem_of_cons in Hx as [->|Hx]; [lia|]. specialize (IH Hx). lia.
Qed.

Lemma max_score_le sc (m : Z) :
  0 <= m -> (forall y, y ∈ sc -> y.2 <= m) -> max_score sc <= m.
Proof.
  intros Hm. unfold max_score. induction sc as [|y sc IH]; intros H; [done|].
  rewrite fmap_cons. cbn [foldr]. apply Z.max_lub; [apply H; left|]. apply IH. intros z Hz. apply H. by right.
Qed.

Lemma first_max_max_score sc i x :
  (forall y, y ∈ sc -> 0 <= y.2) -> first_max sc i x -> max_score sc = x.2.
Proof.
  intros Hnn [Hi Hmax].
  assert (Hx : x ∈ sc) by (apply list_elem_of_lookup; by exists i).
  apply Z.le_antisymm; [|by apply max_score_ge].
  apply max_score_le; [by apply Hnn|].
  intros y [j Hj]%list_elem_of_lookup. by destruct (Hmax j y Hj).
Qed.

Lemma tiers_differ : cao <> trung_binh /\ cao <> thap /\ trung_binh <> thap.
Proof. by vm_compute. Qed.

Lemma confidence_of_tiers (m t : Z) :
  1 <= t ->
  (confidence_of m t = cao <-> dominant m t) /\
  (confidence_of m t = trung_binh <-> ~ dominant m t /\ 2 <= m) /\
  (confidence_of m t = thap <-> ~ dominant m t /\ m < 2).
Proof.
  intros Ht. destruct tiers_differ as (H1 & H2 & H3).
  unfold confidence_of, dominant. rewrite Z.max_l by lia.
  destruct (5 <=? m) eqn:E5; destruct (3 * t <? 5 * m) eqn:E6;
    destruct (2 <=? m) eqn:E2; simpl;
    rewrite ?Z.leb_le, ?Z.leb_gt, ?Z.ltb_lt, ?Z.ltb_ge in *;
    (split; [|split]); split; intros H; try done; try lia;
    try (exfalso; congruence).
Qed.

Lemma total_score_nonneg sc : (forall y, y ∈ sc -> 0 <= y.2) -> 0 <= total_score sc.
Proof.
  intros H. apply sumZ_nonneg, Forall_forall.
  intros z (y & -> & Hy)%list_elem_of_fmap. by apply H.
Qed.

Lemma total_score_ge sc x :
  (forall y, y ∈ sc -> 0 <= y.2) -> x ∈ sc -> x.2 <= total_score sc.
Proof.
  intros H Hx. apply sumZ_elem_le.
  - apply Forall_forall. intros z (y & -> & Hy)%list_elem_of_fmap. by apply H.
  - apply list_elem_of_fmap. by exists x.
Qed.

(** The sum of scores that are 0 outside one group. *)
Lemma total_score_zero sc : (forall x, x ∈ sc -> x.2 = 0) -> total_score sc = 0.
Proof.
  unfold total_score. induction sc as [|z sc IH]; intros Hz; [done|].
  rewrite fmap_cons. cbn [sumZ foldr]. fold (sumZ sc.*2).
  rewrite IH by (intros x Hx; apply Hz; by right).
  rewrite (Hz z) by left. lia.
Qed.

Lemma total_score_single sc (g : list N) (s : Z) :
  NoDup sc.*1 -> (g, s) ∈ sc -> (forall x, x ∈ sc -> x.1 <> g -> x.2 = 0) ->
  total_score sc = s.
Proof.
  induction sc as [|y sc IH]; intros Hnd Hin Hz; [by apply elem_of_nil in Hin|].
  rewrite fmap_cons in Hnd. apply NoDup_cons in Hnd as [Hy Hnd].
  unfold total_score. rewrite fmap_cons. cbn [sumZ foldr]. fold (sumZ sc.*2).
  fold (total_score sc).
  apply elem_of_cons in Hin as [<-|Hin].
  - rewrite total_score_zero; [simpl; lia|].
    intros x Hx. apply Hz; [by right|]. intros Hg. apply Hy.
    apply list_elem_of_fmap. exists x. by split.
  - rewrite IH; try done.
    + rewrite (Hz y); [lia|left|]. intros Hg. apply Hy.
      apply list_elem_of_fmap. exists (g, s). by split.
    + intros x Hx. apply Hz. by right.
Qed.

Lemma group_score_zero (kws : list (list N)) (content filename : list N) :
  (forall kw, kw ∈ kws -> text_occurrences kw content = 0 /\ ~ occurs_ci kw filename) ->
  group_score kws content filename = 0.
Proof.
  intros H. unfold group_score.
  assert (H1 : sumZ (map (fun kw => text_occurrences kw content) kws) = 0).
  { induction kws as [|kw kws IH]; [done|].
    cbn [map sumZ foldr]. fold (sumZ (map (fun kw => text_occurrences kw content) kws)).
    rewrite IH by (intros k Hk; apply H; by right).
    destruct (H kw) as [Hk _]; [left|]. rewrite Hk. lia. }
  assert (H2 : filter (fun kw => occurs_ci kw filename) kws = []).
  { clear H1. induction kws as [|kw kws IH]; [done|].
    destruct (H kw) as [_ Hk]; [left|].
    rewrite filter_cons_False by done.
    apply IH. intros k Hk'. apply H. by right. }
  rewrite H1, H2. simpl. lia.
Qed.

Lemma group_score_ge (kws : list (list N)) (content filename kw : list N) :
  kw ∈ kws -> text_occurrences kw content <= group_score kws content filename.
Proof.
  intros Hkw. unfold group_score.
  assert (text_occurrences kw content
          <= sumZ (map (fun kw => text_occurrences kw content) kws)); [|lia].
  apply sumZ_elem_le.
  - apply Forall_forall. intros z (k & -> & _)%list_elem_of_fmap.
    unfold text_occurrences. lia.
  - apply list_elem_of_fmap. by exists kw.
Qed.

Lemma classify_confidence_of (content filename : list N) :
  let r := classify content filename in
  any_score (scores r) = true ->
  exists i, first_max (scores r) i (main_group r, max_score (scores r)) /\
    confidence r = confidence_of (max_score (scores r)) (total_score (scores r)).
Proof.
  intros r Hany. destruct (classify_choice content filename) as [Hch _].
  fold r in Hch.
  destruct (main_choice_nonzero _ Hany) as (g & m & Hmax & Hmc).
  rewrite Hmc in Hch. injection Hch as Hg _ Hc.
  destruct (max_key_first_max _ _ Hmax) as [i Hi]. exists i.
  assert (Hm : max_score (scores r) = m).
  { apply (first_max_max_score _ i (g, m)); [|done]. apply scores_nonneg. }
  rewrite Hm, <- Hg, <- Hc, sum_scores_total. done.
Qed.

Lemma positive_score_total (content filename : list N) :
  let r := classify content filename in
  (exists x, x ∈ scores r /\ 0 < x.2) ->
  any_score (scores r) = true /\ 1 <= total_score (scores r).
Proof.
  cbv zeta. intros (x & Hx & Hp). split.
  - apply existsb_elem_of. exists x. split; [done|].
    apply negb_true_iff, Z.eqb_neq. lia.
  - pose proof (total_score_ge _ x (scores_nonneg content filename) Hx). lia.
Qed.

Lemma confidence_tiers (content filename : list N) :
  let r := classify content filename in
  let m := max_score (scores r) in
  let t := total_score (scores r) in
  (exists x, x ∈ scores r /\ 0 < x.2) ->
  (confidence r = cao <-> dominant m t) /\
  (confidence r = trung_binh <-> ~ dominant m t /\ 2 <= m) /\
  (confidence r = thap <-> ~ dominant m t /\ m < 2).
Proof.
  intros r m t Hex.
  destruct (positive_score_total content filename Hex) as [Hany Ht].
  destruct (classify_confidence_of content filename Hany) as (i & _ & Hc).
  fold r in Hc. rewrite Hc. by apply confidence_of_tiers.
Qed.

Lemma single_positive_first_max sc (g mg : list N) (s M : Z) (i : nat) :
  NoDup sc.*1 -> (g, s) ∈ sc -> (forall x, x ∈ sc -> x.1 <> g -> x.2 = 0) ->
  0 < s -> first_max sc i (mg, M) -> mg = g /\ M = s.
Proof.
  intros Hnd Hgs Hz Hs [Hi Hmax].
  apply list_elem_of_lookup in Hgs as Hj. destruct Hj as [j Hj].
  destruct (Hmax j _ Hj) as [Hle _]. cbn [snd] in Hle.
  apply list_elem_of_lookup_2 in Hi.
  assert (Hg : mg = g).
  { destruct (decide (mg = g)) as [|Hne]; [done|]. exfalso.
    specialize (Hz _ Hi Hne). cbn [snd] in Hz. lia. }
  split; [done|]. subst mg.
  rewrite <- (dict_get_lookup _ g _ 0 Hnd Hi).
  apply (dict_get_lookup _ g _ 0 Hnd Hgs).
Qed.

Lemma scores_single_group (content filename g : list N) (kws : list (list N)) :
  (g, kws) ∈ KEYWORDS ->
  (forall g' kws' kw', (g', kws') ∈ KEYWORDS -> g' <> g -> kw' ∈ kws' ->
     text_occurrences kw' content = 0 /\ ~ occurs_ci kw' filename) ->
  forall x, x ∈ scores (classify content filename) -> x.1 <> g -> x.2 = 0.
Proof.
  intros Hin Hothers x Hx Hne. rewrite scores_spec in Hx.
  apply list_elem_of_fmap in Hx as ([g' kws'] & -> & Hin').
  cbn [fst snd] in Hne |- *.
  apply group_score_zero. intros kw' Hkw'. by apply (Hothers g' kws').
Qed.

Lemma single_group_confident (content filename g : list N) (kws : list (list N))
    (kw : list N) :
  let r := classify content filename in
  (g, kws) ∈ KEYWORDS -> kw ∈ kws -> 5 <= text_occurrences kw content ->
  (forall g' kws' kw', (g', kws') ∈ KEYWORDS -> g' <> g -> kw' ∈ kws' ->
     text_occurrences kw' content = 0 /\ ~ occurs_ci kw' filename) ->
  main_group r = g /\ confidence r = cao.
Proof.
  cbv zeta. intros Hin Hkw H5 Hothers.
  pose proof (group_score_ge kws content filename kw Hkw) as Hge.
  assert (Hgs : (g, group_score kws content filename)
                ∈ scores (classify content filename)).
  { rewrite scores_spec. apply list_elem_of_fmap. by exists (g, kws). }
  pose proof (scores_single_group content filename g kws Hin Hothers) as Hz.
  assert (Hnd : NoDup (scores (classify content filename)).*1).
  { rewrite scores_groups. apply KEYWORDS_groups_NoDup. }
  assert (Hs : 0 < group_score kws content filename) by lia.
  assert (Hex : exists x, x ∈ scores (classify content filename) /\ 0 < x.2).
  { eexists. split; [exact Hgs|exact Hs]. }
  destruct (positive_score_total content filename Hex) as [Hany Ht].
  destruct (classify_confidence_of content filename Hany) as (i & Hfm & Hc).
  destruct (single_positive_first_max _ _ _ _ _ _ Hnd Hgs Hz Hs Hfm) as [Hg Hm].
  split; [done|]. rewrite Hc, Hm, (total_score_single _ _ _ Hnd Hgs Hz).
  apply confidence_of_tiers; [lia|]. split; lia.
Qed.

(** C2: when some group has a positive score, the confidence is 'cao'
    exactly when the largest score is at least 5 and more than 0.6 of the sum
    of the scores, otherwise 'trung_binh' exactly when the largest score is at
    least 2, otherwise 'thap'.  In particular a document in which a keyword
    of one group occurs 5 times (or more), and in which no keyword of another
    group is found, in the text or in the file name, is classified in that
    group with confidence 'cao'. *)
Theorem classify_confidence (content filename : list N) :
  let r := classify content filename in
  let m := max_score (scores r) in
  let t := total_score (scores r) in
  ((exists x, x ∈ scores r /\ 0 < x.2) ->
     (confidence r = cao <-> dominant m t) /\
     (confidence r = trung_binh <-> ~ dominant m t /\ 2 <= m) /\
     (confidence r = thap <-> ~ dominant m t /\ m < 2)) /\
  (forall g kws kw,
     (g, kws) ∈ KEYWORDS -> kw ∈ kws -> 5 <= text_occurrences kw content ->
     (forall g' kws' kw', (g', kws') ∈ KEYWORDS -> g' <> g -> kw' ∈ kws' ->
        text_occurrences kw' content = 0 /\ ~ occurs_ci kw' filename) ->
     main_group r = g /\ confidence r = cao).
Proof.
  intros r m t. split.
  - apply confidence_tiers.
  - intros g kws kw. apply single_group_confident.
Qed.

(** Five times the keyword "căn hộ" and nothing else. *)
Lemma classify_confidence_witness :
  main_group (classify (u "căn hộ, căn hộ, căn hộ, Căn hộ, CĂN HỘ") []) = u "chung_cu" /\
  confidence (classify (u "căn hộ, căn hộ, căn hộ, Căn hộ, CĂN HỘ") []) = cao.
Proof.
  apply (proj2 (classify_confidence (u "căn hộ, căn hộ, căn hộ, Căn hộ, CĂN HỘ") [])
           (u "chung_cu") (nth 2 KEYWORDS.*2 []) (u "căn hộ")).
  - apply list_elem_of_In. vm_compute. tauto.
  - apply list_elem_of_In. vm_compute. tauto.
  - vm_compute. discriminate.
  - assert (H : Forall (fun gk : list N * list (list N) => gk.1 <> u "chung_cu" ->
                  Forall (fun kw' =>
                            text_occurrences kw'
                              (u "căn hộ, căn hộ, căn hộ, Căn hộ, CĂN HỘ") = 0
                            /\ ~ occurs_ci kw' []) gk.2) KEYWORDS).
    { apply (bool_decide_unpack _). vm_compute. exact I. }
    intros g' kws' kw' Hin Hne Hkw. rewrite Forall_forall in H.
    specialize (H _ Hin Hne). rewrite Forall_forall in H. by apply H.
Defined.

End Confidence.

(** ** Whitespace, case and tokens *)

Section SpaceFacts.
Local Open Scope N_scope.

Lemma in_range_true (lo hi c : N) : in_range lo hi c = true <-> lo <= c <= hi.
Proof. unfold in_range. rewrite andb_true_iff, !N.leb_le. done. Qed.

Lemma is_space_bounds (c : N) :
  is_space c = true ->
  c <= 32 \/ c = 133 \/ c = 160 \/ c = 5760 \/ 8192 <= c <= 12288.
Proof.
  unfold is_space. rewrite !orb_true_iff, !in_range_true, !N.eqb_eq. lia.
Qed.

(** A character that [char_lower] changes, and its image, lie in letter
    ranges. *)
Definition letter_range (c : N) : Prop :=
  65 <= c <= 122 \/ 192 <= c <= 432 \/ 7680 <= c <= 7936.

Lemma char_lower_cases (c : N) :
  char_lower c = c \/ (letter_range c /\ letter_range (char_lower c)).
Proof.
  unfold char_lower, letter_range.
  repeat match goal with
  | |- context [if ?b then _ else _] =>
    let E := fresh "E" in
    destruct b eqn:E;
    [ rewrite ?andb_true_iff, ?orb_true_iff, ?in_range_true, ?N.eqb_eq in E; right; lia
    | clear E ]
  end.
  by left.
Qed.

Lemma letter_not_space (c : N) : letter_range c -> is_space c = false.
Proof.
  intros H. apply not_true_iff_false. intros Hs%is_space_bounds.
  unfold letter_range in H. lia.
Qed.

Lemma is_space_char_lower (c : N) : is_space (char_lower c) = is_space c.
Proof.
  destruct (char_lower_cases c) as [->|[H1 H2]]; [done|].
  by rewrite !letter_not_space.
Qed.

End SpaceFacts.

Section StripFacts.

Lemma drop_while_lower (s : list N) :
  drop_while is_space (lower s) = lower (drop_while is_space s).
Proof.
  induction s as [|c s IH]; simpl; [done|].
  rewrite is_space_char_lower. by destruct (is_space c).
Qed.

Lemma lower_rev (s : list N) : lower (rev s) = rev (lower s).
Proof. unfold lower. by rewrite map_rev. Qed.

(** [strip] and [lower] commute. *)
Lemma strip_lower (s : list N) : strip (lower s) = lower (strip s).
Proof.
  unfold strip, rstrip, lstrip, rstrip_by.
  by rewrite drop_while_lower, <- lower_rev, drop_while_lower, lower_rev.
Qed.

Lemma drop_while_app_keep (p : N -> bool) (a rest : list N) (c : N) :
  head rest = Some c -> p c = false ->
  exists a', drop_while p (a ++ rest) = a' ++ rest.
Proof.
  intros Hh Hc. induction a as [|x a IH]; simpl.
  - exists []. destruct rest as [|y rest]; [done|]. injection Hh as ->.
    simpl. by rewrite Hc.
  - destruct (p x); [apply IH|]. by exists (x :: a).
Qed.

(** A word without whitespace that occurs in a string still occurs in it
    once the string is stripped. *)
Lemma contains_strip (w s : list N) :
  w <> [] -> Forall (fun c => is_space c = false) w ->
  contains w s = true -> contains w (strip s) = true.
Proof.
  intros Hw Hns (a & b & ->)%contains_true.
  destruct w as [|c w]; [done|]. clear Hw.
  destruct (drop_while_app_keep is_space a ((c :: w) ++ b) c eq_refl) as [a' Ha'].
  { by apply Forall_cons in Hns as [? _]. }
  assert (Hlast : exists d, head (rev (c :: w) ++ rev a') = Some d /\ is_space d = false).
  { destruct (rev (c :: w)) as [|d t] eqn:E.
    - apply (f_equal (@length N)) in E. rewrite length_rev in E. done.
    - exists d. split; [done|]. rewrite Forall_forall in Hns. apply Hns.
      apply list_elem_of_In, in_rev. rewrite E. by left. }
  destruct Hlast as (d & Hd & Hsd).
  destruct (drop_while_app_keep is_space (rev b) _ d Hd Hsd) as [b' Hb'].
  apply contains_true. exists a', (rev b').
  unfold strip, rstrip, lstrip, rstrip_by. rewrite Ha'.
  rewrite !rev_app_distr, <- app_assoc, Hb'.
  rewrite !rev_app_distr, !rev_involutive, <- !app_assoc. done.
Qed.

Lemma split_ws_aux_tokens (cur s : list N) :
  Forall (fun c => is_space c = false) cur ->
  Forall (fun w => w <> [] /\ Forall (fun c => is_space c = false) w)
         (split_ws_aux cur s).
Proof.
  revert cur. induction s as [|c s IH]; intros cur Hcur; simpl.
  - destruct cur as [|x cur]; [constructor|].
    constructor; [|constructor]. split.
    + intros E. apply (f_equal (@length N)) in E. rewrite length_rev in E. done.
    + by apply Forall_rev.
  - destruct (is_space c) eqn:Ec.
    + destruct cur as [|x cur]; [by apply IH|].
      constructor; [|by apply IH]. split.
      * intros E. apply (f_equal (@length N)) in E. rewrite length_rev in E. done.
      * by apply Forall_rev.
    + apply IH. by constructor.
Qed.

(** The tokens of [s.split()] are non-empty and hold no whitespace. *)
Lemma split_ws_tokens (s w : list N) :
  w ∈ split_ws s -> w <> [] /\ Forall (fun c => is_space c = false) w.
Proof.
  intros Hw. pose proof (split_ws_aux_tokens [] s (Forall_nil_2 _)) as H.
  rewrite Forall_forall in H. by apply H.
Qed.

End StripFacts.

(** ** Document search (qa_system.py) *)

Section SearchFacts.
Import QA.

Lemma insert_by_score_perm (x : result_item) (l : list result_item) :
  insert_by_score x l ≡ₚ x :: l.
Proof.
  induction l as [|y l IH]; simpl; [done|].
  destruct (match_score x <? match_score y); [|done].
  rewrite IH. apply Permutation_swap.
Qed.

Lemma sort_by_score_perm (l : list result_item) : sort_by_score l ≡ₚ l.
Proof.
  induction l as [|x l IH]; simpl; [done|].
  rewrite insert_by_score_perm. by constructor.
Qed.

(** [a] is listed before [b]: its match count is not smaller. *)
Definition score_ge (a b : result_item) : Prop := match_score b <= match_score a.

Lemma insert_by_score_sorted (x : result_item) (s : list result_item) :
  StronglySorted score_ge s -> StronglySorted score_ge (insert_by_score x s).
Proof.
  induction 1 as [|y s Hs IH Hy]; simpl; [repeat constructor|].
  destruct (match_score x <? match_score y) eqn:E.
  - apply Z.ltb_lt in E. constructor; [done|].
    rewrite insert_by_score_perm. constructor; [|done]. unfold score_ge. lia.
  - apply Z.ltb_ge in E. constructor; [by constructor|].
    constructor; [done|].
    rewrite Forall_forall in Hy |- *. intros z Hz. specialize (Hy z Hz).
    unfold score_ge in *. lia.
Qed.

Lemma sort_by_score_sorted (l : list result_item) :
  StronglySorted score_ge (sort_by_score l).
Proof.
  induction l as [|x l IH]; simpl; [constructor|].
  by apply insert_by_score_sorted.
Qed.

Lemma slice_to_nonneg {A : Type} (n : Z) (l : list A) :
  0 <= n -> slice_to n l = take (Z.to_nat n) l.
Proof. intros H. unfold slice_to. by rewrite (proj2 (Z.leb_le 0 n) H). Qed.

(** The search reads the first [max_docs] documents only. *)
Lemma search_in_capped (documents : list document) (question : list N) (max_docs : Z) :
  0 <= max_docs ->
  search_in documents question max_docs
  = search_in (take (Z.to_nat max_docs) documents) question max_docs.
Proof.
  intros H. unfold search_in. rewrite !slice_to_nonneg by done.
  rewrite take_take, Nat.min_id.
  destruct documents as [|d ds]; [by rewrite take_nil|].
  destruct (take (Z.to_nat max_docs) (d :: ds)) eqn:E; [|done].
  done.
Qed.

Lemma search_in_elem (documents : list document) (question : list N) (max_docs : Z)
    (r : result_item) :
  0 <= max_docs ->
  r ∈ search_in documents question max_docs ->
  exists doc, doc ∈ take (Z.to_nat max_docs) documents /\
    search_one (split_ws (lower question)) doc = Some r.
Proof.
  intros H. unfold search_in. destruct documents as [|d ds].
  { intros Hr. by apply elem_of_nil in Hr. }
  rewrite sort_by_score_perm, slice_to_nonneg by done.
  intros (doc & Hdoc & Hs)%list_elem_of_omap. by exists doc.
Qed.

Lemma relevant_paragraphs_elem (kws : list (list N)) (content line : list N) :
  line ∈ relevant_paragraphs kws content ->
  exists para, para ∈ split_on 10%N content /\ line = strip para /\
    (20 < length line)%nat /\
    exists kw, kw ∈ kws /\ contains kw (lower para) = true.
Proof.
  unfold relevant_paragraphs. intros (para & Hp & Hsome)%list_elem_of_omap.
  destruct (existsb _ kws) eqn:Ek; simpl in Hsome; [|done].
  destruct (20 <? length (strip para))%nat eqn:El; [|done].
  injection Hsome as <-. apply Nat.ltb_lt in El.
  apply existsb_elem_of in Ek as (kw & Hkw & Hc).
  exists para. repeat split; try done. by exists kw.
Qed.

(** What [search_one] puts in a result. *)
Lemma search_one_some (kws : list (list N)) (doc : document) (r : result_item) :
  search_one kws doc = Some r ->
  relevant_text r = take 3 (relevant_paragraphs kws (doc_content doc)) /\
  relevant_text r <> [] /\
  match_score r = count_matches kws (lower (doc_content doc)) /\
  0 < match_score r /\
  r_filename r = doc_filename doc /\ full_content r = doc_content doc.
Proof.
  unfold search_one. destruct (0 <? count_matches _ _) eqn:E; [|done].
  apply Z.ltb_lt in E.
  destruct (relevant_paragraphs kws (doc_content doc)) as [|p ps] eqn:Ep; [done|].
  intros [= <-]. simpl. repeat split; try done.
Qed.

(** [w] is a substring of [s]. *)
Definition occurs_in (w s : list N) : Prop := exists a b, s = a ++ w ++ b.

#[global] Instance occurs_in_dec (w s : list N) : Decision (occurs_in w s).
Proof.
  refine (cast_if (decide (contains w s = true))); unfold occurs_in;
    by rewrite <- contains_true.
Defined.

(** The number of entries of [tokens] (repeated tokens counted as often as
    they are repeated) that are substrings of [text]. *)
Definition tokens_found (tokens : list (list N)) (text : list N) : Z :=
  Z.of_nat (length (filter (fun token => occurs_in token text) tokens)).

Lemma count_matches_found (tokens : list (list N)) (text : list N) :
  count_matches tokens text = tokens_found tokens text.
Proof.
  unfold count_matches, tokens_found. do 2 f_equal.
  apply list_filter_iff_in. intros token _. unfold occurs_in.
  by rewrite contains_true.
Qed.

Lemma search_one_fields (kws : list (list N)) (doc : document) (r : result_item) :
  search_one kws doc = Some r ->
  r_id r = doc_id doc /\ r_category r = doc_category doc /\
  r_document_type r = kept (doc_document_type doc) /\
  r_issuing_agency r = kept (doc_issuing_agency doc) /\
  r_issue_date r = kept (doc_issue_date doc).
Proof.
  unfold search_one. destruct (0 <? count_matches _ _); [|done].
  destruct (relevant_paragraphs kws (doc_content doc)) as [|p ps]; [done|].
  intros [= <-]. simpl. by rewrite !truthy_kept.
Qed.

(** C5: for a non-negative [max_docs], the search reads only the first
    [max_docs] documents of the listing, so that every result comes from one
    of them, with its file name, id, category and metadata; the relevant
    text of a result is non-empty and has at most 3 lines, each of them a
    stripped line of the document, longer than 20 characters, whose lowercase
    form holds a token of the lowercased question; the match count of a
    result is the number of question tokens that are substrings of the
    lowercase text of its document, at least 1, and the results are listed by
    descending match count. *)
Theorem search_documents_spec (db : option DocumentDB) (question : list N)
    (category : option (list N)) (max_docs : Z) :
  0 <= max_docs ->
  let documents := get_documents_by_group db category in
  let considered := take (Z.to_nat max_docs) documents in
  let tokens := split_ws (lower question) in
  let results := search_documents db question category max_docs in
  results = search_in considered question max_docs /\
  (forall r, r ∈ results ->
     (exists doc, doc ∈ considered /\ full_content r = doc_content doc /\
        match_score r = count_matches tokens (lower (doc_content doc)) /\
        match_score r = tokens_found tokens (lower (doc_content doc)) /\
        1 <= match_score r /\
        r_filename r = doc_filename doc /\ r_id r = doc_id doc /\
        r_category r = doc_category doc /\
        r_document_type r = kept (doc_document_type doc) /\
        r_issuing_agency r = kept (doc_issuing_agency doc) /\
        r_issue_date r = kept (doc_issue_date doc)) /\
     relevant_text r <> [] /\ (length (relevant_text r) <= 3)%nat /\
     forall line, line ∈ relevant_text r ->
       (exists para, para ∈ split_on 10%N (full_content r) /\ line = strip para) /\
       (20 < length line)%nat /\
       exists token, token ∈ tokens /\ contains token (lower line) = true /\
         occurs_in token (lower line)) /\
  StronglySorted score_ge results /\
  (forall (i j : nat) a b, (i < j)%nat -> results !! i = Some a -> results !! j = Some b ->
     match_score b <= match_score a).
Proof.
  intros Hmax documents considered tokens results.
  split; [by apply search_in_capped|].
  assert (Hsorted : StronglySorted score_ge results).
  { unfold results, search_documents, search_in.
    destruct (get_documents_by_group db category); [constructor|].
    apply sort_by_score_sorted. }
  split; [|split; [exact Hsorted|]].
  - intros r Hr. apply search_in_elem in Hr as (doc & Hdoc & Hone); [|done].
    pose proof (search_one_fields _ _ _ Hone) as (Hid & Hcat & Hdt & Hia & Hdate).
    apply search_one_some in Hone as (Hrt & Hne & Hms & Hpos & Hfn & Hfc).
    split.
    { exists doc. split; [done|]. split; [done|]. split; [done|].
      split; [by rewrite Hms, count_matches_found|]. split; [lia|]. done. }
    split; [done|].
    split; [rewrite Hrt, length_take; lia|].
    intros line Hline. rewrite Hrt in Hline.
    assert (Hl : line ∈ relevant_paragraphs tokens (doc_content doc)).
    { rewrite <- (take_drop 3 (relevant_paragraphs _ _)). apply elem_of_app. by left. }
    apply relevant_paragraphs_elem in Hl as (para & Hp & -> & Hlen & kw & Hkw & Hc).
    split; [exists para; by rewrite Hfc|]. split; [done|].
    exists kw. split; [done|].
    destruct (split_ws_tokens _ _ Hkw) as [Hne' Hns].
    assert (Hcs : contains kw (lower (strip para)) = true)
      by (rewrite <- strip_lower; by apply contains_strip).
    split; [done|]. by apply contains_true.
  - clearbody results. clear -Hsorted. intros i j a b Hij Hi Hj.
    revert i j Hij Hi Hj. induction Hsorted as [|x l Hl IH Hx]; intros i j Hij Hi Hj;
      [done|].
    destruct j as [|j]; [lia|]. destruct i as [|i].
    + injection Hi as <-. rewrite Forall_forall in Hx.
      apply (Hx b). simpl in Hj. by apply list_elem_of_lookup_2 in Hj.
    + simpl in Hi, Hj. apply (IH i j); [lia|done|done].
Qed.

(** Six stored documents: the sixth holds both question tokens, the first
    five hold one. *)
Definition six_documents : DocumentDB :=
  {| get_documents_by_category := fun _ => Some [];
     get_all_documents :=
       Some (map (fun id => DbRow id (u "doc.txt") (u "Khac") None None None)
                 [1; 2; 3; 4; 5; 6]);
     get_document := fun id =>
       Some (Some (if id =? 6 then u "Tuyến metro số 1 Bến Thành - Suối Tiên"
                   else u "Quy hoạch tuyến đường sắt đô thị")) |}.

(** Three stored documents: the third holds both question tokens and the
    token "metro" twice, the other two hold one token. *)
Definition ranked_documents : DocumentDB :=
  {| get_documents_by_category := fun _ => Some [];
     get_all_documents :=
       Some (map (fun id => DbRow id (u "doc.txt") (u "Khac") None None None)
                 [1; 2; 3]);
     get_document := fun id =>
       Some (Some (if id =? 3 then u "Tuyến metro số 1, metro Bến Thành - Suối Tiên"
                   else u "Quy hoạch tuyến đường sắt đô thị")) |}.

(** The sixth document is not searched, although it matches more tokens than
    the five that are; among three documents the one that matches two tokens
    comes first, and a token repeated in the question counts twice. *)
Lemma search_documents_spec_witness :
  map r_id (search_documents (Some six_documents) (u "tuyến metro") None 5)
    = [1; 2; 3; 4; 5] /\
  map match_score (search_documents (Some six_documents) (u "tuyến metro") None 5)
    = [1; 1; 1; 1; 1] /\
  StronglySorted score_ge
    (search_documents (Some six_documents) (u "tuyến metro") None 5) /\
  map (fun r => (r_id r, match_score r))
      (search_documents (Some ranked_documents) (u "tuyến metro") None 5)
    = [(3, 2); (1, 1); (2, 1)] /\
  map (fun r => (r_id r, match_score r))
      (search_documents (Some ranked_documents) (u "metro tuyến METRO") None 5)
    = [(3, 3); (1, 1); (2, 1)].
Proof.
  assert (H5 : 0 <= 5) by lia.
  destruct (search_documents_spec (Some six_documents) (u "tuyến metro") None 5 H5)
    as (H1 & _ & H3 & _).
  destruct (search_documents_spec (Some ranked_documents) (u "tuyến metro") None 5 H5)
    as (H4 & _).
  destruct (search_documents_spec (Some ranked_documents) (u "metro tuyến METRO") None 5 H5)
    as (H6 & _).
  split; [|split; [|split; [exact H3|split]]].
  - rewrite H1. vm_compute. reflexivity.
  - rewrite H1. vm_compute. reflexivity.
  - rewrite H4. vm_compute. reflexivity.
  - rewrite H6. vm_compute. reflexivity.
Defined.

End SearchFacts.

(** ** What a successful run of the matcher has read *)

Section MatcherFacts.
Import Re.

(** [matches ic r p c]: the pattern [r] can read exactly the text [p],
    capturing the groups [c]. *)
Inductive matches (ic : bool) : regex -> list N -> list (list N) -> Prop :=
| M_Eps : matches ic Eps [] []
| M_One a c : atom_match ic a c = true -> matches ic (One a) [c] []
| M_Rep a lo hi p :
    Forall (fun c => atom_match ic a c = true) p ->
    (lo <= length p)%nat ->
    (forall n, hi = Some n -> (length p <= n)%nat) ->
    matches ic (Rep a lo hi) p []
| M_Cat r1 r2 p1 p2 c1 c2 :
    matches ic r1 p1 c1 -> matches ic r2 p2 c2 ->
    matches ic (Cat r1 r2) (p1 ++ p2) (c1 ++ c2)
| M_AltL r1 r2 p c : matches ic r1 p c -> matches ic (Alt r1 r2) p c
| M_AltR r1 r2 p c : matches ic r2 p c -> matches ic (Alt r1 r2) p c
| M_Grp r p c : matches ic r p c -> matches ic (Grp r) p (c ++ [p]).

Lemma rep_sound {A : Type} (ic : bool) (a : atom) (lo : nat) (hi : option nat)
    (s : list N) (k : list N -> option A) (x : A) :
  rep ic a lo hi s k = Some x ->
  exists p s', s = p ++ s' /\ matches ic (Rep a lo hi) p [] /\ k s' = Some x.
Proof.
  revert lo hi. induction s as [|c s IH]; intros lo hi H; simpl in H.
  - destruct lo; [|done]. exists [], []. repeat split; [|done].
    constructor; [constructor|simpl; lia|intros; simpl; lia].
  - assert (Hstop : (if lo is O then k (c :: s) else None) = Some x ->
                    exists p s', c :: s = p ++ s' /\ matches ic (Rep a lo hi) p []
                                 /\ k s' = Some x).
    { destruct lo; [|done]. intros Hk. exists [], (c :: s). repeat split; [|done].
      constructor; [constructor|simpl; lia|intros; simpl; lia]. }
    destruct (more_allowed hi && atom_match ic a c) eqn:E; [|by apply Hstop].
    apply andb_true_iff in E as [Hmore Hc].
    destruct (rep ic a (pred lo) (dec_bound hi) s k) as [y|] eqn:Er; [|by apply Hstop].
    injection H as ->.
    destruct (IH _ _ Er) as (p & s' & -> & Hm & Hk).
    exists (c :: p), s'. repeat split; [|done].
    inversion Hm as [| |? ? ? ? Hall Hlo Hhi| | | |]; subst.
    constructor; [by constructor|simpl; lia|].
    intros n ->. simpl in *. destruct n; [done|].
    specialize (Hhi n eq_refl). lia.
Qed.

(** Soundness of the matcher: when a run succeeds, the text splits into a
    part read by the pattern and the rest, handed to the continuation with
    the groups of the pattern added. *)
Lemma run_sound {A : Type} (ic : bool) (r : regex) (s : list N)
    (caps : list (list N)) (k : list N -> list (list N) -> option A) (x : A) :
  run ic r s caps k = Some x ->
  exists p s' c, s = p ++ s' /\ matches ic r p c /\ k s' (caps ++ c) = Some x.
Proof.
  revert s caps k. induction r as [|a|a lo hi|r1 IH1 r2 IH2|r1 IH1 r2 IH2|r1 IH1];
    intros s caps k H; simpl in H.
  - exists [], s, []. rewrite app_nil_r. repeat split; [constructor|done].
  - destruct s as [|c s]; [done|]. destruct (atom_match ic a c) eqn:E; [|done].
    exists [c], s, []. rewrite app_nil_r. repeat split; [by constructor|done].
  - apply rep_sound in H as (p & s' & -> & Hm & Hk).
    exists p, s', []. by rewrite app_nil_r.
  - apply IH1 in H as (p1 & s1 & c1 & -> & Hm1 & H).
    apply IH2 in H as (p2 & s2 & c2 & -> & Hm2 & H).
    exists (p1 ++ p2), s2, (c1 ++ c2). rewrite <- !app_assoc in *.
    repeat split; [by constructor|done].
  - destruct (run ic r1 s caps k) as [y|] eqn:E.
    + injection H as ->. apply IH1 in E as (p & s' & c & -> & Hm & Hk).
      exists p, s', c. repeat split; [by apply M_AltL|done].
    + apply IH2 in H as (p & s' & c & -> & Hm & Hk).
      exists p, s', c. repeat split; [by apply M_AltR|done].
  - apply IH1 in H as (p & s' & c & -> & Hm & Hk).
    exists p, s', (c ++ [p]). repeat split; [by constructor|].
    rewrite length_app, Nat.add_sub, take_app_length in Hk.
    by rewrite <- app_assoc in Hk.
Qed.

Lemma match_here_sound (ic : bool) (r : regex) (s rest : list N)
    (groups : list (list N)) :
  match_here ic r s = Some (rest, groups) ->
  exists p, s = p ++ rest /\ matches ic r p groups.
Proof.
  intros (p & s' & c & -> & Hm & [= <- <-])%run_sound. by exists p.
Qed.

(** Every match that [finditer] lists was found by [match_here] at some
    position of the text. *)
Lemma finditer_from_elem (ic : bool) (r : regex) (pos skip : nat) (s : list N)
    (mt : rmatch) :
  mt ∈ finditer_from ic r pos skip s ->
  exists before p rest, s = before ++ p ++ rest /\
    matches ic r p (m_groups mt) /\ m_whole mt = p.
Proof.
  revert pos skip. induction s as [|c s IH]; intros pos skip Hin.
  - destruct skip; simpl in Hin; [|by apply elem_of_nil in Hin].
    destruct (match_here ic r []) as [[rest groups]|] eqn:E;
      [|by apply elem_of_nil in Hin].
    apply list_elem_of_singleton in Hin as ->.
    apply match_here_sound in E as (p & Hp & Hm).
    destruct p; [|done]. exists [], [], rest. done.
  - assert (Hrec : forall pos' skip', mt ∈ finditer_from ic r pos' skip' s ->
              exists before p rest, c :: s = before ++ p ++ rest /\
                matches ic r p (m_groups mt) /\ m_whole mt = p).
    { intros pos' skip' H. destruct (IH _ _ H) as (b & p & rest & -> & Hm & Hw).
      by exists (c :: b), p, rest. }
    destruct skip as [|n]; simpl in Hin; [|by eapply Hrec].
    destruct (match_here ic r (c :: s)) as [[rest groups]|] eqn:E; [|by eapply Hrec].
    apply elem_of_cons in Hin as [->|Hin]; [|by eapply Hrec].
    apply match_here_sound in E as (p & Hp & Hm).
    exists [], p, rest. repeat split; try done.
    unfold mk_match. cbn [m_whole fst]. rewrite Hp, length_app, Nat.add_sub.
    by rewrite take_app_length.
Qed.

(** The first match of [finditer] is the match of [search]. *)
Lemma finditer_from_head (ic : bool) (r : regex) (pos : nat) (s : list N) :
  head (finditer_from ic r pos 0 s) = search_from ic r pos s.
Proof.
  revert pos. induction s as [|c s IH]; intros pos; simpl.
  - by destruct (match_here ic r []).
  - destruct (match_here ic r (c :: s)); [done|apply IH].
Qed.

Lemma search_from_sound (ic : bool) (r : regex) (pos : nat) (s : list N) (mt : rmatch) :
  search_from ic r pos s = Some mt ->
  exists before p rest, s = before ++ p ++ rest /\
    matches ic r p (m_groups mt) /\ m_whole mt = p.
Proof.
  rewrite <- finditer_from_head. intros H.
  apply (finditer_from_elem ic r pos 0). by apply head_Some_elem_of.
Qed.

End MatcherFacts.

(** ** Issue dates (metadata_extractor.py) *)

Section DateShapes.
Import Re Metadata.

Definition digits (s : list N) : Prop := Forall (fun c => is_digit c = true) s.

(** A pattern without capture groups. *)
Fixpoint no_groups (r : regex) : bool :=
  match r with
  | Eps | One _ | Rep _ _ _ => true
  | Cat r1 r2 | Alt r1 r2 => no_groups r1 && no_groups r2
  | Grp _ => false
  end.

Lemma matches_no_groups (ic : bool) (r : regex) (p : list N) (c : list (list N)) :
  no_groups r = true -> matches ic r p c -> c = [].
Proof.
  intros Hn Hm. induction Hm; simpl in Hn; try done.
  - apply andb_true_iff in Hn as [H1 H2]. by rewrite IHHm1, IHHm2.
  - apply andb_true_iff in Hn as [H1 H2]. by apply IHHm.
  - apply andb_true_iff in Hn as [H1 H2]. by apply IHHm.
Qed.

Lemma matches_cat_cons (ic : bool) (r : regex) (rs : list regex) (p : list N)
    (c : list (list N)) :
  matches ic (cat (r :: rs)) p c ->
  exists p1 p2 c1 c2, p = p1 ++ p2 /\ c = c1 ++ c2 /\
    matches ic r p1 c1 /\ matches ic (cat rs) p2 c2.
Proof.
  intros H. inversion H; subst. by eexists _, _, _, _.
Qed.

Lemma matches_cat_nil (ic : bool) (p : list N) (c : list (list N)) :
  matches ic (cat []) p c -> p = [] /\ c = [].
Proof. intros H. by inversion H. Qed.

Lemma atom_match_dg (ic : bool) (c : N) : atom_match ic dg c = is_digit c.
Proof. simpl. by rewrite orb_false_r. Qed.

Lemma atom_match_sp (ic : bool) (c : N) : atom_match ic sp c = is_space c.
Proof. simpl. by rewrite orb_false_r. Qed.

(** A group of [lo] to [hi] digits. *)
Lemma matches_digit_group (ic : bool) (lo hi : nat) (p : list N) (c : list (list N)) :
  matches ic (Grp (times dg lo hi)) p c ->
  c = [p] /\ digits p /\ (lo <= length p <= hi)%nat.
Proof.
  intros H. inversion H as [| | | | | |r' p' c' Hm]; subst.
  inversion Hm as [| |? ? ? ? Hall Hlo Hhi| | | |]; subst.
  split; [done|]. split.
  - eapply Forall_impl; [exact Hall|]. intros x. cbv beta. by rewrite atom_match_dg.
  - split; [done|]. by apply Hhi.
Qed.

Lemma matches_one (ic : bool) (a : atom) (p : list N) (c : list (list N)) :
  matches ic (One a) p c -> exists x, p = [x] /\ c = [] /\ atom_match ic a x = true.
Proof. intros H. inversion H; subst. by eexists. Qed.

Lemma matches_rep (ic : bool) (a : atom) (lo : nat) (hi : option nat) (p : list N)
    (c : list (list N)) :
  matches ic (Rep a lo hi) p c ->
  c = [] /\ Forall (fun x => atom_match ic a x = true) p /\ (lo <= length p)%nat.
Proof. intros H. by inversion H; subst. Qed.

(** The groups of a day-month-year match and of a year-month-day match. *)
Definition shape_dmy (gs : list (list N)) : Prop :=
  exists d m y, gs = [d; m; y] /\ digits d /\ digits m /\ digits y /\
    (1 <= length d <= 2)%nat /\ (1 <= length m <= 2)%nat /\ length y = 4%nat.
Definition shape_ymd (gs : list (list N)) : Prop :=
  exists y m d, gs = [y; m; d] /\ digits d /\ digits m /\ digits y /\
    (1 <= length d <= 2)%nat /\ (1 <= length m <= 2)%nat /\ length y = 4%nat.

Lemma matches_numeric_dmy (ic : bool) (p : list N) (c : list (list N)) :
  matches ic (cat numeric_dmy) p c ->
  shape_dmy c /\
  exists d s1 m s2 y, c = [d; m; y] /\ p = d ++ s1 :: m ++ s2 :: y /\
    atom_match ic date_sep s1 = true /\ atom_match ic date_sep s2 = true.
Proof.
  unfold numeric_dmy. intros H.
  apply matches_cat_cons in H as (d & p1 & cd & c1 & -> & -> & Hd & H).
  apply matches_cat_cons in H as (s1 & p2 & cs1 & c2 & -> & -> & Hs1 & H).
  apply matches_cat_cons in H as (m & p3 & cm & c3 & -> & -> & Hm & H).
  apply matches_cat_cons in H as (s2 & p4 & cs2 & c4 & -> & -> & Hs2 & H).
  apply matches_cat_cons in H as (y & p5 & cy & c5 & -> & -> & Hy & H).
  apply matches_cat_nil in H as [-> ->].
  apply matches_digit_group in Hd as (-> & Hd1 & Hd2).
  apply matches_digit_group in Hm as (-> & Hm1 & Hm2).
  apply matches_digit_group in Hy as (-> & Hy1 & Hy2).
  apply matches_one in Hs1 as (x1 & -> & -> & Hx1).
  apply matches_one in Hs2 as (x2 & -> & -> & Hx2).
  simpl. rewrite app_nil_r. split.
  - exists d, m, y. repeat split; try done; lia.
  - by exists d, x1, m, x2, y.
Qed.

Lemma matches_numeric_ymd (ic : bool) (p : list N) (c : list (list N)) :
  matches ic (cat [Grp (times dg 4 4); One date_sep; Grp (times dg 1 2);
                   One date_sep; Grp (times dg 1 2)]) p c ->
  shape_ymd c.
Proof.
  intros H.
  apply matches_cat_cons in H as (y & p1 & cy & c1 & -> & -> & Hy & H).
  apply matches_cat_cons in H as (s1 & p2 & cs1 & c2 & -> & -> & Hs1 & H).
  apply matches_cat_cons in H as (m & p3 & cm & c3 & -> & -> & Hm & H).
  apply matches_cat_cons in H as (s2 & p4 & cs2 & c4 & -> & -> & Hs2 & H).
  apply matches_cat_cons in H as (d & p5 & cd & c5 & -> & -> & Hd & H).
  apply matches_cat_nil in H as [-> ->].
  apply matches_digit_group in Hd as (-> & Hd1 & Hd2).
  apply matches_digit_group in Hm as (-> & Hm1 & Hm2).
  apply matches_digit_group in Hy as (-> & Hy1 & Hy2).
  apply matches_one in Hs1 as (x1 & -> & -> & Hx1).
  apply matches_one in Hs2 as (x2 & -> & -> & Hx2).
  simpl. exists y, m, d. repeat split; try done; lia.
Qed.

Lemma no_groups_lit (w : list N) : no_groups (lit w) = true.
Proof. induction w as [|a w IH]; simpl; [done|exact IH]. Qed.

Lemma matches_verbose_dmy (ic : bool) (p : list N) (c : list (list N)) :
  matches ic (cat verbose_dmy) p c ->
  shape_dmy c /\
  exists d w rest, hd [] c = d /\ p = d ++ w :: rest /\ is_space w = true.
Proof.
  unfold verbose_dmy. intros H.
  apply matches_cat_cons in H as (d & p1 & cd & c1 & -> & -> & Hd & H).
  apply matches_cat_cons in H as (w1 & p2 & cw1 & c2 & -> & -> & Hw1 & H).
  apply matches_cat_cons in H as (t & p3 & ct & c3 & -> & -> & Ht & H).
  apply matches_cat_cons in H as (w2 & p4 & cw2 & c4 & -> & -> & Hw2 & H).
  apply matches_cat_cons in H as (m & p5 & cm & c5 & -> & -> & Hm & H).
  apply matches_cat_cons in H as (w3 & p6 & cw3 & c6 & -> & -> & Hw3 & H).
  apply matches_cat_cons in H as (n & p7 & cn & c7 & -> & -> & Hn & H).
  apply matches_cat_cons in H as (w4 & p8 & cw4 & c8 & -> & -> & Hw4 & H).
  apply matches_cat_cons in H as (y & p9 & cy & c9 & -> & -> & Hy & H).
  apply matches_cat_nil in H as [-> ->].
  apply matches_digit_group in Hd as (-> & Hd1 & Hd2).
  apply matches_digit_group in Hm as (-> & Hm1 & Hm2).
  apply matches_digit_group in Hy as (-> & Hy1 & Hy2).
  apply matches_rep in Hw1 as (-> & Hs1 & Hl1).
  apply matches_rep in Hw2 as (-> & _ & _).
  apply matches_rep in Hw3 as (-> & _ & _).
  apply matches_rep in Hw4 as (-> & _ & _).
  apply (matches_no_groups _ _ _ _ (no_groups_lit _)) in Ht as ->.
  apply (matches_no_groups _ _ _ _ (no_groups_lit _)) in Hn as ->.
  simpl. split.
  - exists d, m, y. repeat split; try done; lia.
  - destruct w1 as [|w w1]; [simpl in Hl1; lia|].
    apply Forall_cons in Hs1 as [Hw _]. rewrite atom_match_sp in Hw.
    exists d, w, (w1 ++ t ++ w2 ++ m ++ w3 ++ n ++ w4 ++ y).
    repeat split; try done. by rewrite app_nil_r.
Qed.

End DateShapes.

Section DateFormat.
Import Re Metadata.

Lemma priority_pattern_shape (pat : regex) (p : list N) (c : list (list N)) :
  pat ∈ priority_patterns -> matches true pat p c -> shape_dmy c.
Proof.
  unfold priority_patterns. intros Hin Hm.
  assert (Hx : no_groups ban_hanh_or_ngay = true) by (by vm_compute).
  apply elem_of_cons in Hin as [->|Hin];
    [|apply list_elem_of_singleton in Hin as ->];
    apply matches_cat_cons in Hm as (p1 & p2 & c1 & c2 & -> & -> & H1 & Hm);
    apply matches_cat_cons in Hm as (p3 & p4 & c3 & c4 & -> & -> & H3 & Hm);
    apply (matches_no_groups _ _ _ _ Hx) in H1 as ->;
    apply matches_rep in H3 as (-> & _ & _); simpl.
  - by apply matches_numeric_dmy in Hm as [? _].
  - by apply matches_verbose_dmy in Hm as [? _].
Qed.

Lemma date_pattern_shape (pat : regex) (p : list N) (c : list (list N)) :
  pat ∈ date_patterns -> matches true pat p c -> shape_dmy c \/ shape_ymd c.
Proof.
  unfold date_patterns. intros Hin Hm.
  apply elem_of_cons in Hin as [->|Hin].
  { left. by apply matches_numeric_dmy in Hm as [? _]. }
  apply elem_of_cons in Hin as [->|Hin].
  { right. by apply matches_numeric_ymd in Hm. }
  apply elem_of_cons in Hin as [->|Hin].
  { left. by apply matches_verbose_dmy in Hm as [? _]. }
  apply list_elem_of_singleton in Hin as ->. left.
  apply matches_cat_cons in Hm as (p1 & p2 & c1 & c2 & -> & -> & H1 & Hm).
  apply matches_cat_cons in Hm as (p3 & p4 & c3 & c4 & -> & -> & H3 & Hm).
  apply (matches_no_groups _ _ _ _ (no_groups_lit _)) in H1 as ->.
  apply matches_rep in H3 as (-> & _ & _). simpl.
  by apply matches_verbose_dmy in Hm as [? _].
Qed.

(** The first tuple of [re.findall] holds the groups of a match. *)
Lemma findall_groups_head (pat : regex) (s : list N) (gs : list (list N))
    (rest : list (list (list N))) :
  findall_groups true pat s = gs :: rest -> exists p, matches true pat p gs.
Proof.
  unfold findall_groups, finditer. intros H.
  destruct (finditer_from true pat 0 0 s) as [|mt mts] eqn:E; [done|].
  injection H as <- _.
  destruct (finditer_from_elem true pat 0 0 s mt) as (b & p & r & _ & Hm & _).
  { rewrite E. left. }
  by exists p.
Qed.

(** A date written DD/MM/YYYY: two, two and four digits. *)
Definition is_ddmmyyyy (date : list N) : Prop :=
  exists dd mm yyyy, date = dd ++ u "/" ++ mm ++ u "/" ++ yyyy /\
    digits dd /\ digits mm /\ digits yyyy /\
    length dd = 2%nat /\ length mm = 2%nat /\ length yyyy = 4%nat.

Lemma digit_not_sign (c : N) : is_digit c = true -> (c =? 43)%N || (c =? 45)%N = false.
Proof.
  intros H. apply orb_false_iff.
  split; apply N.eqb_neq; intros ->; by vm_compute in H.
Qed.

Lemma zfill2_digits (g : list N) :
  digits g -> (1 <= length g <= 2)%nat ->
  digits (zfill 2 g) /\ length (zfill 2 g) = 2%nat.
Proof.
  intros Hd Hl. destruct g as [|a [|b [|? ?]]]; simpl in Hl; try lia.
  - apply Forall_cons in Hd as [Ha _]. unfold zfill.
    rewrite (digit_not_sign a Ha). simpl. split; [|done].
    constructor; [by vm_compute|by constructor].
  - apply Forall_cons in Hd as [Ha Hb]. unfold zfill.
    rewrite (digit_not_sign a Ha). simpl. split; [|done]. by constructor.
Qed.

Lemma format_date_shape (d m y : list N) :
  digits d -> digits m -> digits y ->
  (1 <= length d <= 2)%nat -> (1 <= length m <= 2)%nat -> length y = 4%nat ->
  is_ddmmyyyy (format_date d m y).
Proof.
  intros Hd Hm Hy Ld Lm Ly.
  destruct (zfill2_digits d Hd Ld) as [? ?]. destruct (zfill2_digits m Hm Lm) as [? ?].
  exists (zfill 2 d), (zfill 2 m), y. done.
Qed.

Lemma priority_loop_some (pats : list regex) (preview date : list N) :
  priority_loop pats preview = Some date ->
  exists pat g0 g1 g2 rest, pat ∈ pats /\
    findall_groups true pat preview = [g0; g1; g2] :: rest /\
    length g2 = 4%nat /\ date = format_date g0 g1 g2.
Proof.
  induction pats as [|pat pats IH]; simpl; [done|]. intros H.
  assert (Hrec : priority_loop pats preview = Some date ->
            exists pat0 g0 g1 g2 rest, pat0 ∈ pat :: pats /\
              findall_groups true pat0 preview = [g0; g1; g2] :: rest /\
              length g2 = 4%nat /\ date = format_date g0 g1 g2).
  { intros (q & g0 & g1 & g2 & rest & Hq & Hr)%IH.
    exists q, g0, g1, g2, rest. split; [by right|done]. }
  destruct (findall_groups true pat preview) as [|[|g0 [|g1 [|g2 [|? ?]]]] rest] eqn:E;
    try by apply Hrec.
  destruct (length g2 =? 4)%nat eqn:El; [|by apply Hrec].
  apply Nat.eqb_eq in El. injection H as <-.
  exists pat, g0, g1, g2, rest. split; [left|done].
Qed.

Lemma date_loop_some (pats : list regex) (preview date : list N) :
  date_loop pats preview = Some date ->
  exists pat g0 g1 g2 rest, pat ∈ pats /\
    findall_groups true pat preview = [g0; g1; g2] :: rest /\
    ((length g2 = 4%nat /\ date = format_date g0 g1 g2) \/
     (length g2 <> 4%nat /\ date = format_date g2 g1 g0)).
Proof.
  induction pats as [|pat pats IH]; simpl; [done|]. intros H.
  assert (Hrec : date_loop pats preview = Some date ->
            exists pat0 g0 g1 g2 rest, pat0 ∈ pat :: pats /\
              findall_groups true pat0 preview = [g0; g1; g2] :: rest /\
              ((length g2 = 4%nat /\ date = format_date g0 g1 g2) \/
               (length g2 <> 4%nat /\ date = format_date g2 g1 g0))).
  { intros (q & g0 & g1 & g2 & rest & Hq & Hr)%IH.
    exists q, g0, g1, g2, rest. split; [by right|done]. }
  destruct (findall_groups true pat preview) as [|[|g0 [|g1 [|g2 [|? ?]]]] rest] eqn:E;
    try by apply Hrec.
  exists pat, g0, g1, g2, rest. split; [left|]. split; [done|].
  destruct (length g2 =? 4)%nat eqn:El; injection H as <-.
  - left. by apply Nat.eqb_eq in El.
  - right. by apply Nat.eqb_neq in El.
Qed.

(** Every extracted date is written DD/MM/YYYY. *)
Lemma issue_date_format (content content_lower date : list N) :
  _extract_issue_date content content_lower = Some date -> is_ddmmyyyy date.
Proof.
  unfold _extract_issue_date.
  destruct (priority_loop priority_patterns (take 1500 content)) as [d|] eqn:Ep.
  - intros [= <-].
    apply priority_loop_some in Ep as (pat & g0 & g1 & g2 & rest & Hin & Hf & _ & ->).
    apply findall_groups_head in Hf as [p Hm].
    apply (priority_pattern_shape _ _ _ Hin) in Hm
      as (d0 & m0 & y0 & [= -> -> ->] & Hd & Hm & Hy & Ld & Lm & Ly).
    by apply format_date_shape.
  - intros (pat & g0 & g1 & g2 & rest & Hin & Hf & Hcase)%date_loop_some.
    apply findall_groups_head in Hf as [p Hm].
    apply (date_pattern_shape _ _ _ Hin) in Hm
      as [(d0 & m0 & y0 & [= -> -> ->] & Hd & Hm & Hy & Ld & Lm & Ly)
         |(y0 & m0 & d0 & [= -> -> ->] & Hd & Hm & Hy & Ld & Lm & Ly)].
    + destruct Hcase as [[_ ->]|[Hne _]]; [|done]. by apply format_date_shape.
    + destruct Hcase as [[H4 _]|[_ ->]]; [lia|]. by apply format_date_shape.
Qed.

(** The patterns anchored to "ban hành" / "ngày" come first: when one of them
    matches, the date is that of its first match, whatever the bare patterns
    would find. *)
Lemma priority_first (content content_lower : list N) (i : nat) (pat : regex)
    (gs : list (list N)) (rest : list (list (list N))) :
  priority_patterns !! i = Some pat ->
  (forall j q, (j < i)%nat -> priority_patterns !! j = Some q ->
     findall_groups true q (take 1500 content) = []) ->
  findall_groups true pat (take 1500 content) = gs :: rest ->
  exists d m y, gs = [d; m; y] /\
    _extract_issue_date content content_lower = Some (format_date d m y).
Proof.
  intros Hi Hbefore Hf.
  assert (Hsh : shape_dmy gs).
  { destruct (findall_groups_head _ _ _ _ Hf) as [p Hm].
    eapply priority_pattern_shape; [|exact Hm]. by eapply list_elem_of_lookup_2. }
  destruct Hsh as (d & m & y & -> & _ & _ & _ & _ & _ & Ly).
  exists d, m, y. split; [done|]. unfold _extract_issue_date.
  assert (Hloop : priority_loop priority_patterns (take 1500 content)
                  = Some (format_date d m y)); [|by rewrite Hloop].
  apply Nat.eqb_eq in Ly.
  unfold priority_patterns in *. destruct i as [|[|i]].
  - assert (Hp : Some pat = Some (cat (ban_hanh_or_ngay :: plus sp :: numeric_dmy)))
      by exact (eq_sym Hi).
    apply (inj Some) in Hp. subst pat. cbn [priority_loop]. by rewrite Hf, Ly.
  - assert (Hp : Some pat = Some (cat (ban_hanh_or_ngay :: plus sp :: verbose_dmy)))
      by exact (eq_sym Hi).
    apply (inj Some) in Hp. subst pat. cbn [priority_loop].
    rewrite (Hbefore 0%nat _ ltac:(lia) eq_refl). by rewrite Hf, Ly.
  - done.
Qed.

End DateFormat.

(** ** Completeness of the matcher *)

Section MatcherComplete.
Import Re.

Lemma rep_complete {A : Type} (ic : bool) (a : atom) (lo : nat) (hi : option nat)
    (p s' : list N) (k : list N -> option A) :
  Forall (fun c => atom_match ic a c = true) p ->
  (lo <= length p)%nat ->
  (forall n, hi = Some n -> (length p <= n)%nat) ->
  is_Some (k s') ->
  is_Some (rep ic a lo hi (p ++ s') k).
Proof.
  intros Hall. revert lo hi.
  induction Hall as [|c p Hc Hall IH]; intros lo hi Hlo Hhi Hk.
  - simpl in Hlo. assert (lo = 0%nat) as -> by lia. simpl.
    destruct s' as [|c s]; simpl; [done|].
    destruct (more_allowed hi && atom_match ic a c); [|done].
    by destruct (rep ic a 0 (dec_bound hi) s k).
  - simpl. assert (Hmore : more_allowed hi = true).
    { destruct hi as [[|n]|]; try done. specialize (Hhi 0%nat eq_refl). simpl in Hhi. lia. }
    rewrite Hmore, Hc. simpl.
    destruct (IH (pred lo) (dec_bound hi)) as [x ->]; [simpl in Hlo; lia| |done|done].
    intros n Hn. destruct hi as [m|]; [|done]. injection Hn as <-.
    specialize (Hhi m eq_refl). simpl in Hhi. lia.
Qed.

(** When the pattern can read a prefix of the text after which the
    continuation succeeds, the run succeeds (with that reading or with one
    the matcher tries earlier). *)
Lemma run_complete {A : Type} (ic : bool) (r : regex) (p : list N)
    (c : list (list N)) :
  matches ic r p c ->
  forall (s' : list N) (caps : list (list N))
         (k : list N -> list (list N) -> option A),
    is_Some (k s' (caps ++ c)) -> is_Some (run ic r (p ++ s') caps k).
Proof.
  induction 1 as [|a x Hx|a lo hi p Hall Hlo Hhi|r1 r2 p1 p2 c1 c2 H1 IH1 H2 IH2
                  |r1 r2 p c H1 IH1|r1 r2 p c H2 IH2|r p c H1 IH1];
    intros s' caps k Hk; simpl.
  - by rewrite app_nil_r in Hk.
  - rewrite Hx. by rewrite app_nil_r in Hk.
  - apply rep_complete; try done. by rewrite app_nil_r in Hk.
  - rewrite <- app_assoc. apply IH1. apply IH2. by rewrite <- app_assoc.
  - destruct (IH1 s' caps k Hk) as [x ->]. done.
  - destruct (run ic r1 (p ++ s') caps k); [done|]. by apply IH2.
  - apply IH1. rewrite length_app, Nat.add_sub, take_app_length.
    by rewrite <- app_assoc.
Qed.

Lemma match_here_complete (ic : bool) (r : regex) (p rest : list N)
    (c : list (list N)) :
  matches ic r p c -> is_Some (match_here ic r (p ++ rest)).
Proof. intros H. by apply (run_complete ic r p c H). Qed.

(** [re.search] goes past the positions where nothing matches. *)
Lemma search_from_skip (ic : bool) (r : regex) (pos : nat) (pre s : list N) :
  (forall b t, pre = b ++ t -> t <> [] -> match_here ic r (t ++ s) = None) ->
  search_from ic r pos (pre ++ s) = search_from ic r (pos + length pre) s.
Proof.
  revert pos. induction pre as [|c pre IH]; intros pos H.
  - simpl. by rewrite Nat.add_0_r.
  - pose proof (H [] (c :: pre) eq_refl ltac:(done)) as H0.
    change ((c :: pre) ++ s) with (c :: pre ++ s) in *.
    cbn [search_from]. rewrite H0.
    rewrite IH; [simpl; f_equal; lia|]. intros b t -> Ht. by apply (H (c :: b)).
Qed.

Lemma search_from_none (ic : bool) (r : regex) (pos : nat) (s : list N) :
  (forall b t, s = b ++ t -> match_here ic r t = None) ->
  search_from ic r pos s = None.
Proof.
  revert pos. induction s as [|c s IH]; intros pos H; cbn [search_from].
  - by rewrite (H [] []).
  - rewrite (H [] (c :: s)) by done. apply IH. intros b t ->. by apply (H (c :: b)).
Qed.

Lemma search_from_here (ic : bool) (r : regex) (pos : nat) (s rest : list N)
    (groups : list (list N)) :
  match_here ic r s = Some (rest, groups) ->
  search_from ic r pos s = Some (mk_match pos s (rest, groups)).
Proof. intros H. destruct s; cbn [search_from]; by rewrite H. Qed.

End MatcherComplete.

(** ** Running the matcher along its greedy path *)

Section MatcherSteps.
Import Re.

(** A repetition that reads its maximal number of characters. *)
Lemma rep_full {A : Type} (ic : bool) (a : atom) (lo hi : nat) (p s' : list N)
    (k : list N -> option A) (x : A) :
  Forall (fun c => atom_match ic a c = true) p ->
  (lo <= length p)%nat -> length p = hi ->
  k s' = Some x ->
  rep ic a lo (Some hi) (p ++ s') k = Some x.
Proof.
  intros Hall. revert lo hi.
  induction Hall as [|c p Hc Hall IH]; intros lo hi Hlo Hhi Hk.
  - simpl in *. subst hi. assert (lo = 0%nat) as -> by lia.
    destruct s'; simpl; done.
  - simpl in Hhi. subst hi. simpl. rewrite Hc. simpl.
    rewrite (IH (pred lo) (length p)); [done| |done|done]. simpl in Hlo. lia.
Qed.

Lemma run_cat_nil {A : Type} (ic : bool) (s : list N) (caps : list (list N))
    (k : list N -> list (list N) -> option A) :
  run ic (cat []) s caps k = k s caps.
Proof. done. Qed.

Lemma run_cat_one {A : Type} (ic : bool) (a : atom) (rs : list regex) (c : N)
    (s : list N) (caps : list (list N))
    (k : list N -> list (list N) -> option A) (x : A) :
  atom_match ic a c = true ->
  run ic (cat rs) s caps k = Some x ->
  run ic (cat (One a :: rs)) (c :: s) caps k = Some x.
Proof. intros Hc H. cbn [cat foldr run]. by rewrite Hc. Qed.

Lemma run_cat_group {A : Type} (ic : bool) (a : atom) (lo hi : nat)
    (rs : list regex) (p s' : list N) (caps : list (list N))
    (k : list N -> list (list N) -> option A) (x : A) :
  Forall (fun c => atom_match ic a c = true) p ->
  (lo <= length p)%nat -> length p = hi ->
  run ic (cat rs) s' (caps ++ [p]) k = Some x ->
  run ic (cat (Grp (times a lo hi) :: rs)) (p ++ s') caps k = Some x.
Proof.
  intros Hall Hlo Hhi H. cbn [cat foldr run times].
  apply rep_full; try done.
  by rewrite length_app, Nat.add_sub, take_app_length.
Qed.

End MatcherSteps.

(** ** A single date in a text *)

Section SingleDate.
Import Re Metadata.

Definition no_digit (s : list N) : Prop := Forall (fun c => is_digit c = false) s.

(** The three spellings of 19 February 2025. *)
Definition date_dmy_dash : list N := Eval vm_compute in u "19-02-2025".
Definition date_dmy_slash : list N := Eval vm_compute in u "19/02/2025".
Definition date_ymd_dash : list N := Eval vm_compute in u "2025-02-19".
Definition groups_19_02_2025 : list (list N) :=
  Eval vm_compute in [u "19"; u "02"; u "2025"].

(** Decomposition of the hypotheses about characters, and refutation of
    those about a known character. *)
Ltac split_chars :=
  unfold digits, no_digit in *;
  repeat match goal with
  | H : Forall _ (_ :: _) |- _ =>
    let H1 := fresh "Hc" in let H2 := fresh "Hf" in
    apply Forall_cons in H as [H1 H2]; cbv beta in H1
  | H : Forall _ (_ ++ _) |- _ =>
    let H1 := fresh "Hf" in let H2 := fresh "Hf" in
    apply Forall_app in H as [H1 H2]
  | H : Forall _ [] |- _ => clear H
  end.

Ltac refute_chars :=
  split_chars;
  match goal with
  | H : is_digit ?n = true, H' : is_digit ?n = false |- _ => congruence
  | H : is_digit ?n = true |- _ =>
    tryif is_var n then fail else (vm_compute in H; discriminate H)
  | H : is_space ?n = true |- _ =>
    tryif is_var n then fail else (vm_compute in H; discriminate H)
  | H : atom_match true date_sep ?n = true |- _ =>
    tryif is_var n then fail else (vm_compute in H; discriminate H)
  end.

(** One or two characters, four characters. *)
Lemma length_1_2 (l : list N) :
  (1 <= length l <= 2)%nat -> (exists a, l = [a]) \/ (exists a b, l = [a; b]).
Proof.
  destruct l as [|a [|b [|c l]]]; simpl; intros H; try lia.
  - left. by exists a.
  - right. by exists a, b.
Qed.

Lemma length_4 (l : list N) :
  length l = 4%nat -> exists a b c d, l = [a; b; c; d].
Proof.
  destruct l as [|a [|b [|c [|d [|e l]]]]]; simpl; intros H; try lia.
  by exists a, b, c, d.
Qed.

(** A digit of [pre ++ x] lies in [x] when [pre] has no digit. *)
Lemma digit_after_prefix (pre x b t : list N) (c : N) :
  no_digit pre -> is_digit c = true -> pre ++ x = b ++ c :: t ->
  exists b', b = pre ++ b' /\ x = b' ++ c :: t.
Proof.
  intros Hpre Hc. revert b. induction Hpre as [|a pre Ha Hpre IH]; intros b Heq.
  - by exists b.
  - destruct b as [|a' b]; simpl in Heq.
    + injection Heq as -> _. congruence.
    + injection Heq as <- Heq. destruct (IH _ Heq) as (b' & -> & ->). by exists b'.
Qed.

(** A digit of [d ++ post] lies in [d] when [post] has no digit. *)
Lemma digit_before_suffix (d post b t : list N) (c : N) :
  no_digit post -> is_digit c = true -> d ++ post = b ++ c :: t ->
  exists j, (j < length d)%nat /\ c :: t = drop j d ++ post.
Proof.
  intros Hpost Hc. revert b. induction d as [|a d IH]; intros b Heq; simpl in Heq.
  - exfalso. rewrite Heq in Hpost. apply Forall_app in Hpost as [_ Hpost].
    apply Forall_cons in Hpost as [Hn _]. congruence.
  - destruct b as [|a' b]; simpl in Heq.
    + exists 0%nat. simpl. split; [lia|]. by rewrite <- Heq.
    + injection Heq as <- Heq. destruct (IH _ Heq) as (j & Hj & ->).
      exists (S j). simpl. split; [lia|done].
Qed.

(** A digit that follows a blank in [pre ++ d ++ post] is the first
    character of [d], when [pre] and [post] have no digit and [d] no blank. *)
Lemma digit_after_blank (pre d post b t : list N) (w c : N) :
  no_digit pre -> no_digit post ->
  Forall (fun x => is_space x = false) d ->
  is_space w = true -> is_digit c = true ->
  pre ++ d ++ post = b ++ w :: c :: t ->
  c :: t = d ++ post.
Proof.
  intros Hpre Hpost Hd Hw Hc Heq.
  destruct (digit_after_prefix pre (d ++ post) (b ++ [w]) t c Hpre Hc)
    as (b' & Hb & Hx).
  { rewrite <- app_assoc. exact Heq. }
  destruct b' as [|x b'] using rev_ind; [by simpl in Hx|].
  exfalso. clear IHb'.
  rewrite app_assoc in Hb. apply app_inj_tail in Hb as [_ ->].
  destruct (digit_before_suffix d post (b' ++ [x]) t c Hpost Hc Hx) as (j & Hj & Hdrop).
  rewrite Hdrop in Hx.
  rewrite <- (take_drop j d) in Hx at 1. rewrite <- (app_assoc (take j d)) in Hx.
  assert (Hlen : length (take j d) = length (b' ++ [x])).
  { apply (f_equal (@length N)) in Hx. rewrite !length_app in Hx.
    rewrite !length_app. simpl in *. lia. }
  apply app_inj_1 in Hx as [Hx _]; [|done].
  assert (Hin : x ∈ d).
  { rewrite <- (take_drop j d), Hx. apply elem_of_app. left.
    apply elem_of_app. right. left. }
  rewrite Forall_forall in Hd. specialize (Hd x Hin). congruence.
Qed.

Lemma matches_verbose_digit (ic : bool) (p : list N) (c : list (list N)) :
  matches ic (cat verbose_dmy) p c ->
  exists d w mid h tail, p = d ++ w :: mid ++ h :: tail /\ digits d /\
    (1 <= length d <= 2)%nat /\ is_space w = true /\ is_digit h = true.
Proof.
  unfold verbose_dmy. intros H.
  apply matches_cat_cons in H as (d & p1 & cd & c1 & -> & -> & Hd & H).
  apply matches_cat_cons in H as (w1 & p2 & cw1 & c2 & -> & -> & Hw1 & H).
  apply matches_cat_cons in H as (t & p3 & ct & c3 & -> & -> & Ht & H).
  apply matches_cat_cons in H as (w2 & p4 & cw2 & c4 & -> & -> & Hw2 & H).
  apply matches_cat_cons in H as (m & p5 & cm & c5 & -> & -> & Hm & H).
  apply matches_digit_group in Hd as (-> & Hd1 & Hd2).
  apply matches_digit_group in Hm as (-> & Hm1 & Hm2).
  apply matches_rep in Hw1 as (-> & Hs1 & Hl1).
  destruct w1 as [|w w1]; [simpl in Hl1; lia|].
  apply Forall_cons in Hs1 as [Hw _]. rewrite atom_match_sp in Hw.
  destruct m as [|h m]; [simpl in Hm2; lia|].
  apply Forall_cons in Hm1 as [Hh _].
  exists d, w, (w1 ++ t ++ w2), h, (m ++ p5).
  split; [simpl; by rewrite <- !app_assoc|].
  repeat split; try done; lia.
Qed.

(** At the start of "19-02-2025" or "19/02/2025" the numeric
    day-month-year pattern can only read the three groups 19, 02 and 2025. *)
Lemma numeric_dmy_unique (D post p rest : list N) (c : list (list N)) :
  D = date_dmy_dash \/ D = date_dmy_slash -> no_digit post ->
  matches true (cat numeric_dmy) p c -> p ++ rest = D ++ post ->
  c = groups_19_02_2025.
Proof.
  intros HD Hpost Hm Heq.
  apply matches_numeric_dmy in Hm
    as [(d0 & m0 & y0 & -> & Hd & Hm' & Hy & Ld & Lm & Ly)
        (d & s1 & m & s2 & y & [= <- <- <-] & -> & Hs1 & Hs2)].
  destruct (length_1_2 _ Ld) as [[a1 ->]|(a1 & a2 & ->)];
    destruct (length_1_2 _ Lm) as [[b1 ->]|(b1 & b2 & ->)];
    destruct (length_4 _ Ly) as (y1 & y2 & y3 & y4 & ->);
    destruct HD as [-> | ->]; unfold date_dmy_dash, date_dmy_slash in Heq;
    simpl in Heq; simplify_eq; first [reflexivity | refute_chars].
Qed.

(** Inside "2025-02-19" the numeric day-month-year pattern reads nothing. *)
Lemma numeric_dmy_not_in_ymd (j : nat) (post p rest : list N) (c : list (list N)) :
  no_digit post -> matches true (cat numeric_dmy) p c ->
  p ++ rest = drop j date_ymd_dash ++ post -> False.
Proof.
  intros Hpost Hm Heq.
  apply matches_numeric_dmy in Hm
    as [(d0 & m0 & y0 & -> & Hd & Hm' & Hy & Ld & Lm & Ly)
        (d & s1 & m & s2 & y & [= <- <- <-] & -> & Hs1 & Hs2)].
  unfold date_ymd_dash in Heq.
  destruct (length_1_2 _ Ld) as [[a1 ->]|(a1 & a2 & ->)];
    destruct (length_1_2 _ Lm) as [[b1 ->]|(b1 & b2 & ->)];
    destruct (length_4 _ Ly) as (y1 & y2 & y3 & y4 & ->);
    do 10 (destruct j as [|j]; [simpl in Heq; simplify_eq; refute_chars|]);
    simpl in Heq; rewrite drop_nil in Heq; simpl in Heq; simplify_eq; refute_chars.
Qed.

Definition three_dates (D : list N) : Prop :=
  D = date_dmy_dash \/ D = date_dmy_slash \/ D = date_ymd_dash.

(** The verbose pattern ("D tháng M năm Y") reads nothing in a text whose
    only digits are those of one of the three dates. *)
Lemma verbose_nowhere (D : list N) (j : nat) (post p rest : list N)
    (c : list (list N)) :
  three_dates D -> no_digit post -> matches true (cat verbose_dmy) p c ->
  p ++ rest = drop j D ++ post -> False.
Proof.
  intros HD Hpost Hm Heq.
  apply matches_verbose_digit in Hm as (d & w & mid & h & tail & -> & Hd & Ld & Hw & Hh).
  destruct (length_1_2 _ Ld) as [[a1 ->]|(a1 & a2 & ->)];
    destruct HD as [-> |[-> | ->]];
    unfold date_dmy_dash, date_dmy_slash, date_ymd_dash in Heq;
    do 10 (destruct j as [|j]; [simpl in Heq; simplify_eq; refute_chars|]);
    simpl in Heq; rewrite drop_nil in Heq; simpl in Heq; simplify_eq; refute_chars.
Qed.

Ltac chars_ok :=
  repeat first [apply Forall_nil_2 | apply Forall_cons_2; [by vm_compute|]].

(** At the start of a day-month-year date the numeric pattern matches. *)
Lemma match_numeric_dmy (D post : list N) :
  D = date_dmy_dash \/ D = date_dmy_slash ->
  match_here true (cat numeric_dmy) (D ++ post) = Some (post, groups_19_02_2025).
Proof.
  intros [-> | ->]; unfold match_here, numeric_dmy.
  - apply (run_cat_group true dg 1 2 _ [49; 57]%N); [chars_ok|simpl; lia|done|].
    apply run_cat_one; [by vm_compute|].
    apply (run_cat_group true dg 1 2 _ [48; 50]%N); [chars_ok|simpl; lia|done|].
    apply run_cat_one; [by vm_compute|].
    apply (run_cat_group true dg 4 4 _ [50; 48; 50; 53]%N); [chars_ok|simpl; lia|done|].
    reflexivity.
  - apply (run_cat_group true dg 1 2 _ [49; 57]%N); [chars_ok|simpl; lia|done|].
    apply run_cat_one; [by vm_compute|].
    apply (run_cat_group true dg 1 2 _ [48; 50]%N); [chars_ok|simpl; lia|done|].
    apply run_cat_one; [by vm_compute|].
    apply (run_cat_group true dg 4 4 _ [50; 48; 50; 53]%N); [chars_ok|simpl; lia|done|].
    reflexivity.
Qed.

Definition numeric_ymd : regex :=
  cat [Grp (times dg 4 4); One date_sep; Grp (times dg 1 2); One date_sep;
       Grp (times dg 1 2)].
Definition groups_2025_02_19 : list (list N) :=
  Eval vm_compute in [u "2025"; u "02"; u "19"].

(** At the start of "2025-02-19" the year-month-day pattern matches and
    reads the two digits of the day. *)
Lemma match_numeric_ymd (post : list N) :
  match_here true numeric_ymd (date_ymd_dash ++ post) = Some (post, groups_2025_02_19).
Proof.
  unfold match_here, numeric_ymd.
  apply (run_cat_group true dg 4 4 _ [50; 48; 50; 53]%N); [chars_ok|simpl; lia|done|].
  apply run_cat_one; [by vm_compute|].
  apply (run_cat_group true dg 1 2 _ [48; 50]%N); [chars_ok|simpl; lia|done|].
  apply run_cat_one; [by vm_compute|].
  apply (run_cat_group true dg 1 2 _ [49; 57]%N); [chars_ok|simpl; lia|done|].
  reflexivity.
Qed.

(** The matches of a pattern that starts with a group of digits start with
    a digit. *)
Lemma matches_digit_head (ic : bool) (lo hi : nat) (rs : list regex) (p : list N)
    (c : list (list N)) :
  (1 <= lo)%nat -> matches ic (cat (Grp (times dg lo hi) :: rs)) p c ->
  exists h t, p = h :: t /\ is_digit h = true.
Proof.
  intros Hlo H.
  apply matches_cat_cons in H as (d & p1 & cd & c1 & -> & -> & Hd & H).
  apply matches_digit_group in Hd as (-> & Hd1 & Hd2).
  destruct d as [|h d]; [simpl in Hd2; lia|].
  apply Forall_cons in Hd1 as [Hh _]. by exists h, (d ++ p1).
Qed.

Lemma match_here_digit_head (lo hi : nat) (rs : list regex) (h : N) (s : list N) :
  (1 <= lo)%nat -> is_digit h = false ->
  match_here true (cat (Grp (times dg lo hi) :: rs)) (h :: s) = None.
Proof.
  intros Hlo Hh.
  destruct (match_here _ _ _) as [[rest gs]|] eqn:E; [|done]. exfalso.
  apply match_here_sound in E as (p & Hp & Hm).
  apply matches_digit_head in Hm as (h' & t & -> & Hh'); [|done].
  injection Hp as <- _. congruence.
Qed.

(** [re.findall] and [re.search]. *)
Lemma findall_groups_search (r : regex) (s : list N) :
  head (findall_groups true r s) = m_groups <$> search true r s.
Proof.
  unfold findall_groups, search, finditer.
  rewrite <- finditer_from_head. by destruct (finditer_from true r 0 0 s).
Qed.

Lemma findall_groups_located (r : regex) (s : list N) (gs : list (list N))
    (more : list (list (list N))) :
  findall_groups true r s = gs :: more ->
  exists before p rest, s = before ++ p ++ rest /\ matches true r p gs.
Proof.
  unfold findall_groups, finditer. intros H.
  destruct (finditer_from true r 0 0 s) as [|mt mts] eqn:E; [done|].
  injection H as <- _.
  destruct (finditer_from_elem true r 0 0 s mt) as (b & p & rest & Hs & Hm & _).
  { rewrite E. left. }
  by exists b, p, rest.
Qed.

Lemma three_dates_facts (D : list N) :
  three_dates D ->
  length D = 10%nat /\ Forall (fun x => is_space x = false) D.
Proof.
  intros [-> |[-> | ->]]; (split; [done|]); chars_ok.
Qed.

(** A pattern "<words> \s+ <digits>..." matches in the text only at the
    date: what follows its words and blanks is the date and the rest of the
    text. *)
Lemma anchored_core_at_date (x : regex) (core : list regex) (lo hi : nat)
    (D pre post before p rest : list N) (gs : list (list N)) :
  three_dates D -> no_digit pre -> no_digit post ->
  no_groups x = true -> (1 <= lo)%nat ->
  matches true (cat (x :: plus sp :: Grp (times dg lo hi) :: core)) p gs ->
  pre ++ D ++ post = before ++ p ++ rest ->
  exists q, matches true (cat (Grp (times dg lo hi) :: core)) q gs /\
    q ++ rest = D ++ post.
Proof.
  intros HD Hpre Hpost Hx Hlo Hm Heq.
  apply matches_cat_cons in Hm as (px & p1 & cx & c1 & -> & -> & Hmx & Hm).
  apply matches_cat_cons in Hm as (w & q & cw & cq & -> & -> & Hw & Hm).
  apply (matches_no_groups _ _ _ _ Hx) in Hmx as ->.
  apply matches_rep in Hw as (-> & Hsp & Hlen).
  exists q. split; [done|].
  destruct (matches_digit_head _ _ _ _ _ _ Hlo Hm) as (h & t & -> & Hh).
  destruct w as [|wl w0 _] using rev_ind; [simpl in Hlen; lia|].
  apply Forall_app in Hsp as [_ Hwl]. apply Forall_cons in Hwl as [Hwl _].
  rewrite atom_match_sp in Hwl.
  destruct (three_dates_facts D HD) as [_ Hblank].
  change ((h :: t) ++ rest) with (h :: t ++ rest).
  apply (digit_after_blank pre D post (before ++ px ++ w0) (t ++ rest) wl h);
    try done.
  rewrite Heq. by rewrite <- !app_assoc.
Qed.

(** The patterns anchored to "ban hành" / "ngày" find either nothing or
    the date 19/02/2025. *)
Lemma priority_only_this_date (D pre post : list N) (pat : regex)
    (gs : list (list N)) (more : list (list (list N))) :
  three_dates D -> no_digit pre -> no_digit post ->
  pat ∈ priority_patterns ->
  findall_groups true pat (pre ++ D ++ post) = gs :: more ->
  gs = groups_19_02_2025.
Proof.
  intros HD Hpre Hpost Hin Hf.
  apply findall_groups_located in Hf as (before & p & rest & Heq & Hm).
  assert (Hx : no_groups ban_hanh_or_ngay = true) by (by vm_compute).
  unfold priority_patterns in Hin.
  apply elem_of_cons in Hin as [->|Hin]; [|apply list_elem_of_singleton in Hin as ->].
  - unfold numeric_dmy in Hm.
    destruct (anchored_core_at_date _ _ 1 2 D pre post before p rest gs
                HD Hpre Hpost Hx ltac:(lia) Hm Heq) as (q & Hq & Hqeq).
    destruct HD as [HD|[HD|HD]].
    + apply (numeric_dmy_unique D post q rest); auto.
    + apply (numeric_dmy_unique D post q rest); auto.
    + exfalso. subst D.
      by apply (numeric_dmy_not_in_ymd 0 post q rest gs).
  - unfold verbose_dmy in Hm.
    destruct (anchored_core_at_date _ _ 1 2 D pre post before p rest gs
                HD Hpre Hpost Hx ltac:(lia) Hm Heq) as (q & Hq & Hqeq).
    exfalso. by apply (verbose_nowhere D 0 post q rest gs).
Qed.

Lemma head_eq_cons {A : Type} (l : list A) (x : A) :
  head l = Some x -> exists more, l = x :: more.
Proof. destruct l as [|y l]; [done|]. intros [= ->]. by exists l. Qed.

(** A pattern that starts with a group of digits is first matched at the
    date, when it matches there. *)
Lemma findall_at_date (lo hi : nat) (rs : list regex) (D pre post : list N)
    (gs : list (list N)) :
  (1 <= lo)%nat -> no_digit pre ->
  match_here true (cat (Grp (times dg lo hi) :: rs)) (D ++ post) = Some (post, gs) ->
  exists more,
    findall_groups true (cat (Grp (times dg lo hi) :: rs)) (pre ++ D ++ post)
    = gs :: more.
Proof.
  intros Hlo Hpre Hm. apply head_eq_cons.
  rewrite findall_groups_search. unfold search. rewrite search_from_skip.
  - by rewrite (search_from_here _ _ _ _ _ _ Hm).
  - intros b t -> Ht. destruct t as [|h t]; [done|].
    apply match_here_digit_head; [done|].
    apply Forall_app in Hpre as [_ Hpre]. by apply Forall_cons in Hpre as [? _].
Qed.

(** The numeric day-month-year pattern finds nothing when the date is
    "2025-02-19". *)
Lemma findall_numeric_dmy_ymd (pre post : list N) :
  no_digit pre -> no_digit post ->
  findall_groups true (cat numeric_dmy) (pre ++ date_ymd_dash ++ post) = [].
Proof.
  intros Hpre Hpost.
  destruct (findall_groups _ _ _) as [|gs more] eqn:E; [done|]. exfalso.
  apply findall_groups_located in E as (before & p & rest & Heq & Hm).
  pose proof Hm as Hm'. unfold numeric_dmy in Hm'.
  apply matches_digit_head in Hm' as (h & t & -> & Hh); [|lia].
  destruct (digit_after_prefix pre _ before (t ++ rest) h Hpre Hh Heq) as (b' & _ & Hx).
  destruct (digit_before_suffix _ post b' (t ++ rest) h Hpost Hh Hx) as (j & _ & Hj).
  by apply (numeric_dmy_not_in_ymd j post (h :: t) rest gs).
Qed.

Lemma take_preview (pre D post : list N) :
  length D = 10%nat -> (length pre + 10 <= 1500)%nat ->
  take 1500 (pre ++ D ++ post) = pre ++ D ++ take (1500 - length pre - 10) post.
Proof.
  intros HD Hlen. rewrite !take_app, HD.
  rewrite (take_ge pre) by lia. rewrite (take_ge D) by lia. done.
Qed.

(** A text whose only digits are those of one date written "19-02-2025",
    "19/02/2025" or "2025-02-19", within the first 1500 characters, has the
    issue date 19/02/2025. *)
Lemma single_date_extracted (pre D post content_lower : list N) :
  three_dates D -> no_digit pre -> no_digit post ->
  (length pre + 10 <= 1500)%nat ->
  _extract_issue_date (pre ++ D ++ post) content_lower = Some (u "19/02/2025").
Proof.
  intros HD Hpre Hpost Hlen. unfold _extract_issue_date.
  destruct (three_dates_facts D HD) as [HlenD _].
  rewrite (take_preview pre D post HlenD Hlen).
  assert (Hpost' : no_digit (take (1500 - length pre - 10) post)) by by apply Forall_take.
  revert Hpost'. generalize (take (1500 - length pre - 10) post). clear post Hpost.
  intros post Hpost.
  destruct (priority_loop priority_patterns (pre ++ D ++ post)) as [d|] eqn:Ep.
  { apply priority_loop_some in Ep as (pat & g0 & g1 & g2 & more & Hin & Hf & _ & ->).
    apply (priority_only_this_date D pre post pat _ more HD Hpre Hpost Hin) in Hf.
    injection Hf as -> -> ->. by vm_compute. }
  unfold date_patterns.
  destruct HD as [HD|[HD|HD]].
  - destruct (findall_at_date 1 2 _ D pre post groups_19_02_2025 ltac:(lia) Hpre
                (match_numeric_dmy D post (or_introl HD))) as [more Hf].
    cbn [date_loop]. unfold numeric_dmy at 1. rewrite Hf.
    unfold groups_19_02_2025. by vm_compute.
  - destruct (findall_at_date 1 2 _ D pre post groups_19_02_2025 ltac:(lia) Hpre
                (match_numeric_dmy D post (or_intror HD))) as [more Hf].
    cbn [date_loop]. unfold numeric_dmy at 1. rewrite Hf.
    unfold groups_19_02_2025. by vm_compute.
  - subst D. cbn [date_loop]. rewrite (findall_numeric_dmy_ymd pre post Hpre Hpost).
    destruct (findall_at_date 4 4
                [One date_sep; Grp (times dg 1 2); One date_sep; Grp (times dg 1 2)]
                date_ymd_dash pre post groups_2025_02_19
                ltac:(lia) Hpre (match_numeric_ymd post)) as [more Hf].
    rewrite Hf. unfold groups_2025_02_19. by vm_compute.
Qed.

(** Where an extracted date comes from: the first match of a pattern, whose
    third group is the year when it has four digits and whose first group
    is the year otherwise. *)
Lemma issue_date_source (content content_lower date : list N) :
  _extract_issue_date content content_lower = Some date ->
  exists pat g0 g1 g2 more,
    (pat ∈ priority_patterns \/ pat ∈ date_patterns) /\
    findall_groups true pat (take 1500 content) = [g0; g1; g2] :: more /\
    ((length g2 = 4%nat /\ date = format_date g0 g1 g2) \/
     (length g2 <> 4%nat /\ length g0 = 4%nat /\ date = format_date g2 g1 g0)).
Proof.
  unfold _extract_issue_date.
  destruct (priority_loop priority_patterns (take 1500 content)) as [d|] eqn:Ep.
  - intros [= <-].
    apply priority_loop_some in Ep as (pat & g0 & g1 & g2 & more & Hin & Hf & H4 & ->).
    exists pat, g0, g1, g2, more. split; [by left|]. split; [done|]. by left.
  - intros (pat & g0 & g1 & g2 & more & Hin & Hf & Hcase)%date_loop_some.
    exists pat, g0, g1, g2, more. split; [by right|]. split; [done|].
    destruct Hcase as [?|[Hne ->]]; [by left|right].
    split; [done|]. split; [|done].
    destruct (findall_groups_head _ _ _ _ Hf) as [p Hm].
    apply (date_pattern_shape _ _ _ Hin) in Hm
      as [(d0 & m0 & y0 & [= -> -> ->] & _ & _ & _ & _ & _ & Ly)
         |(y0 & m0 & d0 & [= -> -> ->] & _ & _ & _ & _ & _ & Ly)]; done.
Qed.

(** Padding with a zero, written out. *)
Lemma zfill2_padded (g : list N) :
  digits g -> (1 <= length g <= 2)%nat ->
  zfill 2 g = if (length g =? 1)%nat then 48%N :: g else g.
Proof.
  intros Hd Hl. destruct g as [|a [|b [|? ?]]]; simpl in Hl; try lia.
  - apply Forall_cons in Hd as [Ha _]. unfold zfill. by rewrite (digit_not_sign a Ha).
  - apply Forall_cons in Hd as [Ha Hb]. unfold zfill. by rewrite (digit_not_sign a Ha).
Qed.

Lemma format_date_padded (d m y : list N) :
  digits d -> digits m -> (1 <= length d <= 2)%nat -> (1 <= length m <= 2)%nat ->
  format_date d m y
  = (if (length d =? 1)%nat then 48%N :: d else d) ++ u "/" ++
    (if (length m =? 1)%nat then 48%N :: m else m) ++ u "/" ++ y.
Proof.
  intros Hd Hm Ld Lm. unfold format_date.
  by rewrite (zfill2_padded d Hd Ld), (zfill2_padded m Hm Lm).
Qed.

(** The day, the month and the year of an extracted date: the groups of
    the first match in the order that the place of the four digits gives. *)
Lemma issue_date_written (content content_lower date : list N) :
  _extract_issue_date content content_lower = Some date ->
  exists pat g0 g1 g2 more,
    (pat ∈ priority_patterns \/ pat ∈ date_patterns) /\
    findall_groups true pat (take 1500 content) = [g0; g1; g2] :: more /\
    ((length g2 = 4%nat /\ date = format_date g0 g1 g2) \/
     (length g2 <> 4%nat /\ length g0 = 4%nat /\ date = format_date g2 g1 g0)) /\
    (exists before p after,
       take 1500 content = before ++ p ++ after /\ matches true pat p [g0; g1; g2]) /\
    exists d m y,
      ((length g2 = 4%nat /\ d = g0 /\ m = g1 /\ y = g2) \/
       (length g2 <> 4%nat /\ d = g2 /\ m = g1 /\ y = g0)) /\
      digits d /\ digits m /\ digits y /\
      (1 <= length d <= 2)%nat /\ (1 <= length m <= 2)%nat /\ length y = 4%nat /\
      date = (if (length d =? 1)%nat then 48%N :: d else d) ++ u "/" ++
             (if (length m =? 1)%nat then 48%N :: m else m) ++ u "/" ++ y.
Proof.
  intros H.
  destruct (issue_date_source _ _ _ H) as (pat & g0 & g1 & g2 & more & Hin & Hf & Hcase).
  exists pat, g0, g1, g2, more. split; [done|]. split; [done|]. split; [done|].
  destruct (findall_groups_located _ _ _ _ Hf) as (before & p & after & Heq & Hm).
  split; [by exists before, p, after|].
  assert (Hsh : shape_dmy [g0; g1; g2] \/ shape_ymd [g0; g1; g2]).
  { destruct Hin as [Hin|Hin].
    - left. by apply (priority_pattern_shape pat p).
    - by apply (date_pattern_shape pat p). }
  destruct Hsh as [(d & m & y & [= -> -> ->] & Hd & Hm' & Hy & Ld & Lm & Ly)
                  |(y & m & d & [= -> -> ->] & Hd & Hm' & Hy & Ld & Lm & Ly)].
  - exists d, m, y. split; [by left|]. repeat (split; [done|]).
    destruct Hcase as [[_ ->]|[Hne _]]; [|done]. by apply format_date_padded.
  - exists d, m, y. split; [right; repeat split; try done; lia|].
    repeat (split; [done|]).
    destruct Hcase as [[H4 _]|(_ & _ & ->)]; [lia|]. by apply format_date_padded.
Qed.

(** The date of the first match of an anchored pattern, written out. *)
Lemma priority_first_written (content content_lower : list N) (i : nat) (pat : regex)
    (gs : list (list N)) (rest : list (list (list N))) :
  priority_patterns !! i = Some pat ->
  (forall j q, (j < i)%nat -> priority_patterns !! j = Some q ->
     findall_groups true q (take 1500 content) = []) ->
  findall_groups true pat (take 1500 content) = gs :: rest ->
  exists d m y, gs = [d; m; y] /\
    _extract_issue_date content content_lower = Some (format_date d m y) /\
    digits d /\ digits m /\ digits y /\
    (1 <= length d <= 2)%nat /\ (1 <= length m <= 2)%nat /\ length y = 4%nat /\
    _extract_issue_date content content_lower
    = Some ((if (length d =? 1)%nat then 48%N :: d else d) ++ u "/" ++
            (if (length m =? 1)%nat then 48%N :: m else m) ++ u "/" ++ y).
Proof.
  intros Hi Hbefore Hf.
  destruct (priority_first content content_lower i pat gs rest Hi Hbefore Hf)
    as (d & m & y & -> & Hdate).
  destruct (findall_groups_head _ _ _ _ Hf) as [p Hm].
  apply (priority_pattern_shape pat) in Hm
    as (d0 & m0 & y0 & [= -> -> ->] & Hd & Hm & Hy & Ld & Lm & Ly);
    [|by eapply list_elem_of_lookup_2].
  exists d0, m0, y0. repeat (split; [done|]).
  rewrite Hdate. f_equal. by apply format_date_padded.
Qed.

(** [re.search] in a text of two parts: the match starts in the first
    part, or it is the match found in the second part. *)
Lemma search_from_app (ic : bool) (r : regex) (pos : nat) (pre s : list N) :
  (exists mt before p after,
     search_from ic r pos (pre ++ s) = Some mt /\
     pre ++ s = before ++ p ++ after /\ (length before < length pre)%nat /\
     matches ic r p (m_groups mt)) \/
  search_from ic r pos (pre ++ s) = search_from ic r (pos + length pre) s.
Proof.
  revert pos. induction pre as [|c pre IH]; intros pos.
  - right. simpl. by rewrite Nat.add_0_r.
  - change ((c :: pre) ++ s) with (c :: pre ++ s). cbn [search_from].
    destruct (match_here ic r (c :: pre ++ s)) as [[rest groups]|] eqn:E.
    + left. apply match_here_sound in E as (p & Hp & Hm).
      exists (mk_match pos (c :: pre ++ s) (rest, groups)), [], p, rest.
      split; [done|]. split; [done|]. split; [simpl; lia|done].
    + destruct (IH (S pos)) as [(mt & b & p & a & Hs & Heq & Hlen & Hm)|Heq].
      * left. exists mt, (c :: b), p, a. split; [done|].
        split; [simpl; by rewrite Heq|]. split; [simpl; lia|done].
      * right. rewrite Heq. f_equal. simpl. lia.
Qed.

(** The pattern matches at no position of the text. *)
Definition matches_nowhere (pat : regex) (D : list N) : bool :=
  forallb (fun i => match match_here true pat (drop i D) with
                    | None => true
                    | Some _ => false
                    end)
          (seq 0 (S (length D))).

Lemma matches_nowhere_spec (pat : regex) (D b p r : list N) (gs : list (list N)) :
  matches_nowhere pat D = true -> D = b ++ p ++ r -> matches true pat p gs -> False.
Proof.
  intros Hn -> Hm. unfold matches_nowhere in Hn. rewrite forallb_forall in Hn.
  assert (Hin : In (length b) (seq 0 (S (length (b ++ p ++ r))))).
  { apply in_seq. rewrite !length_app. lia. }
  specialize (Hn _ Hin). rewrite drop_app_length in Hn.
  destruct (match_here_complete true pat p r gs Hm) as [x Hx]. by rewrite Hx in Hn.
Qed.

(** The groups 19, 02, 2025, day first or year first. *)
Definition reads_date (gs : list (list N)) : Prop :=
  gs = groups_19_02_2025 \/ gs = groups_2025_02_19.

(** No other date-like pattern: whatever a date pattern matches in the
    text lies inside the date [D], which follows [pre], or reads the groups
    19, 02 and 2025. *)
Definition no_other_date (pre D text : list N) : Prop :=
  forall pat before p after gs,
    pat ∈ priority_patterns ++ date_patterns ->
    text = before ++ p ++ after -> matches true pat p gs ->
    (length pre <= length before /\
     length before + length p <= length pre + length D)%nat \/
    reads_date gs.

Lemma pattern_at_date (D post : list N) (pat : regex) :
  three_dates D -> pat ∈ priority_patterns ++ date_patterns ->
  (exists G, reads_date G /\ match_here true pat (D ++ post) = Some (post, G)) \/
  matches_nowhere pat D = true.
Proof.
  intros HD Hin. unfold priority_patterns, date_patterns in Hin. cbn [app] in Hin.
  repeat (apply elem_of_cons in Hin as [->|Hin]); [..|by apply elem_of_nil in Hin].
  - right. by destruct HD as [-> |[-> | ->]]; vm_compute.
  - right. by destruct HD as [-> |[-> | ->]]; vm_compute.
  - destruct HD as [HD|[HD|HD]].
    + left. exists groups_19_02_2025. split; [by left|]. apply match_numeric_dmy. by left.
    + left. exists groups_19_02_2025. split; [by left|]. apply match_numeric_dmy. by right.
    + right. subst D. by vm_compute.
  - destruct HD as [HD|[HD|HD]].
    + right. subst D. by vm_compute.
    + right. subst D. by vm_compute.
    + left. exists groups_2025_02_19. split; [by right|]. subst D.
      apply match_numeric_ymd.
  - right. by destruct HD as [-> |[-> | ->]]; vm_compute.
  - right. by destruct HD as [-> |[-> | ->]]; vm_compute.
Qed.

Lemma app_prefix_split (D post x rest : list N) :
  D ++ post = x ++ rest -> (length x <= length D)%nat -> exists r, D = x ++ r.
Proof.
  intros Heq Hlen. exists (take (length D - length x) rest).
  apply (f_equal (take (length D))) in Heq.
  rewrite take_app_length, take_app in Heq. by rewrite take_ge in Heq by lia.
Qed.

(** With no other date-like pattern, the first match of every pattern
    reads the groups of the date. *)
Lemma search_reads_date (pre D post : list N) (pat : regex) (mt : rmatch) :
  three_dates D -> no_other_date pre D (pre ++ D ++ post) ->
  pat ∈ priority_patterns ++ date_patterns ->
  search true pat (pre ++ D ++ post) = Some mt -> reads_date (m_groups mt).
Proof.
  intros HD Hno Hin. unfold search.
  destruct (search_from_app true pat 0 pre (D ++ post))
    as [(mt' & b & p & a & Hs & Heq & Hlen & Hm)|Heq].
  - rewrite Hs. intros [= <-].
    destruct (Hno pat b p a _ Hin Heq Hm) as [[Hle _]|Hr]; [lia|done].
  - rewrite Heq. intros Hs.
    destruct (pattern_at_date D post pat HD Hin) as [(G & HG & Hm)|Hn].
    + rewrite (search_from_here _ _ _ _ _ _ Hm) in Hs. by injection Hs as <-.
    + apply search_from_sound in Hs as (b & p & rest & Hsplit & Hm & _).
      destruct (Hno pat (pre ++ b) p rest (m_groups mt) Hin) as [[_ Hle]|Hr];
        [by rewrite Hsplit, <- !app_assoc|exact Hm| |done].
      exfalso. rewrite length_app in Hle.
      destruct (app_prefix_split D post (b ++ p) rest) as [r Hr].
      { by rewrite <- app_assoc. }
      { rewrite length_app. lia. }
      apply (matches_nowhere_spec pat D b p r (m_groups mt) Hn); [|done].
      by rewrite app_assoc.
Qed.

Lemma search_finds (pat : regex) (pre s rest : list N) (G : list (list N)) :
  match_here true pat s = Some (rest, G) -> is_Some (search true pat (pre ++ s)).
Proof.
  intros Hm. unfold search.
  destruct (search_from_app true pat 0 pre s) as [(mt & _ & _ & _ & -> & _)|Heq];
    [done|].
  rewrite Heq. by rewrite (search_from_here _ _ _ _ _ _ Hm).
Qed.

Lemma findall_groups_none (pat : regex) (s : list N) :
  findall_groups true pat s = [] -> search true pat s = None.
Proof.
  intros H. pose proof (findall_groups_search pat s) as Hh. rewrite H in Hh.
  by destruct (search true pat s).
Qed.

Lemma findall_groups_first (pat : regex) (s : list N) (gs : list (list N))
    (more : list (list (list N))) :
  findall_groups true pat s = gs :: more ->
  exists mt, search true pat s = Some mt /\ m_groups mt = gs.
Proof.
  intros H. pose proof (findall_groups_search pat s) as Hh. rewrite H in Hh.
  destruct (search true pat s) as [mt|]; [|done]. exists mt. split; [done|].
  by injection Hh.
Qed.

Lemma format_19_02_2025 :
  format_date [49; 57]%N [48; 50]%N [50; 48; 50; 53]%N = u "19/02/2025".
Proof. by vm_compute. Qed.

(** The loops over patterns whose first matches read the groups of the
    date. *)
Lemma priority_loop_reads (pats : list regex) (preview : list N) :
  (forall pat mt, pat ∈ pats -> search true pat preview = Some mt ->
     reads_date (m_groups mt)) ->
  priority_loop pats preview = None \/
  priority_loop pats preview = Some (u "19/02/2025").
Proof.
  induction pats as [|pat pats IH]; intros H; [by left|].
  assert (Hrec : priority_loop pats preview = None \/
                 priority_loop pats preview = Some (u "19/02/2025")).
  { apply IH. intros q mt Hq. apply H. by right. }
  cbn [priority_loop].
  destruct (findall_groups true pat preview) as [|gs more] eqn:E; [done|].
  destruct (findall_groups_first _ _ _ _ E) as (mt & Hs & <-).
  destruct (H pat mt ltac:(left) Hs) as [-> | ->].
  - right. unfold groups_19_02_2025. cbn [length Nat.eqb]. by rewrite format_19_02_2025.
  - unfold groups_2025_02_19. by cbn [length Nat.eqb].
Qed.

Lemma date_loop_reads (pats : list regex) (preview : list N) :
  (forall pat mt, pat ∈ pats -> search true pat preview = Some mt ->
     reads_date (m_groups mt)) ->
  (exists pat, pat ∈ pats /\ is_Some (search true pat preview)) ->
  date_loop pats preview = Some (u "19/02/2025").
Proof.
  induction pats as [|pat pats IH]; intros H (q & Hq & Hsome).
  { by apply elem_of_nil in Hq. }
  cbn [date_loop].
  destruct (findall_groups true pat preview) as [|gs more] eqn:E.
  - apply findall_groups_none in E. apply IH.
    + intros q' mt Hq'. apply H. by right.
    + apply elem_of_cons in Hq as [->|Hq]; [|by exists q].
      rewrite E in Hsome. by destruct Hsome.
  - destruct (findall_groups_first _ _ _ _ E) as (mt & Hs & <-).
    destruct (H pat mt ltac:(left) Hs) as [-> | ->].
    + unfold groups_19_02_2025. cbn [length Nat.eqb]. by rewrite format_19_02_2025.
    + unfold groups_2025_02_19. cbn [length Nat.eqb]. by rewrite format_19_02_2025.
Qed.

(** A text with one date written "19-02-2025", "19/02/2025" or
    "2025-02-19" within its first 1500 characters, and no other date-like
    pattern there, has the issue date 19/02/2025. *)
Lemma only_date_extracted (pre D post content_lower : list N) :
  three_dates D -> (length pre + 10 <= 1500)%nat ->
  no_other_date pre D (take 1500 (pre ++ D ++ post)) ->
  _extract_issue_date (pre ++ D ++ post) content_lower = Some (u "19/02/2025").
Proof.
  intros HD Hlen. unfold _extract_issue_date.
  destruct (three_dates_facts D HD) as [HlenD _].
  rewrite (take_preview pre D post HlenD Hlen).
  generalize (take (1500 - length pre - 10) post). clear post. intros post Hno.
  assert (Hall : forall pat mt, pat ∈ priority_patterns ++ date_patterns ->
            search true pat (pre ++ D ++ post) = Some mt -> reads_date (m_groups mt)).
  { intros pat mt Hin. by apply search_reads_date. }
  destruct (priority_loop_reads priority_patterns (pre ++ D ++ post)) as [Hp|Hp].
  { intros pat mt Hin. apply Hall. apply elem_of_app. by left. }
  2: { by rewrite Hp. }
  rewrite Hp. apply date_loop_reads.
  { intros pat mt Hin. apply Hall. apply elem_of_app. by right. }
  destruct HD as [HD|[HD|HD]].
  - exists (cat numeric_dmy). split; [left|].
    apply (search_finds _ pre (D ++ post) post groups_19_02_2025).
    apply match_numeric_dmy. by left.
  - exists (cat numeric_dmy). split; [left|].
    apply (search_finds _ pre (D ++ post) post groups_19_02_2025).
    apply match_numeric_dmy. by right.
  - exists numeric_ymd. split; [right; left|]. subst D.
    apply (search_finds _ pre (date_ymd_dash ++ post) post groups_2025_02_19).
    apply match_numeric_ymd.
Qed.

(** The positions of the text at which the pattern matches. *)
Definition match_starts (pat : regex) (text : list N) : list nat :=
  filter (fun i => is_Some (match_here true pat (drop i text)))
         (seq 0 (S (length text))).

Lemma match_starts_spec (pat : regex) (text before p after : list N)
    (gs : list (list N)) :
  text = before ++ p ++ after -> matches true pat p gs ->
  length before ∈ match_starts pat text.
Proof.
  intros -> Hm. unfold match_starts. apply list_elem_of_filter. split.
  - rewrite drop_app_length. by apply (match_here_complete true pat p after gs).
  - apply list_elem_of_In, in_seq. rewrite !length_app. lia.
Qed.

(** A part of the text whose characters are all of one kind ends before
    the first character of another kind. *)
Lemma prefix_bounded (ok : N -> bool) (p after a t : list N) (c : N) :
  Forall (fun x => ok x = true) p -> p ++ after = a ++ c :: t -> ok c = false ->
  (length p <= length a)%nat.
Proof.
  intros Hp Heq Hc. destruct (decide (length p <= length a)%nat) as [|Hgt]; [done|].
  exfalso. assert (Hl : (p ++ after) !! length a = Some c).
  { rewrite Heq. by rewrite list_lookup_middle. }
  rewrite lookup_app_l in Hl by lia.
  rewrite Forall_forall in Hp. apply list_elem_of_lookup_2, Hp in Hl. congruence.
Qed.

Lemma numeric_dmy_chars (p : list N) (c : list (list N)) :
  matches true (cat numeric_dmy) p c ->
  Forall (fun x => is_digit x || atom_match true date_sep x = true) p.
Proof.
  intros (Hsh & d & s1 & m & s2 & y & -> & -> & Hs1 & Hs2)%matches_numeric_dmy.
  destruct Hsh as (d0 & m0 & y0 & [= <- <- <-] & Hd & Hm & Hy & _).
  assert (Hdig : forall g, digits g ->
            Forall (fun x => is_digit x || atom_match true date_sep x = true) g).
  { intros g Hg. eapply Forall_impl; [exact Hg|]. intros x Hx. cbv beta.
    by rewrite Hx. }
  repeat first [apply Forall_app_2 | apply Forall_cons_2]; auto.
  - by rewrite Hs1, orb_true_r.
  - by rewrite Hs2, orb_true_r.
Qed.

(** A decree number before the date and a remark after it. *)
Definition decree_prefix : list N := Eval vm_compute in u "Nghị định số 15/2025/NĐ-CP, ".
Definition draft_suffix : list N := Eval vm_compute in u " (dự thảo)".

Lemma decree_no_other_date :
  no_other_date decree_prefix date_dmy_dash
    (take 1500 (decree_prefix ++ date_dmy_dash ++ draft_suffix)).
Proof.
  intros pat before p after gs Hin Heq Hm. left.
  pose proof (match_starts_spec pat _ before p after gs Heq Hm) as Hstart.
  assert (Hdrop : p ++ after
                  = drop (length before)
                      (take 1500 (decree_prefix ++ date_dmy_dash ++ draft_suffix))).
  { by rewrite Heq, drop_app_length. }
  remember (length before) as n eqn:Hn.
  unfold priority_patterns, date_patterns in Hin. cbn [app] in Hin.
  repeat (apply elem_of_cons in Hin as [->|Hin]); [..|by apply elem_of_nil in Hin];
    vm_compute in Hstart;
    repeat (apply elem_of_cons in Hstart as [->|Hstart]);
    try (by apply elem_of_nil in Hstart);
    pose proof (numeric_dmy_chars p gs Hm) as Hchars.
  - assert (length p <= 10)%nat.
    { apply (prefix_bounded _ p after date_dmy_dash (drop 1 draft_suffix) 32 Hchars);
        [rewrite Hdrop|]; by vm_compute. }
    change (length decree_prefix) with 28%nat.
    change (length date_dmy_dash) with 10%nat. lia.
  - assert (length p <= 9)%nat.
    { apply (prefix_bounded _ p after (drop 1 date_dmy_dash) (drop 1 draft_suffix) 32
               Hchars); [rewrite Hdrop|]; by vm_compute. }
    change (length decree_prefix) with 28%nat.
    change (length date_dmy_dash) with 10%nat. lia.
Qed.

(** C6: a text that holds one date written "19-02-2025", "19/02/2025" or
    "2025-02-19" in its first 1500 characters has the issue date
    "19/02/2025", when the text has no other digit there and, more generally,
    when there is no other date-like pattern: whatever a date pattern matches
    lies inside the date or reads the groups 19, 02 and 2025.  Every
    extracted date comes from the first match of a pattern, found in the
    first 1500 characters; the year is the third group when that group has
    four digits and the first group otherwise, the day is the group at the
    other end, and the date is the day, with a zero before a single digit, a
    slash, the month, with a zero before a single digit, a slash and the four
    digits of the year.  When a pattern anchored to "ban hành" or "ngày"
    matches, the date is that of its first match, whatever the bare patterns
    would find. *)
Theorem issue_date_normalized (filename : list N) :
  (forall pre D post,
     three_dates D -> no_digit pre -> no_digit post ->
     (length pre + 10 <= 1500)%nat ->
     issue_date (extract_metadata (pre ++ D ++ post) filename)
       = Some (u "19/02/2025")) /\
  (forall pre D post,
     three_dates D -> (length pre + 10 <= 1500)%nat ->
     no_other_date pre D (take 1500 (pre ++ D ++ post)) ->
     issue_date (extract_metadata (pre ++ D ++ post) filename)
       = Some (u "19/02/2025")) /\
  (forall content date,
     issue_date (extract_metadata content filename) = Some date ->
     is_ddmmyyyy date /\
     exists pat g0 g1 g2 more,
       (pat ∈ priority_patterns \/ pat ∈ date_patterns) /\
       findall_groups true pat (take 1500 content) = [g0; g1; g2] :: more /\
       ((length g2 = 4%nat /\ date = format_date g0 g1 g2) \/
        (length g2 <> 4%nat /\ length g0 = 4%nat /\ date = format_date g2 g1 g0)) /\
       (exists before p after,
          take 1500 content = before ++ p ++ after /\
          matches true pat p [g0; g1; g2]) /\
       exists d m y,
         ((length g2 = 4%nat /\ d = g0 /\ m = g1 /\ y = g2) \/
          (length g2 <> 4%nat /\ d = g2 /\ m = g1 /\ y = g0)) /\
         digits d /\ digits m /\ digits y /\
         (1 <= length d <= 2)%nat /\ (1 <= length m <= 2)%nat /\ length y = 4%nat /\
         date = (if (length d =? 1)%nat then 48%N :: d else d) ++ u "/" ++
                (if (length m =? 1)%nat then 48%N :: m else m) ++ u "/" ++ y) /\
  (forall content i pat gs more,
     priority_patterns !! i = Some pat ->
     (forall j q, (j < i)%nat -> priority_patterns !! j = Some q ->
        findall_groups true q (take 1500 content) = []) ->
     findall_groups true pat (take 1500 content) = gs :: more ->
     exists d m y, gs = [d; m; y] /\
       issue_date (extract_metadata content filename) = Some (format_date d m y) /\
       digits d /\ digits m /\ digits y /\
       (1 <= length d <= 2)%nat /\ (1 <= length m <= 2)%nat /\ length y = 4%nat /\
       issue_date (extract_metadata content filename)
       = Some ((if (length d =? 1)%nat then 48%N :: d else d) ++ u "/" ++
               (if (length m =? 1)%nat then 48%N :: m else m) ++ u "/" ++ y)).
Proof.
  split; [|split; [|split]].
  - intros pre D post HD Hpre Hpost Hlen. by apply single_date_extracted.
  - intros pre D post HD Hlen Hno. by apply only_date_extracted.
  - intros content date H. split.
    + by apply (issue_date_format content (lower content)).
    + by apply (issue_date_written content (lower content)).
  - intros content i pat gs more Hi Hbefore Hf.
    by apply (priority_first_written content (lower content) i pat gs more).
Qed.

(** The date inside a sentence, in the year-first spelling; and the date
    after a decree number, which holds digits and slashes but is no date. *)
Lemma issue_date_normalized_witness :
  issue_date (extract_metadata (u "Hà Nội, 2025-02-19 (dự thảo)") [])
    = Some (u "19/02/2025") /\
  issue_date (extract_metadata (decree_prefix ++ date_dmy_dash ++ draft_suffix) [])
    = Some (u "19/02/2025").
Proof.
  split.
  - apply (proj1 (issue_date_normalized [])
             (u "Hà Nội, ") date_ymd_dash (u " (dự thảo)")).
    + right. right. reflexivity.
    + unfold no_digit. chars_ok.
    + unfold no_digit. chars_ok.
    + vm_compute. lia.
  - apply (proj1 (proj2 (issue_date_normalized []))
             decree_prefix date_dmy_dash draft_suffix).
    + left. reflexivity.
    + vm_compute. lia.
    + exact decree_no_other_date.
Defined.

(** The three spellings on their own, and an anchored date that wins over
    an earlier bare date. *)
Example issue_date_three_spellings :
  _extract_issue_date (u "19-02-2025") (u "19-02-2025") = Some (u "19/02/2025") /\
  _extract_issue_date (u "19/02/2025") (u "19/02/2025") = Some (u "19/02/2025") /\
  _extract_issue_date (u "2025-02-19") (u "2025-02-19") = Some (u "19/02/2025").
Proof. by vm_compute. Qed.

Example issue_date_anchored_first :
  issue_date (extract_metadata (u "01/01/2020 ban hành ngày 9/2/2025") [])
    = Some (u "09/02/2025").
Proof. by vm_compute. Qed.

End SingleDate.

(** ** Issuing agency (metadata_extractor.py) *)

Section AgencyFacts.
Import Re Metadata.

(** The clean-up as the claim words it: the connective "của" is removed
    when the match begins with it. *)
Definition drop_leading_cua (agency : list N) : list N :=
  if starts_with CUA_upper agency || starts_with cua_lower agency
  then drop 3 agency else agency.
Definition clean_agency_leading (whole : list N) : list N :=
  strip (drop_leading_cua (rstrip_chars punctuation (strip whole))).

Fixpoint agency_loop_leading (patterns : list regex) (preview : list N)
    : option (list N) :=
  match patterns with
  | [] => None
  | pattern :: rest =>
    match search true pattern preview with
    | Some mt =>
      let agency := clean_agency_leading (m_whole mt) in
      if agency_ok agency then Some agency else agency_loop_leading rest preview
    | None => agency_loop_leading rest preview
    end
  end.

(** The fallback on the pattern "của <Capital>...". *)
Definition agency_fallback (preview : list N) : option (list N) :=
  match search true pattern_cua preview with
  | Some mt =>
    let agency := rstrip_chars punctuation (strip (nth 0 (m_groups mt) [])) in
    if agency_ok agency then Some agency else None
  | None => None
  end.

Definition issuing_agency_leading (content : list N) : option (list N) :=
  let preview := take 1000 content in
  match agency_loop_leading AGENCY_PATTERNS preview with
  | Some agency => Some agency
  | None => agency_fallback preview
  end.

(** The cleaned match of one fixed pattern, when it matches. *)
Definition agency_candidate (pattern : regex) (preview : list N) : option (list N) :=
  clean_agency <$> (m_whole <$> search true pattern preview).

(** C8 as stated does not hold: in "Bộ trưởng của Bộ Tài chính" the third
    pattern matches the whole text, and the connective inside the match is
    removed although the match does not begin with it. *)
Lemma issuing_agency_inner_connective :
  let content := u "Bộ trưởng của Bộ Tài chính" in
  _extract_issuing_agency content (lower content)
    = Some (u "Bộ trưởng  Bộ Tài chính") /\
  issuing_agency_leading content = Some (u "Bộ trưởng của Bộ Tài chính") /\
  _extract_issuing_agency content (lower content) <> issuing_agency_leading content.
Proof. vm_compute. repeat split; discriminate. Qed.

Lemma agency_ok_length (agency : list N) :
  agency_ok agency = true <-> (3 < length agency <= 200)%nat.
Proof.
  unfold agency_ok. rewrite andb_true_iff, Nat.leb_le, Nat.ltb_lt. lia.
Qed.

Lemma agency_loop_candidate (patterns : list regex) (preview : list N) :
  agency_loop patterns preview
  = match patterns with
    | [] => None
    | pattern :: rest =>
      match agency_candidate pattern preview with
      | Some agency =>
        if agency_ok agency then Some agency else agency_loop rest preview
      | None => agency_loop rest preview
      end
    end.
Proof.
  destruct patterns as [|pattern rest]; [done|]. unfold agency_candidate.
  cbn [agency_loop]. by destruct (search true pattern preview).
Qed.

(** The first pattern whose cleaned match passes the length window wins. *)
Lemma agency_loop_first (patterns : list regex) (preview : list N) (i : nat)
    (pattern : regex) (agency : list N) :
  patterns !! i = Some pattern ->
  agency_candidate pattern preview = Some agency -> agency_ok agency = true ->
  (forall j q b, (j < i)%nat -> patterns !! j = Some q ->
     agency_candidate q preview = Some b -> agency_ok b = false) ->
  agency_loop patterns preview = Some agency.
Proof.
  revert i. induction patterns as [|p0 patterns IH]; intros i Hi Hc Hok Hbefore;
    [done|].
  rewrite agency_loop_candidate. destruct i as [|i].
  - injection Hi as ->. by rewrite Hc, Hok.
  - assert (Hrec : agency_loop patterns preview = Some agency).
    { apply (IH i); try done. intros j q b Hj Hq Hb.
      apply (Hbefore (S j) q b); [lia|done|done]. }
    destruct (agency_candidate p0 preview) as [b|] eqn:Eb; [|done].
    by rewrite (Hbefore 0%nat p0 b ltac:(lia) eq_refl Eb).
Qed.

Lemma agency_loop_none (patterns : list regex) (preview : list N) :
  (forall q b, q ∈ patterns -> agency_candidate q preview = Some b ->
     agency_ok b = false) ->
  agency_loop patterns preview = None.
Proof.
  induction patterns as [|p0 patterns IH]; intros H; [done|].
  rewrite agency_loop_candidate.
  assert (Hrec : agency_loop patterns preview = None).
  { apply IH. intros q b Hq. apply H. by right. }
  destruct (agency_candidate p0 preview) as [b|] eqn:Eb; [|done].
  by rewrite (H p0 b ltac:(left) Eb).
Qed.

Lemma agency_loop_ok (patterns : list regex) (preview agency : list N) :
  agency_loop patterns preview = Some agency -> agency_ok agency = true.
Proof.
  induction patterns as [|p0 patterns IH]; [done|].
  rewrite agency_loop_candidate.
  destruct (agency_candidate p0 preview) as [b|]; [|done].
  destruct (agency_ok b) eqn:Eb; [|done]. by intros [= <-].
Qed.

(** The matches of a literal, case ignored. *)
Lemma matches_lit_lower (w p : list N) (c : list (list N)) :
  matches true (lit w) p c -> lower p = lower w.
Proof.
  revert p c. induction w as [|a w IH]; intros p c H; simpl in H.
  - by inversion H.
  - inversion H as [| | |? ? p1 p2 c1 c2 H1 H2| | |]; subst.
    inversion H1 as [|? x Hx| | | | |]; subst. simpl in Hx.
    apply N.eqb_eq in Hx. simpl. by rewrite (IH _ _ H2), Hx.
Qed.

(** No match of a fixed pattern begins with the connective, in either
    case. *)
Lemma agency_match_not_cua (pattern : regex) (preview : list N) (mt : rmatch) :
  pattern ∈ AGENCY_PATTERNS -> search true pattern preview = Some mt ->
  starts_with cua_lower (lower (m_whole mt)) = false.
Proof.
  intros Hin Hs. unfold search in Hs.
  apply search_from_sound in Hs as (before & p & rest & _ & Hm & ->).
  unfold AGENCY_PATTERNS in Hin.
  repeat (apply elem_of_cons in Hin as [->|Hin];
    [apply matches_cat_cons in Hm as (pw & p1 & cw & c1 & -> & _ & Hw & _);
     apply matches_lit_lower in Hw; rewrite lower_app, Hw; by vm_compute|]).
  by apply elem_of_nil in Hin.
Qed.

(** C8 (amended): the issuing agency is looked for in the first 1000
    characters only.  A match of a fixed pattern is stripped, loses its
    trailing ".,;:", then every occurrence of "CỦA" and of "của" anywhere
    in it, and is stripped again; the first fixed pattern whose cleaned
    match has more than 3 and at most 200 characters gives the result, and
    a pattern whose cleaned match misses that window is passed over.  When
    no fixed pattern qualifies the result is that of the fallback on
    "của <Capital>...", under the same window.  Every value returned has
    more than 3 and at most 200 characters, and no match of a fixed
    pattern begins with the connective. *)
Theorem issuing_agency_spec (content : list N) :
  let preview := take 1000 content in
  let result := _extract_issuing_agency content (lower content) in
  (forall whole,
     clean_agency whole
     = strip (replace cua_lower []
                (replace CUA_upper [] (rstrip_chars punctuation (strip whole))))) /\
  (forall (i : nat) pattern agency,
     AGENCY_PATTERNS !! i = Some pattern ->
     agency_candidate pattern preview = Some agency ->
     agency_ok agency = true ->
     (forall (j : nat) q b, (j < i)%nat -> AGENCY_PATTERNS !! j = Some q ->
        agency_candidate q preview = Some b -> agency_ok b = false) ->
     result = Some agency) /\
  ((forall q b, q ∈ AGENCY_PATTERNS -> agency_candidate q preview = Some b ->
      agency_ok b = false) ->
   result = agency_fallback preview) /\
  (forall agency, result = Some agency -> (3 < length agency <= 200)%nat) /\
  (forall pattern mt, pattern ∈ AGENCY_PATTERNS ->
     search true pattern preview = Some mt ->
     starts_with cua_lower (lower (m_whole mt)) = false).
Proof.
  cbv zeta. unfold _extract_issuing_agency, agency_fallback.
  split; [done|]. split; [|split; [|split]].
  - intros i pattern agency Hi Hc Hok Hbefore.
    by rewrite (agency_loop_first _ _ i pattern agency Hi Hc Hok Hbefore).
  - intros Hnone. by rewrite (agency_loop_none _ _ Hnone).
  - intros agency. destruct (agency_loop _ _) as [a|] eqn:Ea.
    + intros [= <-]. by apply agency_ok_length, (agency_loop_ok _ _ _ Ea).
    + destruct (search true pattern_cua _) as [mt|]; [|done].
      destruct (agency_ok _) eqn:Eok; [|done].
      intros [= <-]. by apply agency_ok_length.
  - intros pattern mt. apply agency_match_not_cua.
Qed.

(** In "Bộ  , Sở Xây dựng" the third pattern matches "Bộ  " only, which
    cleans to two characters and is passed over; the sixth pattern gives
    the result. *)
Lemma issuing_agency_spec_witness :
  _extract_issuing_agency (u "Bộ  , Sở Xây dựng") (lower (u "Bộ  , Sở Xây dựng"))
    = Some (u "Sở Xây dựng").
Proof.
  apply (proj1 (proj2 (issuing_agency_spec (u "Bộ  , Sở Xây dựng"))) 5%nat
           (cat [lit (u "Sở"); plus sp; plus not_comma_nl])).
  - reflexivity.
  - by vm_compute.
  - by vm_compute.
  - intros j q b Hj Hq.
    do 5 (destruct j as [|j]; [injection Hq as <-; intros Hb; vm_compute in Hb;
       first [discriminate Hb | injection Hb as <-; by vm_compute]|]). lia.
Defined.

End AgencyFacts.

(** ** Folders and file names (classifier.py) *)

Section ClassifyFolders.
Import Classifier.

Lemma FOLDER_MAPPING_groups : FOLDER_MAPPING.*1 = KEYWORDS.*1.
Proof. by vm_compute. Qed.

Lemma FOLDER_MAPPING_NoDup : NoDup FOLDER_MAPPING.*1.
Proof. rewrite FOLDER_MAPPING_groups. apply KEYWORDS_groups_NoDup. Qed.

Lemma Khac_not_a_folder : u "Khac" ∉ FOLDER_MAPPING.*2.
Proof. apply (bool_decide_unpack _). by vm_compute. Qed.

Lemma dict_get_elem {V : Type} (d : list (list N * V)) (key : list N) (dflt : V) :
  key ∈ d.*1 -> (key, dict_get d key dflt) ∈ d.
Proof.
  induction d as [|[k v] d IH]; intros Hin; [by apply elem_of_nil in Hin|].
  simpl. case_bool_decide as Hk.
  - subst. left.
  - right. apply IH. rewrite fmap_cons in Hin.
    apply elem_of_cons in Hin as [Heq|Hin]; [|done]. by destruct Hk.
Qed.

Lemma folder_of_group (g : list N) (dflt : list N) :
  g ∈ KEYWORDS.*1 -> (g, dict_get FOLDER_MAPPING g dflt) ∈ FOLDER_MAPPING.
Proof. rewrite <- FOLDER_MAPPING_groups. apply dict_get_elem. Qed.

(** The main group of a document with a non-zero score is a group of
    [KEYWORDS]. *)
Lemma main_group_known (content filename : list N) :
  any_score (scores (classify content filename)) = true ->
  main_group (classify content filename) ∈ KEYWORDS.*1.
Proof.
  intros Hany.
  pose proof (classify_confidence_of content filename) as Hc. cbv zeta in Hc.
  destruct (Hc Hany) as (i & [Hi _] & _). clear Hc Hany.
  pose proof (scores_groups content filename) as Hkeys.
  revert Hi Hkeys. generalize (classify content filename). intros r Hi Hkeys.
  rewrite <- Hkeys. apply list_elem_of_lookup_2 in Hi.
  apply list_elem_of_fmap. eexists. split; [|exact Hi]. reflexivity.
Qed.

(** The folders chosen from a table of scores over the groups of
    [KEYWORDS]. *)
Lemma main_choice_folder (sc : list (list N * Z)) (g f c : list N) :
  sc.*1 = KEYWORDS.*1 -> main_choice sc = (g, f, c) ->
  g = khac /\ f = u "Khac" \/ g <> khac /\ (g, f) ∈ FOLDER_MAPPING.
Proof.
  intros Hkeys Hch. destruct (any_score sc) eqn:Hany.
  - right. destruct (main_choice_nonzero _ Hany) as (g' & m & Hmax & Hmc).
    rewrite Hmc in Hch. injection Hch as -> <- _.
    assert (Hg : g ∈ KEYWORDS.*1).
    { rewrite <- Hkeys. destruct (max_key_first_max _ _ Hmax) as (i & Hi & _).
      apply list_elem_of_lookup_2 in Hi.
      apply list_elem_of_fmap. eexists. split; [|exact Hi]. reflexivity. }
    split; [|by apply folder_of_group].
    intros ->. by apply khac_not_a_group in Hg.
  - left. rewrite (main_choice_zero _ Hany) in Hch. by injection Hch as <- <- _.
Qed.

Lemma sub_groups_of_folder (sc : list (list N * Z)) (mg : list N) (sg : sub_group) :
  sc.*1 = KEYWORDS.*1 -> sg ∈ sub_groups_of mg (sorted_desc sc) ->
  (sg_group sg, sg_folder sg) ∈ FOLDER_MAPPING.
Proof.
  intros Hkeys Hsg. unfold sub_groups_of in Hsg.
  apply list_elem_of_omap in Hsg as (gs & Hgs & Hf).
  destruct (_ && _); [|done]. injection Hf as <-. cbn [sg_group sg_folder].
  apply folder_of_group. rewrite <- Hkeys.
  apply list_elem_of_fmap. exists gs. split; [done|].
  apply elem_of_take_drop in Hgs.
  rewrite <- (sorted_desc_perm sc), <- (take_drop 1 (sorted_desc sc)).
  apply elem_of_app. by right.
Qed.

(** X1: the folder of a classification.  [main_folder] is the entry of
    [FOLDER_MAPPING] for the main group, and 'Khac' exactly when the main
    group is 'khac'; the folder of every sub-group is the entry of
    [FOLDER_MAPPING] for its group, so the default [''] of the lookup is
    never used. *)
Theorem classify_folders (content filename : list N) :
  let r := classify content filename in
  (main_group r = khac /\ main_folder r = u "Khac" \/
   main_group r <> khac /\ (main_group r, main_folder r) ∈ FOLDER_MAPPING) /\
  (main_folder r = u "Khac" <-> main_group r = khac) /\
  (forall sg, sg ∈ sub_groups r -> (sg_group sg, sg_folder sg) ∈ FOLDER_MAPPING).
Proof.
  cbv zeta.
  pose proof (classify_choice content filename) as Hch. cbv zeta in Hch.
  pose proof (scores_groups content filename) as Hkeys.
  revert Hch Hkeys. generalize (classify content filename). intros r [Hch Hsub] Hkeys.
  pose proof (main_choice_folder _ _ _ _ Hkeys Hch) as Hmain.
  split; [exact Hmain|]. split.
  - destruct Hmain as [[Hg Hf]|[Hg Hf]]; [done|]. split; [|done].
    intros He. rewrite He in Hf. destruct Khac_not_a_folder.
    apply list_elem_of_fmap. eexists. split; [|exact Hf]. reflexivity.
  - intros sg Hsg. rewrite Hsub in Hsg. by apply (sub_groups_of_folder _ _ _ Hkeys Hsg).
Qed.

(** A document without any keyword goes to the folder 'Khac'. *)
Lemma classify_folders_witness :
  main_folder (classify (u "Biên bản họp") (u "scan_001.pdf")) = u "Khac".
Proof.
  apply (proj2 (proj1 (proj2 (classify_folders (u "Biên bản họp") (u "scan_001.pdf"))))).
  by vm_compute.
Defined.

Lemma group_score_filename (kws : list (list N)) (content filename kw : list N) :
  kw ∈ kws -> occurs_ci kw filename -> 2 <= group_score kws content filename.
Proof.
  intros Hkw Hocc. unfold group_score.
  assert (0 <= sumZ (map (fun kw => text_occurrences kw content) kws)).
  { apply sumZ_nonneg, Forall_forall. intros z (k & -> & _)%list_elem_of_fmap.
    unfold text_occurrences. lia. }
  assert (kw ∈ filter (fun kw => occurs_ci kw filename) kws)
    by (by apply list_elem_of_filter).
  destruct (filter (fun kw => occurs_ci kw filename) kws) as [|x l];
    [by apply elem_of_nil in H0|]. simpl. lia.
Qed.

Lemma confidence_of_cases (m t : Z) :
  confidence_of m t = cao \/ (confidence_of m t = trung_binh /\ 2 <= m)
  \/ (confidence_of m t = thap /\ m < 2).
Proof.
  unfold confidence_of. destruct (_ && _); [by left|right].
  destruct (2 <=? m) eqn:E; [left|right]; split; try done.
  - by apply Z.leb_le.
  - by apply Z.leb_gt.
Qed.

(** X2: a keyword in the file name is enough.  When the lowercase file name
    holds the lowercase form of a keyword of some group, that group scores
    at least 2, the document is not put in 'khac', and the confidence is
    'cao' or 'trung_binh', whatever the content. *)
Theorem classify_filename_keyword (content filename g : list N)
    (kws : list (list N)) (kw : list N) :
  let r := classify content filename in
  (g, kws) ∈ KEYWORDS -> kw ∈ kws -> occurs_ci kw filename ->
  (exists s, (g, s) ∈ scores r /\ 2 <= s) /\
  main_group r <> khac /\
  (confidence r = cao \/ confidence r = trung_binh).
Proof.
  cbv zeta. intros Hin Hkw Hocc.
  pose proof (group_score_filename kws content filename kw Hkw Hocc) as Hs.
  assert (Hgs : (g, group_score kws content filename) ∈ scores (classify content filename)).
  { rewrite scores_spec. apply list_elem_of_fmap. by exists (g, kws). }
  assert (Hany : any_score (scores (classify content filename)) = true).
  { apply existsb_elem_of. eexists. split; [exact Hgs|].
    apply negb_true_iff, Z.eqb_neq. cbn [snd]. lia. }
  pose proof (main_group_known content filename Hany) as Hg.
  pose proof (classify_confidence_of content filename) as Hc. cbv zeta in Hc.
  destruct (Hc Hany) as (i & _ & Hconf). clear Hc Hany.
  revert Hgs Hg Hconf. generalize (classify content filename).
  generalize (group_score kws content filename) Hs. clear.
  intros s Hs r Hgs Hg Hconf.
  split; [by exists s|]. split.
  - intros He. rewrite He in Hg. by apply khac_not_a_group in Hg.
  - pose proof (max_score_ge _ _ Hgs) as Hm. cbn [snd] in Hm. rewrite Hconf.
    destruct (confidence_of_cases (max_score (scores r)) (total_score (scores r)))
      as [H|[[H _]|[_ H]]]; [by left|by right|lia].
Qed.

(** The file name "TOD4.pdf" with an empty content. *)
Lemma classify_filename_keyword_witness :
  main_group (classify [] (u "TOD4.pdf")) <> khac /\
  (confidence (classify [] (u "TOD4.pdf")) = cao \/
   confidence (classify [] (u "TOD4.pdf")) = trung_binh).
Proof.
  apply (classify_filename_keyword [] (u "TOD4.pdf") (u "metro")
           (hd [] KEYWORDS.*2) (u "TOD")).
  - apply list_elem_of_In. vm_compute. left. reflexivity.
  - apply list_elem_of_In. vm_compute. tauto.
  - vm_compute. reflexivity.
Defined.

End ClassifyFolders.

(** ** The window of the metadata extraction (metadata_extractor.py) *)

Section MetadataWindow.
Import Re Metadata.

Lemma take_take_le {A : Type} (n m : nat) (l1 l2 : list A) :
  (n <= m)%nat -> take m l1 = take m l2 -> take n l1 = take n l2.
Proof.
  intros Hnm H. rewrite <- (Nat.min_l n m Hnm), <- !take_take. by rewrite H.
Qed.

(** X3: the extraction reads a bounded prefix of the content.  Two contents
    that agree on their first 1000 characters give the same document type
    and the same issuing agency, and two contents that agree on their first
    1500 characters give the same metadata. *)
Theorem extract_metadata_prefix (c1 c2 filename : list N) :
  (take 1000 c1 = take 1000 c2 ->
   document_type (extract_metadata c1 filename)
     = document_type (extract_metadata c2 filename) /\
   issuing_agency (extract_metadata c1 filename)
     = issuing_agency (extract_metadata c2 filename)) /\
  (take 1500 c1 = take 1500 c2 ->
   extract_metadata c1 filename = extract_metadata c2 filename).
Proof.
  assert (H1000 : take 1000 c1 = take 1000 c2 ->
            _extract_document_type c1 (lower c1) filename
              = _extract_document_type c2 (lower c2) filename /\
            _extract_issuing_agency c1 (lower c1)
              = _extract_issuing_agency c2 (lower c2)).
  { intros H. unfold _extract_document_type, _extract_issuing_agency.
    cbv zeta. by rewrite H. }
  split; [exact H1000|].
  intros H. destruct (H1000 (take_take_le 1000 1500 _ _ ltac:(lia) H)) as [Ht Ha].
  unfold extract_metadata. cbv zeta. rewrite Ht, Ha. f_equal.
  unfold _extract_issue_date. cbv zeta. by rewrite H.
Qed.

(** Text after the 1500th character is not read. *)
Lemma extract_metadata_prefix_witness :
  extract_metadata (repeat 32%N 1500 ++ u "ngày 19/02/2025") []
  = extract_metadata (repeat 32%N 1500 ++ u "Chính phủ") [].
Proof.
  apply (proj2 (extract_metadata_prefix _ _ [])).
  by rewrite !take_app_length' by (by rewrite repeat_length).
Defined.

(** Patterns every match of which holds a decimal digit. *)
Definition digit_atom (a : atom) : bool :=
  match a with
  | ASet false [IDigit] => true
  | _ => false
  end.
Fixpoint needs_digit (r : regex) : bool :=
  match r with
  | Eps => false
  | One a => digit_atom a
  | Rep a lo _ => digit_atom a && negb (lo =? 0)%nat
  | Cat r1 r2 => needs_digit r1 || needs_digit r2
  | Alt r1 r2 => needs_digit r1 && needs_digit r2
  | Grp r1 => needs_digit r1
  end.

Lemma digit_atom_match (ic : bool) (a : atom) (c : N) :
  digit_atom a = true -> atom_match ic a c = true -> is_digit c = true.
Proof.
  destruct a as [|[] [|[] [|]]]; try done. intros _. by rewrite atom_match_dg.
Qed.

Lemma needs_digit_matches (ic : bool) (r : regex) (p : list N) (c : list (list N)) :
  needs_digit r = true -> matches ic r p c -> exists x, x ∈ p /\ is_digit x = true.
Proof.
  intros Hn Hm. induction Hm as [|a x Hx|a lo hi p Hall Hlo Hhi|r1 r2 p1 p2 c1 c2 H1 IH1 H2 IH2
                  |r1 r2 p c H1 IH1|r1 r2 p c H2 IH2|r p c H1 IH1]; simpl in Hn.
  - done.
  - exists x. split; [left|]. by apply (digit_atom_match ic a).
  - apply andb_true_iff in Hn as [Ha Hlo'].
    apply negb_true_iff, Nat.eqb_neq in Hlo'.
    destruct Hall as [|x p Hx Hall]; [simpl in Hlo; lia|].
    exists x. split; [left|]. by apply (digit_atom_match ic a).
  - apply orb_true_iff in Hn as [Hn|Hn].
    + destruct (IH1 Hn) as (x & Hx & Hd). exists x. split; [|done].
      apply elem_of_app. by left.
    + destruct (IH2 Hn) as (x & Hx & Hd). exists x. split; [|done].
      apply elem_of_app. by right.
  - apply andb_true_iff in Hn as [Hn _]. by apply IH1.
  - apply andb_true_iff in Hn as [_ Hn]. by apply IH2.
  - by apply IH1.
Qed.

Lemma date_patterns_need_digit :
  Forall (fun r => needs_digit r = true) (priority_patterns ++ date_patterns).
Proof. repeat constructor. Qed.

Lemma findall_groups_no_digit (r : regex) (s : list N) :
  needs_digit r = true -> no_digit s -> findall_groups true r s = [].
Proof.
  intros Hn Hs. unfold findall_groups, finditer.
  destruct (finditer_from true r 0 0 s) as [|mt mts] eqn:E; [done|].
  destruct (finditer_from_elem true r 0 0 s mt) as (b & p & t & -> & Hm & _).
  { rewrite E. left. }
  destruct (needs_digit_matches _ _ _ _ Hn Hm) as (x & Hx & Hd).
  unfold no_digit in Hs. rewrite Forall_forall in Hs.
  rewrite (Hs x) in Hd; [done|]. rewrite !elem_of_app. tauto.
Qed.

Lemma priority_loop_no_digit (pats : list regex) (s : list N) :
  Forall (fun r => needs_digit r = true) pats -> no_digit s ->
  priority_loop pats s = None.
Proof.
  intros Hp Hs. induction Hp as [|r pats Hr Hp IH]; [done|].
  cbn [priority_loop]. by rewrite (findall_groups_no_digit r s Hr Hs).
Qed.

Lemma date_loop_no_digit (pats : list regex) (s : list N) :
  Forall (fun r => needs_digit r = true) pats -> no_digit s ->
  date_loop pats s = None.
Proof.
  intros Hp Hs. induction Hp as [|r pats Hr Hp IH]; [done|].
  cbn [date_loop]. by rewrite (findall_groups_no_digit r s Hr Hs).
Qed.

(** X4: without a decimal digit in its first 1500 characters, a content has
    no issue date, whatever words it holds. *)
Theorem issue_date_needs_digit (content filename : list N) :
  no_digit (take 1500 content) ->
  issue_date (extract_metadata content filename) = None.
Proof.
  intros Hs. unfold extract_metadata. cbv zeta. cbn [issue_date].
  unfold _extract_issue_date. cbv zeta.
  pose proof date_patterns_need_digit as Hp. apply Forall_app in Hp as [Hp1 Hp2].
  by rewrite (priority_loop_no_digit _ _ Hp1 Hs), (date_loop_no_digit _ _ Hp2 Hs).
Qed.

Lemma issue_date_needs_digit_witness :
  issue_date (extract_metadata (u "ban hành ngày mười chín tháng hai") []) = None.
Proof.
  apply issue_date_needs_digit. unfold no_digit.
  apply (bool_decide_unpack _). by vm_compute.
Defined.

End MetadataWindow.

(** ** Document types (metadata_extractor.py) *)

Section DocumentTypes.
Import Re Metadata.

(** The name of the type [doc_type], in any case, is followed in [text] by
    white space and then by a character that is not white space. *)
Definition type_named (doc_type text : list N) : Prop :=
  exists before name blank c rest,
    text = before ++ name ++ blank ++ c :: rest /\
    lower name = lower doc_type /\
    blank <> [] /\ Forall (fun x => is_space x = true) blank /\
    is_space c = false.

(** One of the three patterns of [doc_type] is found in [text]. *)
Definition type_hit (doc_type text : list N) : Prop :=
  existsb (fun p => bool_decide (is_Some (search true p text)))
          (type_patterns doc_type) = true.

Lemma digit_blocks_apart :
  Forall (fun b => (48 <= b /\ (b + 9 < 133 \/ 133 < b) /\ (b + 9 < 160 \/ 160 < b)
                    /\ (b + 9 < 5760 \/ 5760 < b) /\ (b + 9 < 8192 \/ 12288 < b))%N)
         digit_blocks.
Proof. apply (bool_decide_unpack _). by vm_compute. Qed.

Lemma digit_not_space (c : N) : is_digit c = true -> is_space c = false.
Proof.
  intros Hd. apply not_true_iff_false. intros Hs%is_space_bounds.
  unfold is_digit in Hd. apply existsb_elem_of in Hd as (b & Hb & Hd).
  apply in_range_true in Hd.
  pose proof digit_blocks_apart as H. rewrite Forall_forall in H.
  specialize (H b Hb). lia.
Qed.

Lemma matches_lit_of_lower (w p : list N) :
  lower p = lower w -> matches true (lit w) p [].
Proof.
  revert p. induction w as [|a w IH]; intros [|c p] H; try done; simpl.
  - constructor.
  - injection H as Hc Hp.
    apply (M_Cat true _ _ [c] p [] []); [|by apply IH].
    constructor. simpl. by rewrite Hc, N.eqb_refl.
Qed.

Lemma matches_lit_groups (w p : list N) (c : list (list N)) :
  matches true (lit w) p c -> lower p = lower w /\ c = [].
Proof.
  intros H. split; [by apply (matches_lit_lower w p c)|].
  by apply (matches_no_groups true (lit w) p c (no_groups_lit w)).
Qed.

Lemma search_from_is_Some (ic : bool) (r : regex) (pos : nat) (before t : list N) :
  is_Some (match_here ic r t) -> is_Some (search_from ic r pos (before ++ t)).
Proof.
  intros Ht. revert pos. induction before as [|c before IH]; intros pos.
  - destruct Ht as [[rest gs] Ht]. simpl. by rewrite (search_from_here _ _ _ _ _ _ Ht).
  - change ((c :: before) ++ t) with (c :: before ++ t). cbn [search_from].
    destruct (match_here ic r (c :: before ++ t)); [done|]. apply IH.
Qed.

(** Every match of a pattern of [doc_type] begins with the name, white
    space, and a character that is not white space. *)
Lemma type_pattern_shape (doc_type : list N) (pat : regex) (p : list N)
    (c : list (list N)) :
  pat ∈ type_patterns doc_type -> matches true pat p c ->
  exists name blank x rest, p = name ++ blank ++ x :: rest /\
    lower name = lower doc_type /\ blank <> [] /\
    Forall (fun y => is_space y = true) blank /\ is_space x = false.
Proof.
  unfold type_patterns. intros Hin Hm.
  assert (Hhead : forall rs, matches true (cat (lit doc_type :: plus sp :: rs)) p c ->
            exists name blank q cq, p = name ++ blank ++ q /\
              lower name = lower doc_type /\ blank <> [] /\
              Forall (fun y => is_space y = true) blank /\
              matches true (cat rs) q cq).
  { intros rs H.
    apply matches_cat_cons in H as (name & p1 & c0 & c1 & -> & _ & Hn & H).
    apply matches_cat_cons in H as (blank & q & c2 & cq & -> & _ & Hb & H).
    apply matches_lit_groups in Hn as [Hn _].
    apply matches_rep in Hb as (_ & Hb & Hlen).
    exists name, blank, q, cq. repeat split; try done.
    - intros ->. simpl in Hlen. lia.
    - eapply Forall_impl; [exact Hb|]. intros y. cbv beta. by rewrite atom_match_sp. }
  apply elem_of_cons in Hin as [->|Hin].
  { destruct (Hhead _ Hm) as (name & blank & q & cq & -> & Hn & Hb & Hsp & Hq).
    apply matches_cat_cons in Hq as (so & q1 & c0 & c1 & -> & _ & Hso & _).
    apply matches_lit_groups in Hso as [Hso _].
    destruct so as [|x so]; [done|]. injection Hso as Hx _.
    exists name, blank, x, (so ++ q1). repeat split; try done.
    rewrite <- is_space_char_lower, Hx. by vm_compute. }
  apply elem_of_cons in Hin as [->|Hin].
  { destruct (Hhead _ Hm) as (name & blank & q & cq & -> & Hn & Hb & Hsp & Hq).
    apply matches_cat_cons in Hq as (ds & q1 & c0 & c1 & -> & _ & Hds & _).
    apply matches_rep in Hds as (_ & Hds & Hlen).
    destruct Hds as [|x ds Hx Hds]; [simpl in Hlen; lia|].
    exists name, blank, x, (ds ++ q1). repeat split; try done.
    apply digit_not_space. by rewrite <- (atom_match_dg true). }
  apply list_elem_of_singleton in Hin as ->.
  destruct (Hhead _ Hm) as (name & blank & q & cq & -> & Hn & Hb & Hsp & Hq).
  apply matches_cat_cons in Hq as (ws & q1 & c0 & c1 & -> & _ & Hws & _).
  apply matches_rep in Hws as (_ & Hws & Hlen).
  destruct Hws as [|x ws Hx Hws]; [simpl in Hlen; lia|].
  exists name, blank, x, (ws ++ q1). repeat split; try done.
  simpl in Hx. rewrite orb_false_r in Hx. by apply negb_true_iff in Hx.
Qed.

(** The three patterns of a type find exactly the texts that name it: the
    third pattern alone decides, the words and digits asked for by the first
    two make no difference. *)
Lemma type_hit_named (doc_type text : list N) :
  type_hit doc_type text <-> type_named doc_type text.
Proof.
  unfold type_hit. rewrite existsb_elem_of. split.
  - intros (pat & Hin & Hs). apply bool_decide_eq_true in Hs as [mt Hs].
    apply search_from_sound in Hs as (before & p & rest & -> & Hm & _).
    destruct (type_pattern_shape _ _ _ _ Hin Hm)
      as (name & blank & x & q & -> & Hn & Hb & Hsp & Hx).
    exists before, name, blank, x, (q ++ rest). repeat split; try done.
    by rewrite <- !app_assoc.
  - intros (before & name & blank & x & rest & -> & Hn & Hb & Hsp & Hx).
    exists (cat [lit doc_type; plus sp; plus (ASet true [ISpace])]). split.
    { unfold type_patterns. right. right. left. }
    apply bool_decide_eq_true. unfold search. apply search_from_is_Some.
    replace (name ++ blank ++ x :: rest) with ((name ++ blank ++ [x]) ++ rest)
      by (by rewrite <- !app_assoc).
    apply (match_here_complete true _ _ rest ([] ++ [] ++ [] ++ [])).
    apply M_Cat; [by apply matches_lit_of_lower|].
    apply M_Cat.
    { constructor; [|destruct blank; [done|simpl; lia]|done].
      eapply Forall_impl; [exact Hsp|]. intros y. cbv beta. by rewrite atom_match_sp. }
    apply (M_Cat true _ _ [x] [] [] []); [|constructor].
    constructor; [|simpl; lia|done].
    constructor; [|constructor]. simpl. by rewrite Hx.
Qed.

#[local] Instance type_hit_dec (doc_type text : list N) : Decision (type_hit doc_type text).
Proof. unfold type_hit. apply _. Defined.

(** X5: the document type is the first type of [DOCUMENT_TYPES] that the
    first 1000 characters of the content name (its name in any case, then
    white space, then a character that is not white space); when the content
    names none, it is the first type whose lowercase name is in the lowercase
    file name; and it is [None] exactly when neither gives a type.  What is
    returned is always an entry of [DOCUMENT_TYPES]. *)
Theorem document_type_spec (content filename : list N) :
  let preview := take 1000 content in
  let result := document_type (extract_metadata content filename) in
  (forall t, result = Some t -> t ∈ DOCUMENT_TYPES) /\
  (forall (i : nat) t, DOCUMENT_TYPES !! i = Some t -> type_named t preview ->
     (forall (j : nat) t', (j < i)%nat -> DOCUMENT_TYPES !! j = Some t' ->
        ~ type_named t' preview) ->
     result = Some t) /\
  ((forall t, t ∈ DOCUMENT_TYPES -> ~ type_named t preview) ->
   forall (i : nat) t, DOCUMENT_TYPES !! i = Some t -> occurs_ci t filename ->
     (forall (j : nat) t', (j < i)%nat -> DOCUMENT_TYPES !! j = Some t' ->
        ~ occurs_ci t' filename) ->
     result = Some t) /\
  (result = None <->
   forall t, t ∈ DOCUMENT_TYPES -> ~ type_named t preview /\ ~ occurs_ci t filename).
Proof.
  cbv zeta. unfold extract_metadata. cbv zeta. cbn [document_type].
  unfold _extract_document_type. cbv zeta.
  change (fun doc_type => existsb _ (type_patterns doc_type) = true)
    with (fun doc_type => type_hit doc_type (take 1000 content)).
  change (fun doc_type => contains (lower doc_type) (lower filename) = true)
    with (fun doc_type => occurs_ci doc_type filename).
  generalize (take 1000 content). generalize DOCUMENT_TYPES. intros types preview.
  destruct (list_find (fun doc_type => type_hit doc_type preview) types)
    as [[i t]|] eqn:E1.
  - apply list_find_Some in E1 as (Hi & Ht & Hbefore).
    apply type_hit_named in Ht.
    assert (Hin : t ∈ types) by (by apply list_elem_of_lookup_2 in Hi).
    split; [by intros ? [= <-]|]. split; [|split].
    + intros i' t' Hi' Ht' Hb'.
      destruct (Nat.lt_trichotomy i i') as [Hlt|[->|Hgt]].
      * by destruct (Hb' i t Hlt Hi).
      * congruence.
      * destruct (Hbefore i' t' Hi' Hgt). by apply type_hit_named.
    + intros Hnone. by destruct (Hnone t Hin).
    + split; [done|]. intros H. by destruct (H t Hin) as [H1 _].
  - rewrite list_find_None, Forall_forall in E1.
    assert (Hnone : forall t, t ∈ types -> ~ type_named t preview).
    { intros t Hin Ht. apply (E1 t Hin). by apply type_hit_named. }
    destruct (list_find (fun doc_type => occurs_ci doc_type filename) types)
      as [[i t]|] eqn:E2.
    + apply list_find_Some in E2 as (Hi & Ht & Hbefore).
      assert (Hin : t ∈ types) by (by apply list_elem_of_lookup_2 in Hi).
      split; [by intros ? [= <-]|]. split; [|split].
      * intros i' t' Hi' Ht'. apply list_elem_of_lookup_2 in Hi'.
        by destruct (Hnone t' Hi').
      * intros _ i' t' Hi' Ht' Hb'.
        destruct (Nat.lt_trichotomy i i') as [Hlt|[->|Hgt]].
        -- by destruct (Hb' i t Hlt Hi).
        -- congruence.
        -- by destruct (Hbefore i' t' Hi' Hgt).
      * split; [done|]. intros H. by destruct (H t Hin) as [_ H2].
    + rewrite list_find_None, Forall_forall in E2.
      split; [done|]. split; [|split].
      * intros i' t' Hi' Ht'. apply list_elem_of_lookup_2 in Hi'.
        by destruct (Hnone t' Hi').
      * intros _ i' t' Hi' Ht'. apply list_elem_of_lookup_2 in Hi'.
        by destruct (E2 t' Hi').
      * split; [|done]. intros _ t Hin. split; [by apply Hnone|by apply E2].
Qed.

(** "QUYẾT ĐỊNH" in capitals, followed by a line break and a word: the
    fifth type, with neither "số" nor a number after the name. *)
Lemma document_type_spec_witness :
  document_type (extract_metadata ([10; 32]%N ++ u "QUYẾT ĐỊNH" ++ [10]%N ++ u "Về việc") [])
  = Some (u "Quyết định").
Proof.
  apply (proj1 (proj2 (document_type_spec _ [])) 4%nat).
  - reflexivity.
  - exists [10; 32]%N, (u "QUYẾT ĐỊNH"), [10]%N, 86%N, (tl (u "Về việc")).
    repeat split; try done. by repeat constructor.
  - intros j t' Hj Hl Hn. apply type_hit_named in Hn. revert Hn.
    do 4 (destruct j as [|j]; [injection Hl as <-; by vm_compute|]). lia.
Defined.

End DocumentTypes.

(** ** Removal of duplicates *)

Section DedupFacts.

Lemma elem_of_dedup_aux (seen l : list (list N)) (x : list N) :
  x ∈ dedup_aux seen l <-> x ∈ l /\ x ∉ seen.
Proof.
  revert seen. induction l as [|y l IH]; intros seen; simpl.
  - rewrite elem_of_nil. tauto.
  - case_bool_decide as Hy.
    + rewrite IH, elem_of_cons. split; [tauto|].
      intros [[->|H] Hx]; [done|tauto].
    + rewrite !elem_of_cons, IH, elem_of_cons.
      destruct (decide (x = y)) as [->|Hne]; tauto.
Qed.

Lemma elem_of_dedup (l : list (list N)) (x : list N) : x ∈ dedup l <-> x ∈ l.
Proof. unfold dedup. rewrite elem_of_dedup_aux, elem_of_nil. tauto. Qed.

Lemma NoDup_dedup_aux (seen l : list (list N)) : NoDup (dedup_aux seen l).
Proof.
  revert seen. induction l as [|y l IH]; intros seen; simpl; [constructor|].
  case_bool_decide; [apply IH|]. constructor; [|apply IH].
  rewrite elem_of_dedup_aux, elem_of_cons. tauto.
Qed.

Lemma NoDup_dedup (l : list (list N)) : NoDup (dedup l).
Proof. apply NoDup_dedup_aux. Qed.

Lemma dedup_aux_NoDup (seen l : list (list N)) :
  NoDup l -> (forall x, x ∈ l -> x ∉ seen) -> dedup_aux seen l = l.
Proof.
  revert seen. induction l as [|y l IH]; intros seen Hnd Hs; simpl; [done|].
  apply NoDup_cons in Hnd as [Hy Hnd].
  rewrite bool_decide_false by (apply Hs; left). f_equal. apply IH; [done|].
  intros x Hx. rewrite elem_of_cons. intros [->|H]; [done|].
  apply (Hs x); [by right|done].
Qed.

Lemma dedup_NoDup (l : list (list N)) : NoDup l -> dedup l = l.
Proof. intros H. apply dedup_aux_NoDup; [done|]. intros x _. apply not_elem_of_nil. Qed.

Lemma dedup_aux_seen (s1 s2 l : list (list N)) :
  (forall x, x ∈ s1 <-> x ∈ s2) -> dedup_aux s1 l = dedup_aux s2 l.
Proof.
  revert s1 s2. induction l as [|y l IH]; intros s1 s2 H; simpl; [done|].
  rewrite (bool_decide_ext (y ∈ s1) (y ∈ s2)) by apply H.
  case_bool_decide; [by apply IH|]. f_equal. apply IH.
  intros x. rewrite !elem_of_cons, H. done.
Qed.

Lemma dedup_aux_app (seen a b : list (list N)) :
  dedup_aux seen (a ++ b) = dedup_aux seen a ++ dedup_aux (a ++ seen) b.
Proof.
  revert seen. induction a as [|x a IH]; intros seen; simpl; [done|].
  case_bool_decide as Hx.
  - rewrite IH. f_equal. apply dedup_aux_seen. intros y.
    rewrite elem_of_cons, !elem_of_app. split; [tauto|]. intros [->|H]; tauto.
  - rewrite IH. simpl. do 2 f_equal. apply dedup_aux_seen. intros y.
    rewrite !elem_of_cons, !elem_of_app, elem_of_cons. tauto.
Qed.

Lemma dedup_app_NoDup (a b : list (list N)) :
  NoDup a -> dedup (a ++ b) = a ++ dedup_aux a b.
Proof.
  intros Ha. unfold dedup. rewrite dedup_aux_app, app_nil_r.
  f_equal. by apply dedup_NoDup.
Qed.

Lemma length_dedup_aux (seen l : list (list N)) :
  (length (dedup_aux seen l) <= length l)%nat.
Proof.
  revert seen. induction l as [|y l IH]; intros seen; simpl; [done|].
  case_bool_decide; simpl; [specialize (IH seen)|specialize (IH (y :: seen))]; lia.
Qed.

End DedupFacts.

(** ** Keywords, tags, places and suggestions (analyzer.py) *)

Section AnalysisLists.
Import Analyzer.

(** The list object that [extract_keywords_and_tags] names [keywords], as
    it is found before the call. *)
Definition keywords_before (classification : cls_dict) (h : list (list (list N)))
    : list (list N) :=
  match d_matched_keywords classification with
  | Some l => heap_get h l
  | None => []
  end.

(** The dict refers to a list object of the heap. *)
Definition valid_classification (classification : cls_dict)
    (h : list (list (list N))) : Prop :=
  forall l, d_matched_keywords classification = Some l -> (l < length h)%nat.

Lemma length_reference_numbers (content_lower : list N) :
  (length (reference_numbers content_lower) <= 6)%nat.
Proof.
  unfold reference_numbers. cbn [flat_map]. rewrite !length_app, !length_map, !length_take.
  cbn [length]. lia.
Qed.

Lemma keywords_after (content : list N) (classification : cls_dict)
    (h : list (list (list N))) :
  valid_classification classification h ->
  (extract_keywords_and_tags content classification h).1.1
  = take 10 (dedup (keywords_before classification h
                      ++ reference_numbers (lower content))).
Proof.
  intros Hv. unfold extract_keywords_and_tags, keywords_before.
  destruct (d_matched_keywords classification) as [l|] eqn:E.
  - cbn [fst]. by rewrite append_numbers_effect by (by apply Hv).
  - unfold heap_alloc. cbn [fst].
    rewrite append_numbers_effect by (rewrite length_app; simpl; lia).
    unfold heap_get. by rewrite lookup_app_r, Nat.sub_diag by lia.
Qed.

Lemma NoDup_take {A : Type} (n : nat) (l : list A) : NoDup l -> NoDup (take n l).
Proof.
  intros H. rewrite <- (take_drop n l) in H. by apply NoDup_app in H as [? _].
Qed.

(** X6: the keywords and tags of a document.  The keywords are the first
    10 distinct entries of the matched keywords followed by the reference
    numbers of the content ("ND", "QD" or "TT" and a number, at most two of
    each); the tags are, without repetition, the entries of [COMMON_TAGS]
    found in the lowercase content (with its underscores read as spaces or
    left out) and the main group when it is not empty. *)
Theorem extract_keywords_and_tags_spec (content : list N) (classification : cls_dict)
    (h : list (list (list N))) :
  let res := (extract_keywords_and_tags content classification h).1 in
  let main_group := default [] (d_main_group classification) in
  (valid_classification classification h ->
   res.1 = take 10 (dedup (keywords_before classification h
                             ++ reference_numbers (lower content)))) /\
  NoDup res.1 /\ (length res.1 <= 10)%nat /\
  (length (reference_numbers (lower content)) <= 6)%nat /\
  NoDup res.2 /\
  (forall tag, tag ∈ res.2 <->
     (tag ∈ COMMON_TAGS /\ tag_hit (lower content) tag = true) \/
     (tag = main_group /\ main_group <> [])).
Proof.
  cbv zeta. split; [apply keywords_after|].
  split; [|split; [|split; [apply length_reference_numbers|]]].
  - unfold extract_keywords_and_tags.
    destruct (match d_matched_keywords classification with
              | Some l => (l, h) | None => heap_alloc [] h end) as [l h0].
    cbn [fst]. apply NoDup_take, NoDup_dedup.
  - unfold extract_keywords_and_tags.
    destruct (match d_matched_keywords classification with
              | Some l => (l, h) | None => heap_alloc [] h end) as [l h0].
    cbn [fst]. rewrite length_take. lia.
  - unfold extract_keywords_and_tags.
    destruct (match d_matched_keywords classification with
              | Some l => (l, h) | None => heap_alloc [] h end) as [l h0].
    cbn [fst snd]. split; [apply NoDup_dedup|].
    intros tag. rewrite elem_of_dedup.
    destruct (default [] (d_main_group classification)) as [|c g] eqn:Eg; simpl.
    + rewrite list_elem_of_filter. split; [tauto|]. intros [H|[_ H]]; [tauto|done].
    + rewrite elem_of_app, list_elem_of_filter, list_elem_of_singleton. split.
      * intros [[? ?]|Ht]; [by left|by right].
      * intros [[? ?]|[Ht _]]; [by left|by right].
Qed.

(** A classification from outside the classifier: decree 15/2025 cited
    twice, with a keyword already in the list. *)
Lemma extract_keywords_and_tags_spec_witness :
  (extract_keywords_and_tags (u "Nghị định số 15/2025, nghị định số 15/2025")
     (ClsDict (Some (u "metro")) (Some 0%nat)) [[u "ND 15/2025,"]]).1.1
  = [u "ND 15/2025,"; u "ND 15/2025"].
Proof.
  rewrite (proj1 (extract_keywords_and_tags_spec
                    (u "Nghị định số 15/2025, nghị định số 15/2025")
                    (ClsDict (Some (u "metro")) (Some 0%nat)) [[u "ND 15/2025,"]])).
  - by vm_compute.
  - intros l [= <-]. simpl. lia.
Defined.

End AnalysisLists.

Section AnalysisSuggestions.
Import Analyzer.

(** The three suggestions that depend on the keywords. *)
Definition keyword_suggestions : list (list N) :=
  [u "Kiểm tra đầy đủ hồ sơ FS/FEED"; u "Rà soát tính pháp lý của tài liệu";
   u "Cập nhật tiến độ đấu thầu"].

Lemma group_actions_three :
  Forall (fun ga => NoDup ga.2 /\ length ga.2 = 3%nat) group_actions.
Proof. apply (bool_decide_unpack _). by vm_compute. Qed.

Lemma group_actions_NoDup : NoDup group_actions.*1.
Proof. apply (bool_decide_unpack _). by vm_compute. Qed.

Lemma take_dedup_prefix (acts extra : list (list N)) (n : nat) :
  NoDup acts -> length acts = n -> take n (dedup (acts ++ extra)) = acts.
Proof.
  intros Hnd Hn. rewrite dedup_app_NoDup by done.
  rewrite take_app_length' by done. done.
Qed.

Lemma suggestions_appended (b1 b2 b3 : bool) (s1 s2 s3 : list N)
    (acts : list (list N)) :
  (let s := if b1 then acts ++ [s1] else acts in
   let s := if b2 then s ++ [s2] else s in
   if b3 then s ++ [s3] else s)
  = acts ++ (if b1 then [s1] else []) ++ (if b2 then [s2] else [])
         ++ (if b3 then [s3] else []).
Proof. destruct b1, b2, b3; cbv zeta; by rewrite <- ?app_assoc, ?app_nil_r. Qed.

Lemma suggestions_appended_elem (b1 b2 b3 : bool) (s1 s2 s3 a : list N) :
  a ∈ (if b1 then [s1] else []) ++ (if b2 then [s2] else [])
        ++ (if b3 then [s3] else []) ->
  a ∈ [s1; s2; s3].
Proof.
  destruct b1, b2, b3; rewrite ?elem_of_app, ?elem_of_cons, ?elem_of_nil; tauto.
Qed.

(** The words looked for in the keywords. *)
Definition suggestion_words : list (list N) :=
  [u "fs"; u "feed"; u "phap_ly"; u "pháp lý"; u "dau_thau"; u "đấu thầu"].

(** The suggestions before the removal of duplicates: the actions of the
    group, then some of the keyword suggestions. *)
Lemma suggest_actions_shape (classification : cls_dict) (keywords : list (list N)) :
  exists extra,
    suggest_actions classification keywords
    = take 5 (dedup (dict_get group_actions (default [] (d_main_group classification)) []
                       ++ extra)) /\
    (forall a, a ∈ extra -> a ∈ keyword_suggestions) /\
    (~ (exists k w, k ∈ keywords /\ w ∈ suggestion_words /\
          contains w (lower k) = true) ->
     extra = []).
Proof.
  unfold suggest_actions. cbv zeta.
  set (has := fun w1 w2 : list N =>
                existsb (fun k => contains w1 k || contains w2 k) (map lower keywords)).
  assert (Hhas : forall w1 w2, w1 ∈ suggestion_words -> w2 ∈ suggestion_words ->
            ~ (exists k w, k ∈ keywords /\ w ∈ suggestion_words /\
                 contains w (lower k) = true) ->
            has w1 w2 = false).
  { intros w1 w2 H1 H2 Hno. apply not_true_iff_false.
    intros (k' & Hk' & Hc)%existsb_elem_of.
    apply list_elem_of_fmap in Hk' as (k & -> & Hk).
    apply Hno. apply orb_true_iff in Hc as [Hc|Hc]; [by exists k, w1|by exists k, w2]. }
  eexists. split; [|split].
  - f_equal. f_equal.
    apply (suggestions_appended (has (u "fs") (u "feed")) (has (u "phap_ly") (u "pháp lý"))
             (has (u "dau_thau") (u "đấu thầu"))).
  - intros a. apply suggestions_appended_elem.
  - intros Hno.
    rewrite !Hhas; [done|..]; try done;
      apply list_elem_of_In; unfold suggestion_words; simpl; tauto.
Qed.

(** X7: the suggested actions are at most 5, without repetition; each is
    an action of the main group or one of the three keyword suggestions; for
    a main group that has actions they begin with its three actions; and
    without such a group and without a keyword holding one of the words
    looked for, nothing is suggested. *)
Theorem suggest_actions_spec (classification : cls_dict) (keywords : list (list N)) :
  let main_group := default [] (d_main_group classification) in
  let s := suggest_actions classification keywords in
  NoDup s /\ (length s <= 5)%nat /\
  (forall a, a ∈ s ->
     a ∈ dict_get group_actions main_group [] \/ a ∈ keyword_suggestions) /\
  (forall acts, (main_group, acts) ∈ group_actions -> take 3 s = acts) /\
  (main_group ∉ group_actions.*1 ->
   ~ (exists k w, k ∈ keywords /\ w ∈ suggestion_words /\
        contains w (lower k) = true) ->
   s = []).
Proof.
  cbv zeta.
  destruct (suggest_actions_shape classification keywords) as (extra & -> & Hex & Hnone).
  generalize dependent (default [] (d_main_group classification)). intros g.
  split; [apply NoDup_take, NoDup_dedup|]. split; [rewrite length_take; lia|].
  split; [|split].
  - intros a Ha. apply elem_of_take in Ha as (i & Ha & _).
    apply list_elem_of_lookup_2, elem_of_dedup, elem_of_app in Ha as [Ha|Ha];
      [by left|right; by apply Hex].
  - intros acts Hin. rewrite (dict_get_lookup _ _ acts) by (apply group_actions_NoDup || done).
    pose proof group_actions_three as H3. rewrite Forall_forall in H3.
    destruct (H3 _ Hin) as [Hnd Hlen]. cbn [snd] in Hnd, Hlen.
    rewrite take_take. change (3 `min` 5)%nat with 3%nat.
    by apply take_dedup_prefix.
  - intros Hg Hno. rewrite (Hnone Hno), app_nil_r.
    destruct (dict_get_in group_actions g []) as [->|H]; [done|].
    assert (Hd : dict_get group_actions g [] = []); [|by rewrite Hd].
    clear -Hg. induction group_actions as [|[k v] d IH]; [done|].
    simpl. rewrite fmap_cons, not_elem_of_cons in Hg. destruct Hg as [Hk Hg].
    rewrite bool_decide_false by (cbn [fst] in Hk; congruence). by apply IH.
Qed.

(** The group 'metro', with the keyword "Pre-FS". *)
Lemma suggest_actions_spec_witness :
  take 3 (suggest_actions (ClsDict (Some (u "metro")) None) [u "Pre-FS"])
  = [u "Chuyển cho phòng kỹ thuật Metro";
     u "Kiểm tra tính đồng bộ với các tuyến khác";
     u "Xem xét yêu cầu FS/Pre-FS/FEED"].
Proof.
  apply (proj1 (proj2 (proj2 (proj2
           (suggest_actions_spec (ClsDict (Some (u "metro")) None) [u "Pre-FS"]))))).
  apply list_elem_of_In. vm_compute. left. reflexivity.
Defined.

Lemma common_locations_NoDup : NoDup common_locations.
Proof. apply (bool_decide_unpack _). by vm_compute. Qed.

(** X8: places and projects.  The locations are the entries of the fixed
    list that the content holds in the very case of the list, in the order
    of the list; the projects hold no entry twice, hold every entry of the
    fixed project list found in the content, and at most 3 entries read
    from the text besides. *)
Theorem identify_projects_locations_spec (content : list N) :
  let res := identify_projects_locations content in
  res.2 = filter (fun loc => contains loc content = true) common_locations /\
  NoDup res.1 /\
  (forall p, p ∈ common_projects -> contains p content = true -> p ∈ res.1) /\
  (length res.1 <= length common_projects + 3)%nat.
Proof.
  cbv zeta. unfold identify_projects_locations. cbv zeta. cbn [fst snd].
  split; [|split; [apply NoDup_dedup|split]].
  - apply dedup_NoDup, NoDup_filter, common_locations_NoDup.
  - intros p Hp Hc. apply elem_of_dedup, elem_of_app. left.
    by apply list_elem_of_filter.
  - etrans; [apply length_dedup_aux|].
    rewrite length_app, length_map, length_take.
    pose proof (length_filter (fun proj => contains proj content = true) common_projects).
    lia.
Qed.

(** The lowercase spelling of a place is not recognised. *)
Lemma identify_projects_locations_spec_witness :
  (identify_projects_locations (u "Tuyến 1 từ hà nội đi Hải Phòng")).2 = [u "Hải Phòng"] /\
  u "Tuyến 1" ∈ (identify_projects_locations (u "Tuyến 1 từ hà nội đi Hải Phòng")).1.
Proof.
  destruct (identify_projects_locations_spec (u "Tuyến 1 từ hà nội đi Hải Phòng"))
    as (H1 & _ & H3 & _).
  cbv zeta in H1, H3. split.
  - rewrite H1. by vm_compute.
  - apply H3; [|by vm_compute]. apply list_elem_of_In. vm_compute. tauto.
Defined.

End AnalysisSuggestions.

(** ** What [analyze] leaves alone (analyzer.py) *)

Section AnalyzeObjects.
Import Analyzer.

Lemma heap_get_append_ne (h : list (list (list N))) (l l' : nat) (x : list N) :
  l <> l' -> heap_get (heap_append l x h) l' = heap_get h l'.
Proof.
  intros Hne. unfold heap_get, heap_append. by rewrite list_lookup_alter_ne.
Qed.

Lemma fold_left_preserves {A B : Type} (f : A -> B -> A) (P : A -> Prop)
    (l : list B) (a : A) :
  (forall a b, P a -> P (f a b)) -> P a -> P (fold_left f l a).
Proof.
  intros Hf. revert a. induction l as [|b l IH]; intros a Ha; simpl; [done|].
  by apply IH, Hf.
Qed.

Lemma heap_get_append_prefix (h : list (list (list N))) (l l' : nat) (x : list N) :
  heap_get h l' `prefix_of` heap_get (heap_append l x h) l'.
Proof.
  destruct (decide (l = l')) as [<-|Hne].
  - unfold heap_get, heap_append. rewrite list_lookup_alter_eq.
    destruct (h !! l) as [v|]; simpl; [by exists [x]|done].
  - by rewrite heap_get_append_ne.
Qed.

(** The appends of [append_numbers] go to the one list object [keywords]. *)
Lemma append_numbers_frame (content_lower : list N) (l : nat)
    (h : list (list (list N))) :
  let h' := append_numbers content_lower l h in
  length h' = length h /\
  (forall l', l <> l' -> heap_get h' l' = heap_get h l') /\
  (forall l', heap_get h l' `prefix_of` heap_get h' l').
Proof.
  cbv zeta. unfold append_numbers.
  apply (fold_left_preserves _
           (fun h' => length h' = length h /\
                      (forall l', l <> l' -> heap_get h' l' = heap_get h l') /\
                      (forall l', heap_get h l' `prefix_of` heap_get h' l')));
    [|done].
  intros h1 pp H1.
  apply (fold_left_preserves _
           (fun h' => length h' = length h /\
                      (forall l', l <> l' -> heap_get h' l' = heap_get h l') /\
                      (forall l', heap_get h l' `prefix_of` heap_get h' l')));
    [|done].
  intros h2 mt (H2 & H3 & H4). split; [|split].
  - by rewrite length_heap_append.
  - intros l' Hne. by rewrite heap_get_append_ne, H3.
  - intros l'. etrans; [apply H4|apply heap_get_append_prefix].
Qed.

Lemma analyze_heap_new (openai : option completion) (content filename : list N)
    (classification : cls_dict) (use_openai : bool) (h : list (list (list N))) :
  d_matched_keywords classification = None ->
  (analyze openai content filename classification use_openai h).2
    = append_numbers (lower content) (length h) (h ++ [[]]).
Proof.
  intros Hl. unfold analyze, extract_keywords_and_tags. rewrite Hl.
  unfold heap_alloc. destruct (identify_projects_locations content). done.
Qed.

(** X9: the list objects after [analyze].  No list object is lost or
    shortened: each one present before the call is a prefix of what it is
    after the call; the only one that can grow is the list of the
    ['matched_keywords'] entry; and when the classification has no such
    entry, one new list is made and the others are left as they were. *)
Theorem analyze_frame (openai : option completion) (content filename : list N)
    (classification : cls_dict) (use_openai : bool) (h : list (list (list N))) :
  let h' := (analyze openai content filename classification use_openai h).2 in
  (forall l', (l' < length h)%nat ->
     heap_get h l' `prefix_of` heap_get h' l') /\
  (forall l', (l' < length h)%nat ->
     d_matched_keywords classification <> Some l' ->
     heap_get h' l' = heap_get h l') /\
  length h'
  = (if d_matched_keywords classification is Some _ then length h else S (length h)).
Proof.
  cbv zeta. destruct (d_matched_keywords classification) as [l|] eqn:E.
  - rewrite (analyze_heap _ _ _ _ _ _ l E).
    destruct (append_numbers_frame (lower content) l h) as (H1 & H2 & H3).
    cbv zeta in H1, H2, H3. split; [|split; [|done]].
    + intros l' _. apply H3.
    + intros l' _ Hne. apply H2. congruence.
  - rewrite (analyze_heap_new _ _ _ _ _ _ E).
    destruct (append_numbers_frame (lower content) (length h) (h ++ [[]]))
      as (H1 & H2 & H3).
    cbv zeta in H1, H2, H3.
    assert (Hold : forall l', (l' < length h)%nat ->
              heap_get (h ++ [[]]) l' = heap_get h l').
    { intros l' Hl'. unfold heap_get. by rewrite lookup_app_l. }
    split; [|split].
    + intros l' Hl'. rewrite <- (Hold l' Hl'). apply H3.
    + intros l' Hl' _. rewrite H2 by lia. by apply Hold.
    + rewrite H1, length_app. simpl. lia.
Qed.

(** Two list objects, the second one the matched keywords: the first is
    not touched. *)
Lemma analyze_frame_witness :
  heap_get (analyze None (u "Thông tư số 08/2024") []
              (ClsDict (Some (u "khac")) (Some 1%nat)) false
              [[u "metro"]; []]).2 0
  = [u "metro"].
Proof.
  apply (proj1 (proj2 (analyze_frame None (u "Thông tư số 08/2024") []
                         (ClsDict (Some (u "khac")) (Some 1%nat)) false
                         [[u "metro"]; []]))).
  - simpl. lia.
  - simpl. discriminate.
Defined.

End AnalyzeObjects.

(** ** The levels of [assess_security_level] and the summary prefix *)

Section LevelsAndSummary.
Import Analyzer.

Lemma levels_differ :
  nhay_cam <> noi_bo /\ nhay_cam <> cong_khai /\ noi_bo <> cong_khai.
Proof. by vm_compute. Qed.

Lemma noi_bo_is_sensitive : u "nội bộ" ∈ sensitive_keywords.
Proof. apply list_elem_of_In. vm_compute. tauto. Qed.

Lemma existsb_lower_keywords (kws : list (list N)) (f : list N -> bool) :
  Forall (fun kw => lower kw = kw) kws ->
  existsb f kws = true <-> exists kw, kw ∈ kws /\ f (lower kw) = true.
Proof.
  intros Hl. rewrite Forall_forall in Hl. rewrite existsb_elem_of.
  split; intros (kw & Hin & H); exists kw; (split; [done|]).
  - by rewrite (Hl kw Hin).
  - by rewrite (Hl kw Hin) in H.
Qed.

(** X10: the security level is one of the three levels, and each level is
    returned in exactly one situation: 'nhay_cam' when a sensitive keyword
    is in the text or in the file name; 'cong_khai' when there is none, the
    text does not hold 'dự thảo', and it holds a public keyword; 'noi_bo'
    in the remaining cases.  The test for 'nội bộ' of the second check
    decides nothing, since 'nội bộ' is a sensitive keyword: a text that
    holds it is 'nhay_cam'. *)
Theorem security_level_cases (content filename : list N) :
  let level := assess_security_level content filename in
  let sensitive := exists kw, kw ∈ sensitive_keywords /\
                     (occurs_ci kw content \/ occurs_ci kw filename) in
  let draft := occurs_ci (u "dự thảo") content in
  let public := exists kw, kw ∈ public_keywords /\ occurs_ci kw content in
  (level = nhay_cam \/ level = noi_bo \/ level = cong_khai) /\
  (level = nhay_cam <-> sensitive) /\
  (level = cong_khai <-> ~ sensitive /\ ~ draft /\ public) /\
  (level = noi_bo <-> ~ sensitive /\ (draft \/ ~ public)) /\
  (occurs_ci (u "nội bộ") content -> level = nhay_cam).
Proof.
  intros level sensitive draft public.
  destruct levels_differ as (D1 & D2 & D3).
  assert (Hs : existsb (fun keyword => contains keyword (lower content)
                          || contains keyword (lower filename)) sensitive_keywords = true
               <-> sensitive).
  { rewrite (existsb_lower_keywords _ _ sensitive_keywords_lower).
    unfold sensitive, occurs_ci.
    split; intros (kw & Hin & H); exists kw; (split; [done|]);
      by apply orb_true_iff. }
  assert (Hp : existsb (fun keyword => contains keyword (lower content))
                 public_keywords = true <-> public).
  { by rewrite (existsb_lower_keywords _ _ public_keywords_lower). }
  assert (Hn : occurs_ci (u "nội bộ") content -> sensitive).
  { intros H. exists (u "nội bộ"). split; [apply noi_bo_is_sensitive|by left]. }
  assert (Hd : contains (u "dự thảo") (lower content) = true <-> draft) by done.
  assert (Hnb : contains (u "nội bộ") (lower content) = true
                <-> occurs_ci (u "nội bộ") content) by done.
  unfold level, assess_security_level. cbv zeta. rewrite !for_return_existsb.
  clearbody sensitive draft public. clear level.
  destruct (existsb _ sensitive_keywords);
    [|destruct (contains (u "nội bộ") (lower content));
      [|destruct (contains (u "dự thảo") (lower content));
        [|destruct (existsb _ public_keywords)]]];
    cbn [orb];
    (assert (Hfalse : ~ false = true) by done);
    intuition congruence.
Qed.

(** A public notice that says it is for internal use. *)
Lemma security_level_cases_witness :
  assess_security_level (u "Thông báo công khai, lưu hành NỘI BỘ") [] = nhay_cam.
Proof.
  apply (proj2 (proj2 (proj2 (proj2
           (security_level_cases (u "Thông báo công khai, lưu hành NỘI BỘ") []))))).
  by vm_compute.
Defined.

Lemma summary_prefix_head (classification : cls_dict) :
  exists rest, summary_prefix classification = 84%N :: rest.
Proof.
  unfold summary_prefix.
  assert (H : u "Tài liệu thuộc nhóm: " = 84%N :: tl (u "Tài liệu thuộc nhóm: "))
    by (by vm_compute).
  rewrite H. by eexists.
Qed.

(** X11: every executive summary begins with the sentence that names the
    group, so none is empty.  When the model is asked and answers, the
    summary is that sentence followed by the stripped answer, and the text
    of the document is not used for it, even when the answer is blank. *)
Theorem executive_summary_prefix (openai : option completion) (content : list N)
    (classification : cls_dict) (use_openai : bool) :
  let s := create_executive_summary openai content classification use_openai in
  (exists body, s = summary_prefix classification ++ body) /\
  s <> [] /\
  (forall complete response,
     use_openai = true -> openai = Some complete ->
     complete summary_system_prompt
       (summary_user_prompt (group_name_of classification) content) = Some response ->
     s = summary_prefix classification ++ strip response).
Proof.
  cbv zeta. destruct (summary_prefix_head classification) as [rest Hp].
  assert (Hcases :
    create_executive_summary openai content classification use_openai
      = summary_prefix classification ++ summary_body content \/
    exists complete response,
      use_openai = true /\ openai = Some complete /\
      complete summary_system_prompt
        (summary_user_prompt (group_name_of classification) content) = Some response /\
      create_executive_summary openai content classification use_openai
        = summary_prefix classification ++ strip response).
  { unfold create_executive_summary, create_executive_summary_with_openai.
    destruct use_openai; [|by left]. destruct openai as [complete|]; [|by left].
    destruct (complete _ _) as [response|] eqn:E; [|by left].
    right. exists complete, response. rewrite Hp. simpl. by rewrite E. }
  split; [|split].
  - destruct Hcases as [->|(c & r & _ & _ & _ & ->)]; by eexists.
  - destruct Hcases as [->|(c & r & _ & _ & _ & ->)]; by rewrite Hp.
  - intros complete response Hu Ho Hc.
    destruct Hcases as [H|(c & r & _ & Ho' & Hc' & ->)].
    + unfold create_executive_summary, create_executive_summary_with_openai in *.
      rewrite Hu, Ho, Hc in *. rewrite Hp. by rewrite Hp in H.
    + congruence.
Qed.

(** A model that answers with blanks only. *)
Lemma executive_summary_prefix_witness :
  create_executive_summary (Some (fun _ _ => Some (u "  "))) (u "Nội dung") 
    (ClsDict (Some (u "chung_cu")) None) true
  = u "Tài liệu thuộc nhóm: Chung cư. ".
Proof.
  rewrite (proj2 (proj2 (executive_summary_prefix (Some (fun _ _ => Some (u "  ")))
                           (u "Nội dung") (ClsDict (Some (u "chung_cu")) None) true))
             (fun _ _ => Some (u "  ")) (u "  ") eq_refl eq_refl eq_refl).
  by vm_compute.
Defined.

End LevelsAndSummary.

(** ** The fallback answer (qa_system.py) *)

Section FallbackAnswer.
Import QA.

Lemma add_new_texts (texts parts : list (list N)) :
  fold_left (fun parts text =>
               if bool_decide (text ∈ parts) then parts else parts ++ [text])
            texts parts
  = parts ++ dedup_aux parts texts.
Proof.
  revert parts. induction texts as [|t texts IH]; intros parts; simpl.
  - by rewrite app_nil_r.
  - case_bool_decide as Ht; [apply IH|].
    rewrite IH, <- app_assoc. simpl. do 2 f_equal.
    apply dedup_aux_seen. intros x. rewrite elem_of_app, elem_of_cons, elem_of_nil.
    rewrite elem_of_cons. tauto.
Qed.

Lemma answer_parts_from (results : list result_item) (parts : list (list N)) :
  fold_left
    (fun parts result =>
       fold_left (fun parts text =>
                    if bool_decide (text ∈ parts) then parts else parts ++ [text])
                 (relevant_text result) parts)
    results parts
  = parts ++ dedup_aux parts (concat (map relevant_text results)).
Proof.
  revert parts. induction results as [|r results IH]; intros parts; simpl.
  - by rewrite app_nil_r.
  - rewrite add_new_texts, IH, dedup_aux_app, <- app_assoc. do 2 f_equal.
    apply dedup_aux_seen. intros x.
    rewrite !elem_of_app, elem_of_dedup_aux.
    destruct (decide (x ∈ parts)); tauto.
Qed.

(** The paragraphs of the answer: those of the results, each once, in the
    order in which they are first met. *)
Lemma answer_parts_dedup (results : list result_item) :
  answer_parts results = dedup (concat (map relevant_text results)).
Proof. unfold answer_parts. by rewrite answer_parts_from. Qed.

Lemma join_cons_length (sep x : list N) (l : list (list N)) :
  (length x <= length (join sep (x :: l)))%nat.
Proof. destruct l; simpl; rewrite ?length_app; lia. Qed.

Lemma dedup_head (x : list N) (l : list (list N)) :
  dedup (x :: l) = x :: dedup_aux [x] l.
Proof.
  unfold dedup. cbn [dedup_aux].
  case_bool_decide as H; [by apply elem_of_nil in H|done].
Qed.

(** The results of a search have relevant lines, each longer than 20
    characters. *)
Lemma search_result_lines (db : option DocumentDB) (question : list N)
    (category : option (list N)) (r : result_item) :
  r ∈ search_documents db question category 5 ->
  exists line lines, relevant_text r = line :: lines /\ (20 < length line)%nat.
Proof.
  unfold search_documents. intros Hr.
  apply search_in_elem in Hr as (doc & _ & Hone); [|done].
  apply search_one_some in Hone as (Hrt & Hne & _).
  destruct (relevant_text r) as [|line lines] eqn:E; [done|].
  exists line, lines. split; [done|].
  assert (Hin : line ∈ relevant_paragraphs (split_ws (lower question)) (doc_content doc)).
  { assert (H : line ∈ take 3 (relevant_paragraphs (split_ws (lower question))
                                 (doc_content doc))) by (rewrite <- Hrt; left).
    apply elem_of_take in H as (i & H & _). by apply list_elem_of_lookup_2 in H. }
  by apply relevant_paragraphs_elem in Hin as (para & _ & _ & Hlen & _).
Qed.

Lemma fallback_answer_long (results : list result_item) (r : result_item)
    (rest : list result_item) (line : list N) (lines : list (list N)) :
  results = r :: rest -> relevant_text r = line :: lines ->
  (length line <= length (answer (fallback_answer results)))%nat.
Proof.
  intros -> Hr. unfold fallback_answer. cbn [answer].
  rewrite answer_parts_dedup. cbn [take map concat]. rewrite Hr.
  change ((line :: lines) ++ ?x) with (line :: lines ++ x).
  rewrite dedup_head. cbn [take]. apply join_cons_length.
Qed.

(** X12: the text of an answer given without the model.  It is made of at
    most 3 paragraphs joined by blank lines: the first 3 distinct relevant
    lines of the first 3 results, in the order of the results. *)
Theorem answer_question_fallback_text (db : option DocumentDB)
    (client : option Analyzer.completion) (question : list N)
    (category : option (list N)) :
  let results := search_documents db question category 5 in
  let parts := take 3 (dedup (concat (map relevant_text (take 3 results)))) in
  results <> [] ->
  answer (answer_question db client question category false) = join (nl ++ nl) parts /\
  NoDup parts /\ (length parts <= 3)%nat /\
  (forall p, p ∈ parts -> exists r, r ∈ take 3 results /\ p ∈ relevant_text r).
Proof.
  cbv zeta. intros Hne. split; [|split; [|split]].
  - unfold answer_question. cbv zeta.
    destruct (search_documents db question category 5) as [|r rest]; [done|].
    cbn [andb]. unfold fallback_answer. cbn [answer]. by rewrite answer_parts_dedup.
  - apply NoDup_take, NoDup_dedup.
  - rewrite length_take. lia.
  - intros p Hp. apply elem_of_take in Hp as (i & Hp & _).
    apply list_elem_of_lookup_2 in Hp. apply (proj1 (elem_of_dedup _ _)) in Hp.
    apply list_elem_of_In, in_concat in Hp as (ps & Hps & Hp).
    apply in_map_iff in Hps as (r & <- & Hr).
    exists r. by rewrite !list_elem_of_In.
Qed.

(** Two stored files with the same text. *)
Definition same_text_documents : DocumentDB :=
  {| get_documents_by_category := fun _ => Some [];
     get_all_documents :=
       Some [DbRow 7 (u "ban-chinh.txt") (u "Khac") None None None;
             DbRow 8 (u "ban-sao.txt") (u "Khac") None None None];
     get_document := fun _ =>
       Some (Some (u "Dự án nhà ở xã hội tại Bình Dương" ++ nl ++ u "Phụ lục")) |}.

(** The line that both files hold is given once. *)
Lemma answer_question_fallback_text_witness :
  answer (answer_question (Some same_text_documents) None (u "Nhà ở") None false)
  = u "Dự án nhà ở xã hội tại Bình Dương".
Proof.
  rewrite (proj1 (answer_question_fallback_text (Some same_text_documents) None
                    (u "Nhà ở") None ltac:(by vm_compute))).
  by vm_compute.
Defined.

(** X13: [answer_question] never gives an empty answer: without results
    it is the fixed sentence, with the model it is an answer found not
    empty, and otherwise it holds a relevant line, of more than 20
    characters. *)
Theorem answer_question_not_empty (db : option DocumentDB)
    (client : option Analyzer.completion) (question : list N)
    (category : option (list N)) (use_openai : bool) :
  let res := answer_question db client question category use_openai in
  answer res <> [] /\
  (search_documents db question category 5 <> [] -> method res = simple ->
   (20 < length (answer res))%nat).
Proof.
  cbv zeta.
  assert (Hfb : search_documents db question category 5 <> [] ->
            (20 < length (answer (fallback_answer
                                    (search_documents db question category 5))))%nat).
  { intros Hne.
    destruct (search_documents db question category 5) as [|r rest] eqn:E; [done|].
    destruct (search_result_lines db question category r) as (line & lines & Hr & Hlen).
    { rewrite E. left. }
    pose proof (fallback_answer_long (r :: rest) r rest line lines eq_refl Hr). lia. }
  assert (Hinfo : no_information <> []) by (by vm_compute).
  assert (Hm : openai <> simple) by apply method_names_differ.
  unfold answer_question. cbv zeta.
  destruct (search_documents db question category 5) as [|r rest] eqn:E.
  { cbn [answer]. split; [done|]. by intros H. }
  specialize (Hfb ltac:(done)).
  assert (Hfb' : answer (fallback_answer (r :: rest)) <> []).
  { intros H0. rewrite H0 in Hfb. simpl in Hfb. lia. }
  assert (Hfm : method (fallback_answer (r :: rest)) = simple) by done.
  destruct (use_openai && bool_decide (is_Some client)); [|done].
  destruct (_answer_with_openai client question (r :: rest)) as [a|]; [|done].
  destruct (nonempty a) eqn:Ea; [|done].
  cbn [answer method]. split; [by apply nonempty_true|]. intros _ H. by destruct Hm.
Qed.

Lemma answer_question_not_empty_witness :
  (20 < length (answer (answer_question (Some same_text_documents)
                          (Some (fun _ _ => Some [])) (u "Nhà ở") None true)))%nat.
Proof.
  apply (proj2 (answer_question_not_empty (Some same_text_documents)
                  (Some (fun _ _ => Some [])) (u "Nhà ở") None true)).
  - by vm_compute.
  - by vm_compute.
Defined.

End FallbackAnswer.

(** ** The context sent to the model (qa_system.py) *)

Section ModelContext.
Import QA.

(** The characters that [context_part] and the join put around the content
    of one document. *)
Definition header_length (doc : result_item) : nat := 12 + length (r_filename doc).
Definition headers_length (docs : list result_item) : nat :=
  foldr (fun doc n => header_length doc + n)%nat 0%nat docs.

Lemma length_context_part (filename content : list N) :
  length (context_part filename content) = (11 + length filename + length content)%nat.
Proof.
  unfold context_part, nl.
  change (u "=== ") with [61; 61; 61; 32]%N. change (u " ===") with [32; 61; 61; 61]%N.
  rewrite !length_app. simpl. lia.
Qed.

Lemma length_join_le (sep x : list N) (l : list (list N)) :
  (length (join sep (x :: l)) <= length x + length sep + length (join sep l))%nat.
Proof. destruct l; simpl; rewrite ?length_app; simpl; lia. Qed.

Lemma context_parts_bound (docs : list result_item) (total : nat) :
  (total <= max_context_length)%nat ->
  (total + length (join nl (context_parts docs total))
   <= max_context_length + headers_length docs)%nat /\
  (length (context_parts docs total) <= length docs)%nat.
Proof.
  revert total. induction docs as [|doc docs IH]; intros total Ht.
  - cbn [context_parts join length headers_length foldr]. lia.
  - cbn [context_parts]. cbv zeta.
    destruct (max_context_length <? total + length (full_content doc))%nat eqn:E.
    + cbn [join headers_length foldr length]. rewrite length_context_part, length_take.
      unfold header_length. lia.
    + apply Nat.ltb_ge in E. destruct (IH _ E) as [IH1 IH2].
      pose proof (length_join_le nl
                    (context_part (r_filename doc) (full_content doc))
                    (context_parts docs (total + length (full_content doc)))) as Hj.
      rewrite length_context_part in Hj. unfold nl at 2 in Hj.
      cbn [headers_length foldr length] in *. fold (headers_length docs) in *.
      unfold header_length at 1. lia.
Qed.

(** X14: the context given to the model holds at most 3 documents and at
    most 10000 characters of their contents: its length is at most 10000
    plus, for each of the first 3 results, the 12 characters of its header
    and separator and the length of its file name. *)
Theorem answer_context_bounded (context_docs : list result_item) :
  let parts := context_parts (take 3 context_docs) 0 in
  (length parts <= 3)%nat /\
  (length (join nl parts)
   <= Z.to_nat 10000 + headers_length (take 3 context_docs))%nat.
Proof.
  cbv zeta.
  destruct (context_parts_bound (take 3 context_docs) 0 ltac:(lia)) as [H1 H2].
  split.
  - rewrite length_take in H2. lia.
  - unfold max_context_length in H1. lia.
Qed.

End ModelContext.

(** ** Questions without answer, order of the results, listing (qa_system.py) *)

Section SearchEdges.
Import QA.

Lemma split_ws_aux_blank (s : list N) :
  Forall (fun c => is_space c = true) s -> split_ws_aux [] s = [].
Proof. induction 1 as [|c s Hc Hs IH]; simpl; [done|]. by rewrite Hc. Qed.

Lemma lower_blank (s : list N) :
  Forall (fun c => is_space c = true) s -> Forall (fun c => is_space c = true) (lower s).
Proof.
  intros H. unfold lower. apply Forall_fmap. eapply Forall_impl; [exact H|].
  intros c Hc. simpl. by rewrite is_space_char_lower.
Qed.

Lemma omap_none {A B : Type} (f : A -> option B) (l : list A) :
  (forall x, x ∈ l -> f x = None) -> omap f l = [].
Proof.
  induction l as [|x l IH]; intros H; csimpl; [done|].
  rewrite (H x) by left. apply IH. intros y Hy. apply H. by right.
Qed.

Lemma search_in_no_token (documents : list document) (question : list N)
    (max_docs : Z) :
  split_ws (lower question) = [] -> search_in documents question max_docs = [].
Proof.
  intros Hq. unfold search_in. destruct documents as [|d ds]; [done|].
  cbv zeta. rewrite Hq, omap_none; [done|]. intros doc _. done.
Qed.

(** X15: a question made of white space only (the empty question too) has
    no token, and finds nothing whatever the store holds: the search gives
    no result and the answer is the fixed sentence, with confidence 'low',
    by the method 'simple', whatever the client and [use_openai] are.  The
    same holds for every question when no store is attached. *)
Theorem blank_question_no_answer (db : option DocumentDB)
    (client : option Analyzer.completion) (question : list N)
    (category : option (list N)) (max_docs : Z) (use_openai : bool) :
  Forall (fun c => is_space c = true) question \/ db = None ->
  search_documents db question category max_docs = [] /\
  answer_question db client question category use_openai
    = QAResult no_information [] low simple.
Proof.
  intros H.
  assert (Hs : forall n, search_documents db question category n = []).
  { intros n. unfold search_documents. destruct H as [H| ->]; [|done].
    apply search_in_no_token. unfold split_ws. by apply split_ws_aux_blank, lower_blank. }
  split; [apply Hs|]. unfold answer_question. cbv zeta. by rewrite Hs.
Qed.

Lemma blank_question_no_answer_witness :
  answer_question (Some same_text_documents) (Some (fun _ _ => Some (u "ok")))
    [32; 9; 10; 160; 12288]%N None true
  = QAResult no_information [] low simple.
Proof.
  apply (blank_question_no_answer (Some same_text_documents) _ _ None 5 true).
  left. by repeat constructor.
Defined.

#[local] Instance match_score_dec (s : Z) (r : result_item) : Decision (match_score r = s).
Proof. apply _. Defined.

Lemma insert_by_score_stable (s : Z) (x : result_item) (l : list result_item) :
  filter (fun r => match_score r = s) (insert_by_score x l)
  = filter (fun r => match_score r = s) (x :: l).
Proof.
  induction l as [|y l IH]; [done|]. cbn [insert_by_score].
  destruct (match_score x <? match_score y) eqn:E; [|done].
  apply Z.ltb_lt in E. rewrite (filter_cons _ y), IH, !filter_cons.
  destruct (decide (match_score y = s)), (decide (match_score x = s)); try done. lia.
Qed.

Lemma sort_by_score_stable (s : Z) (l : list result_item) :
  filter (fun r => match_score r = s) (sort_by_score l)
  = filter (fun r => match_score r = s) l.
Proof.
  induction l as [|x l IH]; [done|]. cbn [sort_by_score foldr].
  fold (sort_by_score l). by rewrite insert_by_score_stable, !filter_cons, IH.
Qed.

(** X16: the order of the results is stable.  The results with one and the
    same match count stand in the order in which the store listed their
    documents. *)
Theorem search_documents_stable (db : option DocumentDB) (question : list N)
    (category : option (list N)) (max_docs : Z) (s : Z) :
  0 <= max_docs ->
  let listed := take (Z.to_nat max_docs) (get_documents_by_group db category) in
  filter (fun r => match_score r = s) (search_documents db question category max_docs)
  = filter (fun r => match_score r = s)
           (omap (search_one (split_ws (lower question))) listed).
Proof.
  intros Hmax. cbv zeta. unfold search_documents, search_in.
  destruct (get_documents_by_group db category) as [|d ds]; [by rewrite take_nil|].
  cbv zeta. by rewrite sort_by_score_stable, slice_to_nonneg.
Qed.

(** Three files: the second matches both tokens and comes first, the other
    two keep their order. *)
Definition three_documents : DocumentDB :=
  {| get_documents_by_category := fun _ => Some [];
     get_all_documents :=
       Some (map (fun id => DbRow id (u "doc.txt") (u "Khac") None None None) [1; 2; 3]);
     get_document := fun id =>
       Some (Some (if id =? 2 then u "Tuyến metro số 1 Bến Thành - Suối Tiên"
                   else u "Quy hoạch tuyến đường sắt đô thị")) |}.

Lemma search_documents_stable_witness :
  map r_id (search_documents (Some three_documents) (u "tuyến metro") None 5) = [2; 1; 3] /\
  map r_id (filter (fun r => match_score r = 1)
              (search_documents (Some three_documents) (u "tuyến metro") None 5))
  = [1; 3].
Proof.
  split; [by vm_compute|].
  rewrite (search_documents_stable (Some three_documents) (u "tuyến metro") None 5 1
             ltac:(lia)).
  by vm_compute.
Defined.

(** The row of the store that a document of the listing was built from. *)
Definition document_of_row (db : DocumentDB) (row : db_row) (doc : document) : Prop :=
  doc = Document (row_id row) (row_filename row) (doc_content doc) (row_category row)
          (row_document_type row) (row_issuing_agency row) (row_issue_date row) /\
  get_document db (row_id row) = Some (Some (doc_content doc)) /\
  doc_content doc <> [].

Lemma truthy_Some (o : option (list N)) (s : list N) :
  truthy o = Some s <-> o = Some s /\ s <> [].
Proof.
  destruct o as [[|c t]|]; simpl; split; intros H; try done.
  - by destruct H as [[= <-] H].
  - injection H as <-. by split.
  - by destruct H as [[= <-] _].
  - by destruct H.
Qed.

(** The listing that [get_documents_by_group] asks the store for: an empty
    category is read as no category. *)
Definition listing (db : DocumentDB) (category : option (list N))
    : option (list db_row) :=
  match category with
  | Some (c :: cs) => get_documents_by_category db (c :: cs)
  | _ => get_all_documents db
  end.

Lemma collect_documents_elem (db : DocumentDB) (rows : list db_row) (doc : document) :
  doc ∈ collect_documents db rows ->
  exists row, row ∈ rows /\ document_of_row db row doc.
Proof.
  induction rows as [|row rows IH]; simpl; [by intros H%elem_of_nil|].
  destruct (get_document db (row_id row)) as [full|] eqn:E; [|by intros H%elem_of_nil].
  assert (Hrec : doc ∈ collect_documents db rows ->
            exists row0, row0 ∈ row :: rows /\ document_of_row db row0 doc).
  { intros (row0 & Hin & Hd)%IH. exists row0. split; [by right|done]. }
  destruct (truthy full) as [s|] eqn:Et; [|done].
  apply truthy_Some in Et as [-> Hs].
  intros [->|H]%elem_of_cons; [|by apply Hrec].
  exists row. split; [left|]. by repeat split.
Qed.

Lemma collect_documents_sublist (db : DocumentDB) (rows : list db_row) :
  map doc_id (collect_documents db rows) `sublist_of` map row_id rows.
Proof.
  induction rows as [|row rows IH]; simpl; [done|].
  destruct (get_document db (row_id row)) as [full|]; [|apply sublist_nil_l].
  destruct (truthy full); simpl; [by apply sublist_skip|by apply sublist_cons].
Qed.

Lemma collect_documents_all (db : DocumentDB) (rows : list db_row) (row : db_row)
    (s : list N) :
  (forall row0, row0 ∈ rows -> is_Some (get_document db (row_id row0))) ->
  row ∈ rows -> get_document db (row_id row) = Some (Some s) -> s <> [] ->
  Document (row_id row) (row_filename row) s (row_category row)
    (row_document_type row) (row_issuing_agency row) (row_issue_date row)
  ∈ collect_documents db rows.
Proof.
  intros Hall Hin Hg Hs. induction rows as [|row0 rows IH]; [by apply elem_of_nil in Hin|].
  simpl. destruct (Hall row0 ltac:(left)) as [full Hfull]. rewrite Hfull.
  assert (Hrec : row ∈ rows ->
            Document (row_id row) (row_filename row) s (row_category row)
              (row_document_type row) (row_issuing_agency row) (row_issue_date row)
            ∈ collect_documents db rows).
  { intros H. apply IH; [|done]. intros r Hr. apply Hall. by right. }
  apply elem_of_cons in Hin as [<-|Hin].
  - rewrite Hg in Hfull. injection Hfull as <-.
    rewrite (proj2 (truthy_Some (Some s) s)) by done. left.
  - destruct (truthy full); [right|]; by apply Hrec.
Qed.

(** X17: the documents handed to the search.  Without a store, or when
    the listing fails, there are none.  Otherwise each document comes from a
    row of the listing (all rows when the category is [None] or empty), with
    the fields of the row and the non-empty text that [get_document] gives
    for its id; the documents follow the order of the rows; and when no call
    of [get_document] fails, every row with a non-empty text gives a
    document. *)
Theorem get_documents_by_group_spec (db : option DocumentDB)
    (category : option (list N)) :
  let docs := get_documents_by_group db category in
  (db = None -> docs = []) /\
  (forall d, db = Some d -> listing d category = None -> docs = []) /\
  (forall d rows, db = Some d -> listing d category = Some rows ->
     (forall doc, doc ∈ docs -> exists row, row ∈ rows /\ document_of_row d row doc) /\
     map doc_id docs `sublist_of` map row_id rows /\
     ((forall row, row ∈ rows -> is_Some (get_document d (row_id row))) ->
      forall row s, row ∈ rows -> get_document d (row_id row) = Some (Some s) ->
        s <> [] -> exists doc, doc ∈ docs /\ document_of_row d row doc)).
Proof.
  cbv zeta. split; [by intros ->|].
  assert (Hl : forall d, db = Some d ->
            get_documents_by_group db category
            = match listing d category with
              | Some rows => collect_documents d rows
              | None => []
              end).
  { intros d ->. unfold get_documents_by_group, listing. by destruct category as [[|c cs]|]. }
  split.
  - intros d Hd Hnone. by rewrite (Hl d Hd), Hnone.
  - intros d rows Hd Hrows. rewrite (Hl d Hd), Hrows. split; [|split].
    + intros doc. apply collect_documents_elem.
    + apply collect_documents_sublist.
    + intros Hall row s Hin Hg Hs. eexists. split.
      * by apply (collect_documents_all d rows row s).
      * by repeat split.
Qed.

(** A store whose second text is empty and whose third lookup fails: the
    first row alone gives a document, also for the empty category. *)
Definition failing_documents : DocumentDB :=
  {| get_documents_by_category := fun _ => None;
     get_all_documents :=
       Some (map (fun id => DbRow id (u "doc.txt") (u "Khac") None None None)
                 [1; 2; 3; 4]);
     get_document := fun id =>
       if id =? 3 then None
       else Some (if id =? 2 then Some [] else Some (u "Chung cư")) |}.

Lemma get_documents_by_group_spec_witness :
  Forall (fun doc => doc_content doc <> [])
         (get_documents_by_group (Some failing_documents) (Some [])) /\
  map doc_id (get_documents_by_group (Some failing_documents) (Some [])) = [1].
Proof.
  split; [|by vm_compute]. apply Forall_forall. intros doc Hdoc.
  destruct (proj2 (proj2 (get_documents_by_group_spec (Some failing_documents) (Some [])))
              failing_documents _ eq_refl eq_refl) as (H & _).
  by destruct (H doc Hdoc) as (row & _ & _ & _ & Hne).
Defined.

End SearchEdges.

(** ** Reading a row of the table (database.py) *)

Section TableLookup.
Import Database.

Lemma ids_le_max (l : list row) (r : row) :
  r ∈ l -> id r <= foldr Z.max 0 (map id l).
Proof.
  induction l as [|x l IH]; [by intros H%elem_of_nil|].
  cbn [map foldr]. intros [->|H]%elem_of_cons; [lia|]. specialize (IH H). lia.
Qed.

Lemma ids_lt_next_id (t : table) (r : row) : r ∈ rows t -> id r < next_id t.
Proof. intros H%ids_le_max. unfold next_id. lia. Qed.

Lemma filter_none {A : Type} (P : A -> Prop) `{!forall x, Decision (P x)} (l : list A) :
  (forall x, x ∈ l -> ~ P x) -> filter P l = [].
Proof.
  induction l as [|x l IH]; intros Hl; [done|].
  rewrite filter_cons_False by (apply Hl; left). apply IH. intros y Hy. apply Hl. by right.
Qed.

Lemma filter_all {A : Type} (P : A -> Prop) `{!forall x, Decision (P x)} (l : list A) :
  (forall x, x ∈ l -> P x) -> filter P l = l.
Proof.
  induction l as [|x l IH]; intros Hl; [done|].
  rewrite filter_cons_True by (apply Hl; left). f_equal. apply IH.
  intros y Hy. apply Hl. by right.
Qed.

Lemma get_document_app_new (l : list row) (new : row) (j : Z) :
  (forall r, r ∈ l -> id r <> id new) ->
  head (filter (fun r => id r = j) (l ++ [new]))
  = if bool_decide (j = id new) then Some new
    else head (filter (fun r => id r = j) l).
Proof.
  intros Hnew. rewrite filter_app. case_bool_decide as Hj.
  - subst j. rewrite (filter_none _ l) by done.
    simpl. by rewrite filter_cons_True.
  - rewrite filter_cons_False by congruence. by rewrite filter_nil, app_nil_r.
Qed.

Section SavedRow.
Context {Dict : Type} (dumps : Dict -> list N) (not_empty : Dict -> bool)
        (numeric : list N -> bool).

(** The row that [save_document] appends is the one found under the new
    id, and the rows found under the other ids are those of before. *)
Lemma get_document_saved (t : table) (filename : list N) (file_data : list N)
    (file_type category : list N)
    (document_type issuing_agency issue_date content_text : option (list N))
    (classification_result analysis_result : option Dict) (now1 now2 : Z) :
  let res := save_document dumps not_empty numeric t filename file_data file_type
               category document_type issuing_agency issue_date content_text
               classification_result analysis_result now1 now2 in
  get_document res.2 res.1
  = Some (Row res.1 filename file_type (Z.of_nat (length file_data)) file_data
            category document_type issuing_agency
            (store_date numeric <$> formatted_date issue_date)
            content_text (to_json dumps not_empty classification_result)
            (to_json dumps not_empty analysis_result) now1 now2) /\
  (forall j, j <> res.1 -> get_document res.2 j = get_document t j).
Proof.
  cbv zeta. unfold save_document. cbv zeta. cbn [fst snd].
  set (new := Row (next_id t) _ _ _ _ _ _ _ _ _ _ _ _ _).
  assert (Hnew : forall r, r ∈ rows t -> id r <> id new).
  { intros r Hr%ids_lt_next_id. cbn [id new]. lia. }
  unfold get_document. cbn [rows sequence]. split.
  - rewrite (get_document_app_new _ new _ Hnew). by rewrite bool_decide_true.
  - intros j Hj. rewrite (get_document_app_new _ new _ Hnew).
    by rewrite bool_decide_false.
Qed.

End SavedRow.

End TableLookup.

(** ** The stored date (database.py) *)

Section StoredDate.
Import Metadata.
Import Database (formatted_date).

Lemma split_on_no_sep (sep : N) (s : list N) : sep ∉ s -> split_on sep s = [s].
Proof.
  induction s as [|c s IH]; intros Hs; simpl; [done|].
  apply not_elem_of_cons in Hs as [Hc Hs].
  rewrite (proj2 (N.eqb_neq c sep)) by congruence. by rewrite IH.
Qed.

Lemma split_on_app (sep : N) (a rest : list N) :
  sep ∉ a -> split_on sep (a ++ sep :: rest) = a :: split_on sep rest.
Proof.
  induction a as [|c a IH]; intros Ha; simpl.
  - by rewrite N.eqb_refl.
  - apply not_elem_of_cons in Ha as [Hc Ha].
    rewrite (proj2 (N.eqb_neq c sep)) by congruence. by rewrite IH.
Qed.

Lemma split_on_elem (sep : N) (s w : list N) : w ∈ split_on sep s -> sep ∉ w.
Proof.
  revert w. induction s as [|c s IH]; intros w; simpl.
  - intros ->%list_elem_of_singleton. apply not_elem_of_nil.
  - destruct (c =? sep)%N eqn:E.
    + intros [->|H]%elem_of_cons; [apply not_elem_of_nil|by apply IH].
    + apply N.eqb_neq in E. destruct (split_on sep s) as [|w0 ws].
      * intros ->%list_elem_of_singleton. apply not_elem_of_cons. split; [congruence|].
        apply not_elem_of_nil.
      * intros [->|H]%elem_of_cons.
        -- apply not_elem_of_cons. split; [congruence|]. apply IH. left.
        -- apply IH. by right.
Qed.

Lemma nth_split_on (sep : N) (s : list N) (n : nat) : sep ∉ nth n (split_on sep s) [].
Proof.
  destruct (nth_in_or_default n (split_on sep s) []) as [H| ->].
  - by apply (split_on_elem sep s), list_elem_of_In.
  - apply not_elem_of_nil.
Qed.

Lemma contains_char (c : N) (s : list N) : contains [c] s = true <-> c ∈ s.
Proof.
  rewrite contains_true. split.
  - intros (a & b & ->). rewrite !elem_of_app, list_elem_of_singleton. tauto.
  - intros (a & b & ->)%list_elem_of_split. by exists a, b.
Qed.

Lemma replace_char (a b : N) (s : list N) :
  replace [a] [b] s = map (fun c => if (c =? a)%N then b else c) s.
Proof.
  unfold replace. induction s as [|c s IH]; simpl; [done|].
  rewrite andb_true_r, (N.eqb_sym a c). destruct (c =? a)%N; simpl; by rewrite IH.
Qed.

(** The date built from three parts that hold no slash. *)
Lemma formatted_date_parts (a b c : list N) :
  47%N ∉ a -> 47%N ∉ b -> 47%N ∉ c ->
  formatted_date (Some (a ++ u "/" ++ b ++ u "/" ++ c))
  = Some (c ++ u "-" ++ b ++ u "-" ++ a).
Proof.
  intros Ha Hb Hc. unfold formatted_date.
  change (u "/") with [47%N]. change (u "-") with [45%N].
  assert (Ht : QA.truthy (Some (a ++ [47%N] ++ b ++ [47%N] ++ c))
               = Some (a ++ [47%N] ++ b ++ [47%N] ++ c)) by (by destruct a).
  rewrite Ht.
  rewrite (proj2 (contains_char 47 _))
    by (rewrite !elem_of_app, list_elem_of_singleton; tauto).
  cbv zeta. cbn [app].
  by rewrite (split_on_app 47 a), (split_on_app 47 b), (split_on_no_sep 47 c).
Qed.

Lemma formatted_date_plain (d : list N) :
  d <> [] -> 47%N ∉ d -> formatted_date (Some d) = Some d.
Proof.
  intros Hd Hs. unfold formatted_date.
  assert (Ht : QA.truthy (Some d) = Some d) by (by destruct d).
  rewrite Ht. change (u "/") with [47%N].
  destruct (contains [47%N] d) eqn:E; [|done].
  by apply contains_char in E.
Qed.

Lemma formatted_date_no_slash (issue_date : option (list N)) (d : list N) :
  formatted_date issue_date = Some d -> 47%N ∉ d.
Proof.
  unfold formatted_date.
  destruct (QA.truthy issue_date) as [d0|]; [|done].
  change (u "/") with [47%N]. change (u "-") with [45%N].
  destruct (contains [47%N] d0) eqn:E.
  - cbv zeta. destruct (length (split_on 47 d0) =? 3)%nat.
    + intros [= <-].
      pose proof (nth_split_on 47 d0 0). pose proof (nth_split_on 47 d0 1).
      pose proof (nth_split_on 47 d0 2).
      cbn [app]. rewrite !elem_of_app, !elem_of_cons, !elem_of_app, !elem_of_cons.
      intuition done.
    + intros [= <-]. rewrite replace_char.
      intros (c & Hc & _)%list_elem_of_fmap. by destruct (c =? 47)%N eqn:E'; [|
        apply N.eqb_neq in E'].
  - intros [= <-]. intros H%contains_char. congruence.
Qed.

Lemma digits_no_slash (s : list N) : digits s -> 47%N ∉ s.
Proof.
  intros Hd Hin. unfold digits in Hd. rewrite Forall_forall in Hd.
  by pose proof (Hd _ Hin).
Qed.

(** The text of a stored date: the text itself, or the literal of the
    number. *)
Definition date_text (v : Database.date_value) : list N :=
  match v with
  | Database.DateText d => d
  | Database.DateNumber d => d
  end.

(** A test that takes the texts of one or more of the digits 0 to 9, and
    no other, for numbers. *)
Definition unsigned_integer (d : list N) : bool :=
  bool_decide (d <> []) && forallb (in_range 48 57) d.

Lemma unsigned_integer_dash (l : list N) (x : N) (r : list N) :
  unsigned_integer (l ++ x :: 45%N :: r) = false.
Proof.
  unfold unsigned_integer. apply andb_false_iff. right.
  rewrite forallb_app. cbn [forallb]. change (in_range 48 57 45) with false.
  by rewrite andb_false_r, andb_false_r.
Qed.

Section SavedDate.
Context {Dict : Type} (dumps : Dict -> list N) (not_empty : Dict -> bool)
        (numeric : list N -> bool).
Context (t : Database.table) (filename file_data file_type category : list N)
        (document_type issuing_agency content_text : option (list N))
        (classification_result analysis_result : option Dict) (now1 now2 : Z).

(** The value of the column [issue_date] in the row read under the id that
    [save_document] returns. *)
Definition saved_date (issue_date : option (list N)) : option Database.date_value :=
  let res := Database.save_document dumps not_empty numeric t filename file_data
               file_type category document_type issuing_agency issue_date
               content_text classification_result analysis_result now1 now2 in
  match Database.get_document res.2 res.1 with
  | Some r => Database.issue_date r
  | None => None
  end.

Lemma saved_date_stored (issue_date : option (list N)) :
  saved_date issue_date
  = match formatted_date issue_date with
    | Some d => Some (if numeric d then Database.DateNumber d else Database.DateText d)
    | None => None
    end.
Proof.
  unfold saved_date. cbv zeta.
  rewrite (proj1 (get_document_saved dumps not_empty numeric t filename file_data
                    file_type category document_type issuing_agency issue_date
                    content_text classification_result analysis_result now1 now2)).
  cbn [Database.issue_date]. by destruct (formatted_date issue_date).
Qed.

(** X18: the date that [save_document] binds, and the value that the
    column [issue_date], declared [DATE], then holds.  No date and the empty
    date give NULL; a date without a slash is bound as it is; a date of three
    parts separated by slashes is bound with the parts in the opposite order,
    separated by dashes, whatever the parts are; and what is bound never
    holds a slash.  The row read back holds the bound text as a text when
    SQLite does not take it for a number, and as the number it denotes when
    it does.  Since no number has a dash straight after a digit, a date of
    digits, day first with slashes, is read back as the text with the year
    first and dashes. *)
Theorem formatted_date_spec :
  formatted_date None = None /\ formatted_date (Some []) = None /\
  (forall d, d <> [] -> 47%N ∉ d -> formatted_date (Some d) = Some d) /\
  (forall a b c, 47%N ∉ a -> 47%N ∉ b -> 47%N ∉ c ->
     formatted_date (Some (a ++ u "/" ++ b ++ u "/" ++ c))
     = Some (c ++ u "-" ++ b ++ u "-" ++ a)) /\
  (forall issue_date d, formatted_date issue_date = Some d -> 47%N ∉ d) /\
  saved_date None = None /\ saved_date (Some []) = None /\
  (forall d, d <> [] -> 47%N ∉ d ->
     saved_date (Some d)
     = Some (if numeric d then Database.DateNumber d else Database.DateText d)) /\
  (forall a b c, 47%N ∉ a -> 47%N ∉ b -> 47%N ∉ c ->
     saved_date (Some (a ++ u "/" ++ b ++ u "/" ++ c))
     = Some (if numeric (c ++ u "-" ++ b ++ u "-" ++ a)
             then Database.DateNumber (c ++ u "-" ++ b ++ u "-" ++ a)
             else Database.DateText (c ++ u "-" ++ b ++ u "-" ++ a))) /\
  (forall issue_date v, saved_date issue_date = Some v -> 47%N ∉ date_text v) /\
  ((forall l x r, is_digit x = true -> numeric (l ++ x :: 45%N :: r) = false) ->
   forall dd mm yyyy, digits dd -> digits mm -> digits yyyy -> yyyy <> [] ->
     saved_date (Some (dd ++ u "/" ++ mm ++ u "/" ++ yyyy))
     = Some (Database.DateText (yyyy ++ u "-" ++ mm ++ u "-" ++ dd))).
Proof.
  split; [done|]. split; [done|]. split; [apply formatted_date_plain|].
  split; [apply formatted_date_parts|]. split; [apply formatted_date_no_slash|].
  split; [by rewrite saved_date_stored|]. split; [by rewrite saved_date_stored|].
  split; [|split; [|split]].
  - intros d Hd Hs. by rewrite saved_date_stored, formatted_date_plain.
  - intros a b c Ha Hb Hc. by rewrite saved_date_stored, formatted_date_parts.
  - intros issue_date v. rewrite saved_date_stored.
    destruct (formatted_date issue_date) as [d|] eqn:E; [|done].
    apply formatted_date_no_slash in E. intros [= <-]. by destruct (numeric d).
  - intros Hdash dd mm yyyy Hd Hm Hy Hne.
    rewrite saved_date_stored, formatted_date_parts by (by apply digits_no_slash).
    destruct (exists_last Hne) as (l & x & ->).
    assert (Hx : is_digit x = true).
    { unfold digits in Hy. rewrite Forall_forall in Hy. apply Hy.
      rewrite elem_of_app, list_elem_of_singleton. by right. }
    change (u "-") with [45%N].
    replace ((l ++ [x]) ++ [45%N] ++ mm ++ [45%N] ++ dd)
      with (l ++ x :: 45%N :: mm ++ [45%N] ++ dd) by (by rewrite <- app_assoc).
    by rewrite Hdash.
Qed.

End SavedDate.

(** A date written year first, with slashes, comes out day first; with a
    test that takes the texts of digits for numbers, '007' is read back as
    a number and the date 19/02/2025 as the text 2025-02-19. *)
Lemma formatted_date_spec_witness :
  formatted_date (Some (u "2025/02/19")) = Some (u "19-02-2025") /\
  saved_date (fun _ : unit => u "{}") (fun _ => true) unsigned_integer
    (Database.init_database None) (u "a.txt") [37; 80; 68; 70]%N (u "pdf") (u "Khac")
    None None None None None 0 0 (Some (u "007"))
  = Some (Database.DateNumber (u "007")) /\
  saved_date (fun _ : unit => u "{}") (fun _ => true) unsigned_integer
    (Database.init_database None) (u "a.txt") [37; 80; 68; 70]%N (u "pdf") (u "Khac")
    None None None None None 0 0 (Some (u "19/02/2025"))
  = Some (Database.DateText (u "2025-02-19")).
Proof.
  pose proof (formatted_date_spec (fun _ : unit => u "{}") (fun _ => true)
                unsigned_integer (Database.init_database None) (u "a.txt")
                [37; 80; 68; 70]%N (u "pdf") (u "Khac") None None None None None 0 0)
    as (_ & _ & _ & Hparts & _ & _ & _ & Hplain & _ & _ & Hdate).
  split; [|split].
  - apply (Hparts (u "2025") (u "02") (u "19"));
      apply (bool_decide_unpack _); by vm_compute.
  - rewrite (Hplain (u "007")); [done|done|].
    apply (bool_decide_unpack _). by vm_compute.
  - apply (Hdate (fun l x r _ => unsigned_integer_dash l x r)
             (u "19") (u "02") (u "2025"));
      apply (bool_decide_unpack _); by vm_compute.
Defined.

(** X19: from the extraction to the table.  Every issue date that
    [extract_metadata] gives is two digits, a slash, two digits, a slash
    and four digits, and [save_document] stores it as the four digits, a
    dash, the two digits of the month, a dash and the two digits of the
    day. *)
Theorem extracted_date_stored (content filename d : list N) :
  issue_date (extract_metadata content filename) = Some d ->
  exists dd mm yyyy,
    d = dd ++ u "/" ++ mm ++ u "/" ++ yyyy /\
    digits dd /\ digits mm /\ digits yyyy /\
    length dd = 2%nat /\ length mm = 2%nat /\ length yyyy = 4%nat /\
    formatted_date (Some d) = Some (yyyy ++ u "-" ++ mm ++ u "-" ++ dd).
Proof.
  unfold extract_metadata. cbv zeta. cbn [issue_date].
  intros (dd & mm & yyyy & -> & Hd & Hm & Hy & Ld & Lm & Ly)%issue_date_format.
  exists dd, mm, yyyy. repeat split; try done.
  apply formatted_date_parts; by apply digits_no_slash.
Qed.

Lemma extracted_date_stored_witness :
  exists dd mm yyyy,
    u "09/02/2025" = dd ++ u "/" ++ mm ++ u "/" ++ yyyy /\
    digits dd /\ digits mm /\ digits yyyy /\
    length dd = 2%nat /\ length mm = 2%nat /\ length yyyy = 4%nat /\
    formatted_date (Some (u "09/02/2025")) = Some (yyyy ++ u "-" ++ mm ++ u "-" ++ dd).
Proof.
  apply (extracted_date_stored (u "Hà Nội, ngày 9 tháng 2 năm 2025") []).
  by vm_compute.
Defined.

End StoredDate.

(** ** The table of documents (database.py) *)

Section DocumentTable.
Import Database.

Section Saved.
Context {Dict : Type} (dumps : Dict -> list N) (not_empty : Dict -> bool)
        (numeric : list N -> bool).

(** X20: saving and reading back.  The row read under the id that
    [save_document] returns holds the values given, with the size of the
    data, the two results as JSON text, or NULL for no dict and for the
    empty dict, and the converted date, as a text when SQLite does not take
    it for a number and as that number when it does; reading any other id
    gives what it gave before; and the new id is larger than the id of every
    row of the table and than every id given before. *)
Theorem save_document_get (t : table) (filename : list N) (file_data : list N)
    (file_type category : list N)
    (document_type issuing_agency issue_date content_text : option (list N))
    (classification_result analysis_result : option Dict) (now1 now2 : Z) :
  let res := save_document dumps not_empty numeric t filename file_data file_type
               category document_type issuing_agency issue_date content_text
               classification_result analysis_result now1 now2 in
  get_document res.2 res.1
  = Some (Row res.1 filename file_type (Z.of_nat (length file_data)) file_data
            category document_type issuing_agency
            (store_date numeric <$> formatted_date issue_date)
            content_text (to_json dumps not_empty classification_result)
            (to_json dumps not_empty analysis_result) now1 now2) /\
  (forall j, j <> res.1 -> get_document res.2 j = get_document t j) /\
  (forall r, r ∈ rows t -> id r < res.1) /\
  sequence t < res.1 /\ sequence res.2 = res.1 /\
  exists r, get_document res.2 res.1 = Some r /\
    id r = res.1 /\ Database.filename r = filename /\
    Database.file_type r = file_type /\
    file_size r = Z.of_nat (length file_data) /\
    Database.file_data r = file_data /\ Database.category r = category /\
    Database.document_type r = document_type /\
    Database.issuing_agency r = issuing_agency /\
    Database.content_text r = content_text /\
    created_at r = now1 /\ updated_at r = now2 /\
    Database.classification_result r
    = match classification_result with
      | Some d => if not_empty d then Some (dumps d) else None
      | None => None
      end /\
    Database.analysis_result r
    = match analysis_result with
      | Some d => if not_empty d then Some (dumps d) else None
      | None => None
      end /\
    (issue_date = None \/ issue_date = Some [] -> Database.issue_date r = None) /\
    (forall d, issue_date = Some d -> d <> [] -> 47%N ∉ d ->
       Database.issue_date r = Some (if numeric d then DateNumber d else DateText d)) /\
    (forall a b c, issue_date = Some (a ++ u "/" ++ b ++ u "/" ++ c) ->
       47%N ∉ a -> 47%N ∉ b -> 47%N ∉ c ->
       Database.issue_date r
       = Some (if numeric (c ++ u "-" ++ b ++ u "-" ++ a)
               then DateNumber (c ++ u "-" ++ b ++ u "-" ++ a)
               else DateText (c ++ u "-" ++ b ++ u "-" ++ a))) /\
    (forall v, Database.issue_date r = Some v ->
       exists d, formatted_date issue_date = Some d /\ (47%N ∉ d) /\
         (numeric d = true /\ v = DateNumber d \/
          numeric d = false /\ v = DateText d)).
Proof.
  pose proof (get_document_saved dumps not_empty numeric t filename file_data file_type
                category document_type issuing_agency issue_date content_text
                classification_result analysis_result now1 now2) as Hget.
  cbv zeta in Hget |- *. destruct Hget as [Hnew Hold].
  split; [exact Hnew|]. split; [exact Hold|].
  split; [intros r; apply ids_lt_next_id|].
  split; [unfold save_document; cbv zeta; cbn [fst]; unfold next_id; lia|].
  split; [done|].
  eexists. split; [exact Hnew|].
  cbn [id Database.filename Database.file_type file_size Database.file_data
       Database.category Database.document_type Database.issuing_agency
       Database.content_text created_at updated_at Database.classification_result
       Database.analysis_result Database.issue_date].
  repeat (split; [reflexivity|]).
  split; [|split; [|split]].
  - by intros [-> | ->].
  - intros d -> Hd Hs. rewrite (formatted_date_plain d Hd Hs).
    cbn [fmap option_fmap option_map]. unfold store_date. by destruct (numeric d).
  - intros a b c -> Ha Hb Hc. rewrite (formatted_date_parts a b c Ha Hb Hc).
    cbn [fmap option_fmap option_map]. unfold store_date. by destruct (numeric _).
  - intros v. destruct (formatted_date issue_date) as [d|] eqn:E; [|done].
    cbn [fmap option_fmap option_map]. intros [= <-]. exists d. split; [done|].
    split; [by apply (formatted_date_no_slash issue_date)|].
    unfold store_date. destruct (numeric d); [by left|by right].
Qed.

End Saved.

(** The first row saved in a new table has the id 1 and no other id is
    found; its date 19/02/2025 is read back as the text 2025-02-19 when the
    texts of digits are those taken for numbers. *)
Lemma save_document_get_witness :
  let res := save_document (fun _ : unit => u "{}") (fun _ => true) unsigned_integer
               (init_database None) (u "a.txt") [37; 80; 68; 70]%N (u "pdf") (u "Khac")
               None None (Some (u "19/02/2025")) None None None 0 0 in
  res.1 = 1 /\ get_document res.2 2 = None /\
  exists r, get_document res.2 res.1 = Some r /\
    Database.issue_date r = Some (DateText (u "2025-02-19")).
Proof.
  cbv zeta.
  pose proof (save_document_get (fun _ : unit => u "{}") (fun _ => true)
                unsigned_integer (init_database None) (u "a.txt") [37; 80; 68; 70]%N
                (u "pdf") (u "Khac") None None (Some (u "19/02/2025")) None None None
                0 0) as H.
  cbv zeta in H.
  destruct H as (_ & Hold & _ & _ & _ & r & Hr & _ & _ & _ & _ & _ & _ & _ & _ & _ & _
                 & _ & _ & _ & _ & _ & Hparts & _).
  split; [by vm_compute|]. split.
  - rewrite (Hold 2); [done|by vm_compute].
  - exists r. split; [exact Hr|].
    rewrite (Hparts (u "19") (u "02") (u "2025"));
      [by vm_compute|by vm_compute| | |];
      apply (bool_decide_unpack _); by vm_compute.
Defined.

(** X21: deleting.  [delete_document] reports a deletion exactly when the
    id was in the table; afterwards the id is not found, every other id
    reads as before, and a second deletion of the same id reports nothing
    and changes nothing. *)
Theorem delete_document_spec (t : table) (doc_id : Z) :
  let res := delete_document t doc_id in
  (res.1 = true <-> is_Some (get_document t doc_id)) /\
  get_document res.2 doc_id = None /\
  (forall j, j <> doc_id -> get_document res.2 j = get_document t j) /\
  delete_document res.2 doc_id = (false, res.2) /\
  (res.1 = false -> res.2 = t).
Proof.
  cbv zeta. unfold delete_document, get_document. cbv zeta. cbn [fst snd rows sequence].
  assert (Hgone : filter (fun r => id r = doc_id)
                    (filter (fun r => id r <> doc_id) (rows t)) = []).
  { apply filter_none. by intros r [? _]%list_elem_of_filter. }
  split; [|split; [|split; [|split]]].
  - destruct (filter (fun r => id r = doc_id) (rows t)) as [|r l]; simpl.
    + split; [done|]. by intros [? ?].
    + split; [by eexists|done].
  - by rewrite Hgone.
  - intros j Hj. f_equal. rewrite list_filter_filter. apply list_filter_iff_in.
    intros r _. split; [tauto|]. intros Hr. split; [done|congruence].
  - rewrite Hgone. simpl. f_equal. f_equal. rewrite list_filter_filter.
    apply list_filter_iff_in. tauto.
  - destruct (filter (fun r => id r = doc_id) (rows t)) as [|r l] eqn:E; [|done].
    intros _. destruct t as [l s]. cbn [rows sequence] in *. f_equal.
    apply filter_all. intros r Hr Hid.
    assert (Hin : r ∈ filter (fun r => id r = doc_id) l) by (by apply list_elem_of_filter).
    rewrite E in Hin. by apply elem_of_nil in Hin.
Qed.

Lemma delete_document_spec_witness :
  delete_document (init_database None) 1 = (false, init_database None).
Proof.
  pose proof (delete_document_spec (init_database None) 1) as H. cbv zeta in H.
  destruct H as (_ & _ & _ & _ & H).
  rewrite (surjective_pairing (delete_document (init_database None) 1)).
  rewrite H by (by vm_compute). by vm_compute.
Defined.

(** The ids of a table are distinct and none is above the counter. *)
Definition well_formed (t : table) : Prop :=
  NoDup (map id (rows t)) /\ 0 <= sequence t /\
  Forall (fun r => id r <= sequence t) (rows t).

Lemma well_formed_empty : well_formed (init_database None).
Proof. split; [constructor|]. split; [done|constructor]. Qed.

Lemma well_formed_next_id (t : table) : well_formed t -> next_id t = sequence t + 1.
Proof.
  intros (_ & H0 & Hle). unfold next_id. f_equal. apply Z.max_l.
  induction Hle as [|r l Hr Hle IH]; cbn [map foldr]; lia.
Qed.

Lemma well_formed_delete (t : table) (doc_id : Z) :
  well_formed t -> well_formed (delete_document t doc_id).2.
Proof.
  intros (Hnd & H0 & Hle). unfold delete_document. cbv zeta. cbn [snd].
  split; [|split; [done|]]; cbn [rows sequence].
  - apply (NoDup_fmap_2_strong id); [|by apply NoDup_filter, (NoDup_fmap_1 id)].
    intros x y [_ Hx]%list_elem_of_filter [_ Hy]%list_elem_of_filter Hxy.
    apply list_elem_of_lookup in Hx as [i Hi]. apply list_elem_of_lookup in Hy as [j Hj].
    assert (i = j) as ->.
    { apply (NoDup_lookup _ i j (id x) Hnd); rewrite list_lookup_fmap.
      - by rewrite Hi.
      - by rewrite Hj, Hxy. }
    congruence.
  - rewrite Forall_forall in Hle |- *. by intros r [_ Hr%Hle]%list_elem_of_filter.
Qed.

Section SavedWellFormed.
Context {Dict : Type} (dumps : Dict -> list N) (not_empty : Dict -> bool)
        (numeric : list N -> bool).

Lemma well_formed_save (t : table) (filename : list N) (file_data : list N)
    (file_type category : list N)
    (document_type issuing_agency issue_date content_text : option (list N))
    (classification_result analysis_result : option Dict) (now1 now2 : Z) :
  well_formed t ->
  well_formed (save_document dumps not_empty numeric t filename file_data file_type category
                 document_type issuing_agency issue_date content_text
                 classification_result analysis_result now1 now2).2.
Proof.
  intros Hwf. pose proof (well_formed_next_id t Hwf) as Hn.
  destruct Hwf as (Hnd & H0 & Hle).
  unfold save_document. cbv zeta. cbn [snd]. rewrite Hn.
  split; [|split]; cbn [rows sequence].
  - rewrite map_app. cbn [map id]. apply NoDup_app. split; [done|].
    split; [|apply NoDup_singleton].
    intros x (r & -> & Hr)%list_elem_of_fmap Heq%list_elem_of_singleton.
    rewrite Forall_forall in Hle. specialize (Hle r Hr). lia.
  - lia.
  - apply Forall_app. split; [|by repeat constructor].
    eapply Forall_impl; [exact Hle|]. intros r Hr. simpl in Hr. lia.
Qed.

(** X22: ids are not used twice.  The tables that [save_document] and
    [delete_document] make from a new table keep distinct ids, none above
    the counter; in such a table the id given by [save_document] is the
    counter plus one, also after a deletion, so that it is larger than every
    id the table held before the deletion, the deleted one included. *)
Theorem ids_never_reused (t : table) (doc_id : Z) (filename : list N)
    (file_data : list N) (file_type category : list N)
    (document_type issuing_agency issue_date content_text : option (list N))
    (classification_result analysis_result : option Dict) (now1 now2 : Z) :
  well_formed t ->
  let after_delete := (delete_document t doc_id).2 in
  let res := save_document dumps not_empty numeric after_delete filename file_data file_type
               category document_type issuing_agency issue_date content_text
               classification_result analysis_result now1 now2 in
  well_formed after_delete /\ well_formed res.2 /\
  res.1 = sequence t + 1 /\
  (forall r, r ∈ rows t -> id r < res.1).
Proof.
  intros Hwf. cbv zeta.
  pose proof (well_formed_delete t doc_id Hwf) as Hd.
  split; [done|]. split; [by apply well_formed_save|].
  assert (Hid : (save_document dumps not_empty numeric (delete_document t doc_id).2 filename
                   file_data file_type category document_type issuing_agency issue_date
                   content_text classification_result analysis_result now1 now2).1
                = sequence t + 1).
  { unfold save_document. cbv zeta. cbn [fst]. by rewrite (well_formed_next_id _ Hd). }
  split; [done|]. rewrite Hid. intros r Hr.
  destruct Hwf as (_ & _ & Hle). rewrite Forall_forall in Hle. specialize (Hle r Hr). lia.
Qed.

End SavedWellFormed.

(** Save, delete what was saved, save again: the second id is 2. *)
Lemma ids_never_reused_witness :
  let save t := save_document (fun _ : unit => u "{}") (fun _ => true) (fun _ => false) t (u "a.txt")
                  [37]%N (u "pdf") (u "Khac") None None None None None None 0 0 in
  (save (delete_document (save (init_database None)).2 1).2).1 = 2.
Proof.
  cbv beta zeta.
  rewrite (proj1 (proj2 (proj2
             (ids_never_reused (fun _ : unit => u "{}") (fun _ => true) (fun _ => false)
                (save_document (fun _ : unit => u "{}") (fun _ => true) (fun _ => false)
                   (init_database None) (u "a.txt") [37]%N (u "pdf") (u "Khac")
                   None None None None None None 0 0).2
                1 (u "a.txt") [37]%N (u "pdf") (u "Khac")
                None None None None None None 0 0
                (well_formed_save _ _ _ _ _ _ _ _ _ _ _ _ _ _ _ _ well_formed_empty))))).
  by vm_compute.
Defined.

End DocumentTable.

(** ** Statistics (database.py) *)

Section TableStatistics.
Import Database.

(** The number of rows of a category. *)
Definition rows_in (c : list N) (l : list row) : Z :=
  Z.of_nat (length (filter (fun r => category r = c) l)).

(** The sum of the counts of a dict of counts. *)
Definition sum_counts (m : gmap (list N) Z) : Z :=
  map_fold (fun _ n acc => n + acc) 0 m.

Lemma count_by_category_lookup (l : list row) (c : list N) :
  count_by_category l !! c = if rows_in c l =? 0 then None else Some (rows_in c l).
Proof.
  unfold rows_in. induction l as [|r l IH]; [done|].
  cbn [count_by_category foldr]. fold (count_by_category l).
  destruct (decide (category r = c)) as [<-|Hne].
  - rewrite lookup_insert_eq, IH, filter_cons_True by done. cbn [length].
    generalize (length (filter (fun r0 => category r0 = category r) l)). intros n.
    destruct n as [|n]; [done|]. simpl. f_equal. lia.
  - by rewrite lookup_insert_ne, IH, filter_cons_False by done.
Qed.

Lemma sum_counts_insert (m : gmap (list N) Z) (k : list N) (v : Z) :
  sum_counts (<[k := v]> m) = v - default 0 (m !! k) + sum_counts m.
Proof.
  assert (Hcomm : forall z1 z2 y : Z, z1 + (z2 + y) = z2 + (z1 + y)) by (intros; lia).
  unfold sum_counts. destruct (m !! k) as [x|] eqn:E; simpl.
  - rewrite <- insert_delete_eq.
    rewrite map_fold_insert_L; [|intros; apply Hcomm|apply lookup_delete_eq].
    rewrite (map_fold_delete_L _ 0 k x m); [|intros; apply Hcomm|done]. lia.
  - rewrite map_fold_insert_L; [|intros; apply Hcomm|done]. lia.
Qed.

Lemma sum_counts_rows (l : list row) :
  sum_counts (count_by_category l) = Z.of_nat (length l).
Proof.
  induction l as [|r l IH]; [done|].
  cbn [count_by_category foldr length]. fold (count_by_category l).
  rewrite sum_counts_insert, IH. lia.
Qed.

(** X23: the statistics of a table.  The total is the number of rows;
    the categories of the dict are those of at least one row, each with the
    number of its rows, so that the counts add up to the total; and the size
    is the sum of the sizes, 0 for the table without rows.  *)
Theorem get_statistics_spec (t : table) :
  let st := get_statistics t in
  total_documents st = Z.of_nat (length (rows t)) /\
  (forall c n, by_category st !! c = Some n <-> n = rows_in c (rows t) /\ 0 < n) /\
  sum_counts (by_category st) = total_documents st /\
  total_size st = foldr Z.add 0 (map file_size (rows t)) /\
  (rows t = [] -> st = Statistics 0 ∅ 0).
Proof.
  cbv zeta. unfold get_statistics. cbn [total_documents by_category total_size].
  split; [done|]. split; [|split; [apply sum_counts_rows|split]].
  - intros c n. rewrite count_by_category_lookup.
    assert (0 <= rows_in c (rows t)) by (unfold rows_in; lia).
    destruct (rows_in c (rows t) =? 0) eqn:E.
    + apply Z.eqb_eq in E. split; [done|]. lia.
    + apply Z.eqb_neq in E. split; [intros [= <-]; lia|]. by intros [-> _].
  - induction (rows t) as [|r l IH]; [done|]. cbn [map foldr]. by rewrite IH.
  - by intros ->.
Qed.

Lemma get_statistics_spec_witness :
  get_statistics (init_database None) = Statistics 0 ∅ 0.
Proof.
  by apply (proj2 (proj2 (proj2 (proj2 (get_statistics_spec (init_database None)))))).
Defined.

Lemma foldr_size_shift (l : list row) (n : Z) :
  foldr (fun r acc => file_size r + acc) (n + 0) l
  = foldr (fun r acc => file_size r + acc) 0 l + n.
Proof. induction l as [|r l IH]; cbn [foldr]; [lia|]. rewrite IH. lia. Qed.

Section SavedStatistics.
Context {Dict : Type} (dumps : Dict -> list N) (not_empty : Dict -> bool)
        (numeric : list N -> bool).

(** X24: what a saved document adds to the statistics: one to the total,
    one to the count of its category, which is in the dict from then on, the
    length of its data to the size, and nothing to the other categories. *)
Theorem statistics_after_save (t : table) (filename : list N) (file_data : list N)
    (file_type category : list N)
    (document_type issuing_agency issue_date content_text : option (list N))
    (classification_result analysis_result : option Dict) (now1 now2 : Z) :
  let st := get_statistics t in
  let st' := get_statistics
               (save_document dumps not_empty numeric t filename file_data file_type category
                  document_type issuing_agency issue_date content_text
                  classification_result analysis_result now1 now2).2 in
  total_documents st' = total_documents st + 1 /\
  total_size st' = total_size st + Z.of_nat (length file_data) /\
  by_category st' !! category = Some (default 0 (by_category st !! category) + 1) /\
  (forall c, c <> category -> by_category st' !! c = by_category st !! c).
Proof.
  cbv zeta. unfold get_statistics, save_document. cbv zeta.
  cbn [snd rows total_documents by_category total_size].
  set (new := Row (next_id t) _ _ _ _ _ _ _ _ _ _ _ _ _).
  assert (Hin : forall c, rows_in c (rows t ++ [new])
                          = rows_in c (rows t) + (if decide (category = c) then 1 else 0)).
  { intros c. unfold rows_in. rewrite filter_app, length_app.
    destruct (decide (category = c)) as [<-|Hne].
    - rewrite filter_cons_True by done. simpl. lia.
    - rewrite filter_cons_False by (cbn [Database.category new]; congruence). simpl. lia. }
  split; [|split; [|split]].
  - rewrite length_app. simpl. lia.
  - rewrite foldr_app. cbn [foldr file_size new].
    apply foldr_size_shift.
  - rewrite !count_by_category_lookup, Hin, decide_True by done.
    assert (0 <= rows_in category (rows t)) by (unfold rows_in; lia).
    destruct (rows_in category (rows t) =? 0) eqn:E;
      destruct (rows_in category (rows t) + 1 =? 0) eqn:E'; simpl;
      rewrite ?Z.eqb_eq, ?Z.eqb_neq in *; try lia; f_equal; lia.
  - intros c Hc. rewrite !count_by_category_lookup, Hin, decide_False by done.
    by rewrite Z.add_0_r.
Qed.

End SavedStatistics.

(** Saving a document of the folder 'ChungCu' leaves the count of 'Khac'
    as it was. *)
Lemma statistics_after_save_witness :
  by_category
    (get_statistics
       (save_document (fun _ : unit => u "{}") (fun _ => true) (fun _ => false)
          (init_database None) (u "a.txt") [37]%N (u "pdf") (u "ChungCu")
          None None None None None None 0 0).2) !! u "Khac"
  = None.
Proof.
  rewrite (proj2 (proj2 (proj2
             (statistics_after_save (fun _ : unit => u "{}") (fun _ => true) (fun _ => false)
                (init_database None) (u "a.txt") [37]%N (u "pdf") (u "ChungCu")
                None None None None None None 0 0))) (u "Khac")).
  - done.
  - by vm_compute.
Defined.

End TableStatistics.

(** ** The API key (config.py) *)

Section ApiKey.
Import Config.

Lemma drop_while_idem (p : N -> bool) (s : list N) :
  drop_while p (drop_while p s) = drop_while p s.
Proof.
  induction s as [|c s IH]; simpl; [done|].
  destruct (p c) eqn:E; [done|]. simpl. by rewrite E.
Qed.

Lemma drop_while_head (p : N -> bool) (s : list N) (c : N) (t : list N) :
  drop_while p s = c :: t -> p c = false.
Proof.
  induction s as [|x s IH]; simpl; [done|].
  destruct (p x) eqn:E; [done|]. by intros [= <- _].
Qed.

Lemma drop_while_keep (p : N -> bool) (s : list N) :
  (forall c t, s = c :: t -> p c = false) -> drop_while p s = s.
Proof. destruct s as [|c t]; intros H; simpl; [done|]. by rewrite (H c t). Qed.

Lemma drop_while_suffix (p : N -> bool) (s : list N) :
  exists d, s = d ++ drop_while p s.
Proof.
  induction s as [|c s [d IH]]; simpl; [by exists []|].
  destruct (p c); [|by exists []]. exists (c :: d). simpl. by f_equal.
Qed.

Lemma rstrip_by_prefix (p : N -> bool) (s : list N) :
  exists d, s = rstrip_by p s ++ d.
Proof.
  unfold rstrip_by. destruct (drop_while_suffix p (rev s)) as [d Hd].
  exists (rev d). rewrite <- rev_app_distr, <- Hd. by rewrite rev_involutive.
Qed.

(** [strip] does nothing to a stripped string. *)
Lemma strip_idem (s : list N) : strip (strip s) = strip s.
Proof.
  unfold strip, rstrip, lstrip.
  assert (Hl : drop_while is_space (rstrip_by is_space (drop_while is_space s))
               = rstrip_by is_space (drop_while is_space s)).
  { apply drop_while_keep. intros c t Hc.
    destruct (rstrip_by_prefix is_space (drop_while is_space s)) as [d Hd].
    rewrite Hc in Hd. by apply (drop_while_head is_space s c (t ++ d)). }
  rewrite Hl. unfold rstrip_by. by rewrite rev_involutive, drop_while_idem.
Qed.

(** The session holds no usable key. *)
Definition no_session_key (s : sources) : Prop :=
  forall key, session_key s = Some key -> strip key = [].
(** A source holds no key, or the empty one. *)
Definition no_key (o : option (list N)) : Prop := o = None \/ o = Some [].

Lemma strip_nil : strip [] = [].
Proof. done. Qed.

Lemma truthy_None (o : option (list N)) : QA.truthy o = None <-> no_key o.
Proof.
  unfold no_key. destruct o as [[|c t]|]; simpl; split; try done; auto.
  intros [H|H]; discriminate H.
Qed.

Lemma session_choice (s : sources) :
  (exists key, session_key s = Some key /\ strip key <> [] /\
     get_api_key s = Some (strip key)) \/
  (no_session_key s /\
   get_api_key s
   = match QA.truthy (env_key s) with
     | Some api_key => Some (strip api_key)
     | None =>
       match QA.truthy (file_key s) with
       | Some api_key => Some (strip api_key)
       | None => None
       end
     end).
Proof.
  unfold get_api_key, no_session_key. cbv zeta.
  destruct (session_key s) as [key|]; [|by right].
  destruct (strip key) as [|c t] eqn:E.
  - right. rewrite andb_false_r. split; [|done]. by intros ? [= <-].
  - destruct key as [|a key]; [done|]. left. exists (a :: key). by rewrite E.
Qed.

(** X25: the choice of the API key.  The key of the session is taken
    when it is more than white space; otherwise the environment variable
    when it is not empty; otherwise the key of the configuration file when
    it is not empty; the key is stripped in each case, so that a variable or
    a file key of white space gives the empty key and not [None]; and [None]
    is returned exactly when none of the three gives a key. *)
Theorem get_api_key_spec (s : sources) :
  let k := get_api_key s in
  (forall key, session_key s = Some key -> strip key <> [] -> k = Some (strip key)) /\
  (no_session_key s ->
   forall key, env_key s = Some key -> key <> [] -> k = Some (strip key)) /\
  (no_session_key s -> no_key (env_key s) ->
   forall key, file_key s = Some key -> key <> [] -> k = Some (strip key)) /\
  (k = None <-> no_session_key s /\ no_key (env_key s) /\ no_key (file_key s)) /\
  (forall key, k = Some key -> strip key = key).
Proof.
  cbv zeta. split; [|split; [|split; [|split]]].
  - intros key Hk Hs. destruct (session_choice s) as [(key' & Hk' & _ & ->)|[Hno _]].
    + congruence.
    + by destruct (Hs (Hno key Hk)).
  - intros Hno key Hk Hne. destruct (session_choice s) as [(key' & Hk' & Hs & _)|[_ ->]].
    + by destruct (Hs (Hno key' Hk')).
    + by rewrite (proj2 (truthy_Some _ key)).
  - intros Hno He key Hk Hne.
    destruct (session_choice s) as [(key' & Hk' & Hs & _)|[_ ->]].
    + by destruct (Hs (Hno key' Hk')).
    + by rewrite (proj2 (truthy_None _) He), (proj2 (truthy_Some _ key)).
  - destruct (session_choice s) as [(key' & Hk' & Hs & ->)|[Hno ->]].
    + split; [done|]. intros (Hno & _). by destruct (Hs (Hno key' Hk')).
    + destruct (QA.truthy (env_key s)) as [e|] eqn:Ee.
      * split; [done|]. intros (_ & He & _). apply truthy_None in He. congruence.
      * apply truthy_None in Ee.
        destruct (QA.truthy (file_key s)) as [f|] eqn:Ef.
        -- split; [done|]. intros (_ & _ & Hf). apply truthy_None in Hf. congruence.
        -- apply truthy_None in Ef. done.
  - intros key. destruct (session_choice s) as [(key' & _ & _ & ->)|[_ ->]].
    + intros [= <-]. apply strip_idem.
    + destruct (QA.truthy (env_key s)); [intros [= <-]; apply strip_idem|].
      destruct (QA.truthy (file_key s)); [intros [= <-]; apply strip_idem|done].
Qed.

(** A blank session key and a variable of spaces: the empty key, although
    the file holds a key. *)
Lemma get_api_key_spec_witness :
  get_api_key (Sources (Some (u "  ")) (Some (u "   ")) (Some (u "sk-file"))) = Some [].
Proof.
  apply (proj1 (proj2 (get_api_key_spec
                         (Sources (Some (u "  ")) (Some (u "   ")) (Some (u "sk-file")))))
           ltac:(by intros key [= <-]) (u "   ") eq_refl).
  by vm_compute.
Defined.

End ApiKey.
